(** * TicTacToe_PerfectPlay: the board, the evaluator and the minimax AI

    A shallow embedding of [src/js/ai/minimax.js], [src/js/game/board.js]
    and of [checkResult] in [src/js/game/logic.js], with the properties of
    the move search, of the difficulty policy and of the cell mutation;
    then of the rest of [src/js/game/logic.js] and of the statistics of
    [src/js/storage/stats.js], with the properties of a whole game on the
    page. *)

From Stdlib Require Import ZArith List String Bool Lia QArith Sorted.
From Stdlib Require Import SpecFloat.
Import ListNotations.

Open Scope string_scope.
Open Scope list_scope.
Open Scope Z_scope.

(** ** JavaScript arrays and values *)

(** A board is an [Array<string>]; a cell is [""] when empty. *)
Definition Board := list string.

(** [arr[i]]: reading outside the array yields [undefined], here [None]. *)
Definition get {A : Type} (arr : list A) (i : Z) : option A :=
  if i <? 0 then None else nth_error arr (Z.to_nat i).

Fixpoint assign_nat {A : Type} (arr : list A) (n : nat) (v : A) : list A :=
  match arr, n with
  | [], _ => []
  | _ :: rest, O => v :: rest
  | x :: rest, S n' => x :: assign_nat rest n' v
  end.

(** [arr[i] = v] on an index inside the array. JavaScript grows the array
    on a write past its end; both writes of the program ([markCell] and the
    loop of [minimax]) happen at an index that was just read as [""], which
    is inside the array, so only the in-range case is given a meaning and
    an outside index leaves the array as it is. *)
Definition assign {A : Type} (arr : list A) (i : Z) (v : A) : list A :=
  if i <? 0 then arr else assign_nat arr (Z.to_nat i) v.

(** [v === s] for a value read from an array of strings and a string [s]:
    [undefined] is strictly equal to no string. *)
Definition strict_eq (v : option string) (s : string) : bool :=
  match v with
  | Some x => String.eqb x s
  | None => false
  end.

(** [arr.map((val, index) => ...)]. *)
Fixpoint mapi_from {A B : Type} (f : A -> Z -> B) (start : Z) (arr : list A)
  : list B :=
  match arr with
  | [] => []
  | val :: rest => f val start :: mapi_from f (start + 1) rest
  end.

Definition mapi {A B : Type} (f : A -> Z -> B) (arr : list A) : list B :=
  mapi_from f 0 arr.

(** [arr.findIndex(p)]: the first position whose element satisfies [p],
    [-1] when there is none. *)
Fixpoint findIndex_from {A : Type} (p : A -> bool) (start : Z) (arr : list A)
  : Z :=
  match arr with
  | [] => -1
  | x :: rest => if p x then start else findIndex_from p (start + 1) rest
  end.

Definition findIndex {A : Type} (p : A -> bool) (arr : list A) : Z :=
  findIndex_from p 0 arr.

(** [arr.length] as a JavaScript number. *)
Definition len {A : Type} (arr : list A) : Z := Z.of_nat (List.length arr).

(** The numbers [-Infinity] and [Infinity] next to the integer scores. *)
Inductive number : Type :=
  | NegInfinity
  | Finite (z : Z)
  | Infinity.

(** [z > n] and [z < n] for an integer [z] and a number [n]. *)
Definition gt_number (z : Z) (n : number) : bool :=
  match n with
  | NegInfinity => true
  | Finite y => y <? z
  | Infinity => false
  end.

Definition lt_number (z : Z) (n : number) : bool :=
  match n with
  | NegInfinity => false
  | Finite y => z <? y
  | Infinity => true
  end.

(** ** Outcomes of a call

    A call returns a value, throws a [TypeError] (a property read on
    [undefined]) or, in the embedding only, runs out of recursion fuel. *)
Inductive res (A : Type) : Type :=
  | Ok (a : A)
  | TypeError
  | OutOfFuel.

Arguments Ok {A} a.
Arguments TypeError {A}.
Arguments OutOfFuel {A}.

Definition bind {A B : Type} (c : res A) (k : A -> res B) : res B :=
  match c with
  | Ok a => k a
  | TypeError => TypeError
  | OutOfFuel => OutOfFuel
  end.

Notation "x <- c ;; k" := (bind c (fun x => k))
  (at level 61, c at next level, right associativity).

(** A [for (const x of arr)] loop that pushes one value per element. *)
Fixpoint for_each {A B : Type} (arr : list A) (body : A -> res B)
  : res (list B) :=
  match arr with
  | [] => Ok []
  | x :: rest =>
      y <- body x ;;
      ys <- for_each rest body ;;
      Ok (y :: ys)
  end.

(** ** [src/js/ai/minimax.js] *)

Definition aiMarker : string := "O".
Definition humanMarker : string := "X".

(** [const scores = { 'O': 100, 'X': -100, 'draw': 0 }], read at its three
    keys only. *)
Definition scores (key : string) : Z :=
  if String.eqb key "O" then 100
  else if String.eqb key "X" then -100
  else 0.

Definition findEmptySpots (board : Board) : list Z :=
  filter (fun i => negb (i =? -1))
    (mapi (fun val index => if String.eqb val "" then index else -1) board).

(** A winning condition is an array of three indices. *)
Definition condition : Type := (Z * Z * Z)%type.

(** [condition[k]] for the position [k] that [findIndex] returns on the
    three cells of a condition. *)
Definition condition_at (cond : condition) (k : Z) : Z :=
  let '(a, b, c) := cond in
  if k =? 0 then a else if k =? 1 then b else c.

Fixpoint checkBoardWin (board : Board) (marker : string)
  (winningConditions : list condition) : bool :=
  match winningConditions with
  | [] => false
  | (a, b, c) :: rest =>
      if strict_eq (get board a) marker
         && strict_eq (get board b) marker
         && strict_eq (get board c) marker
      then true
      else checkBoardWin board marker rest
  end.

Fixpoint findStrategicMove (board : Board) (marker : string)
  (winningConditions : list condition) : Z :=
  match winningConditions with
  | [] => -1
  | cond :: rest =>
      let '(a, b, c) := cond in
      let cells := [get board a; get board b; get board c] in
      let emptyIndexInCondition :=
        findIndex (fun cell => strict_eq cell "") cells in
      if negb (emptyIndexInCondition =? -1)
         && (len (filter (fun cell => strict_eq cell marker) cells) =? 2)
      then condition_at cond emptyIndexInCondition
      else findStrategicMove board marker rest
  end.

(** The marker [minimax] hands the turn to: the human's after the AI's,
    the AI's after any other. *)
Definition opponent (player : string) : string :=
  if String.eqb player aiMarker then humanMarker else aiMarker.

(** A move object: [{ index, score }]; the objects of the base cases carry
    a score only, their [index] is [undefined]. *)
Record move : Type := mkMove { index : option Z; score : Z }.

(** [v.score] and [v.index] on the value a call of [minimax] returned:
    a [TypeError] when the value is [undefined]. *)
Definition score_of (v : option move) : res Z :=
  match v with
  | Some m => Ok (score m)
  | None => TypeError
  end.

Definition index_of (v : option move) : res (option Z) :=
  match v with
  | Some m => Ok (index m)
  | None => TypeError
  end.

(** The two selection loops, with [bestScore] and [bestMove] as they stand
    before the rest of [moves] is visited. *)
Fixpoint select_max (moves : list move) (bestScore : number)
  (bestMove : option move) : option move :=
  match moves with
  | [] => bestMove
  | m :: rest =>
      if gt_number (score m) bestScore
      then select_max rest (Finite (score m)) (Some m)
      else select_max rest bestScore bestMove
  end.

Fixpoint select_min (moves : list move) (bestScore : number)
  (bestMove : option move) : option move :=
  match moves with
  | [] => bestMove
  | m :: rest =>
      if lt_number (score m) bestScore
      then select_min rest (Finite (score m)) (Some m)
      else select_min rest bestScore bestMove
  end.

(** [minimax], by recursion on a bound on the depth of the calls. *)
Fixpoint minimax_fuel (fuel : nat) (newBoard : Board) (player : string)
  (depth : Z) (winningConditions : list condition) {struct fuel}
  : res (option move) :=
  match fuel with
  | O => OutOfFuel
  | S fuel' =>
      if checkBoardWin newBoard humanMarker winningConditions
      then Ok (Some (mkMove None (scores "X" + depth)))
      else if checkBoardWin newBoard aiMarker winningConditions
      then Ok (Some (mkMove None (scores "O" - depth)))
      else if len (findEmptySpots newBoard) =? 0
      then Ok (Some (mkMove None (scores "draw")))
      else
        let availableSpots := findEmptySpots newBoard in
        moves <- for_each availableSpots (fun index =>
          let nextBoard := assign newBoard index player in
          r <- (if String.eqb player aiMarker
                then minimax_fuel fuel' nextBoard humanMarker (depth + 1)
                       winningConditions
                else minimax_fuel fuel' nextBoard aiMarker (depth + 1)
                       winningConditions) ;;
          s <- score_of r ;;
          Ok (mkMove (Some index) s)) ;;
        Ok (if String.eqb player aiMarker
            then select_max moves NegInfinity None
            else select_min moves Infinity None)
  end.

(** Every call made with a marker fills one empty cell, and every call but
    the first is made with a marker: a chain of calls is no longer than the
    board, plus the first call and the base case that ends the chain. *)
Definition minimax (newBoard : Board) (player : string) (depth : Z)
  (winningConditions : list condition) : res (option move) :=
  minimax_fuel (S (S (List.length newBoard))) newBoard player depth
    winningConditions.

(** *** The random index

    [Math.random()] returns a double of [0, 1) and [Math.random() * n] is
    the product of two doubles: the IEEE 754 product, the double nearest to
    the exact one, to the even one of two that are as near. A double of
    [0, 1) is [m / 2^e] with [0 <= m < 2^53] and [e <= 1074]; the length
    [n] of an array is an integer below 2^32, a double as it is. *)

(** [p / 2^s] to the nearest integer, to the even one of two that are as
    near. *)
Definition round_even (p s : Z) : Z :=
  let q := p / 2 ^ s in
  match 2 * (p mod 2 ^ s) ?= 2 ^ s with
  | Lt => q
  | Eq => if Z.even q then q else q + 1
  | Gt => q + 1
  end.

(** [Math.floor(x * n)] for the double [x = m / 2^e] and the integer [n]:
    the exact product [m * n / 2^e] keeps its 53 leading bits, the [s]
    bits below them are rounded away, and the floor of the double
    [q * 2^s / 2^e] is taken. With [e <= 1074] the exact product is a
    multiple of 2^-1074: one of at most 53 bits is a double as it is, and
    a longer one is 2^-1021 at least, where a double has its 53 bits. *)
Definition floor_of_product (m e n : Z) : Z :=
  let p := m * n in
  let s := Z.max 0 (Z.log2 p - 52) in
  let q := round_even p s in
  if e <=? s then q * 2 ^ (s - e) else q / 2 ^ (e - s).

(** The largest double that is no more than a fraction [x] of [0, 1), as
    its numerator and the exponent of its denominator: [x] is cut to a
    multiple of 2^-1074, the smallest positive double, and then to its 53
    leading bits. A double is left as it is. *)
Definition to_double (x : Q) : Z * Z :=
  let t := Qnum x * 2 ^ 1074 / Zpos (Qden x) in
  let s := Z.max 0 (Z.log2 t - 52) in
  (t / 2 ^ s, 1074 - s).

(** The fractions of [0, 1) that are doubles. *)
Definition double (x : Q) : Prop :=
  let (m, e) := to_double x in Qnum x * 2 ^ e = m * Zpos (Qden x).

(** [Math.floor(Math.random() * n)], for the value [random] that
    [Math.random()] returned: a double of [0, 1). Of a fraction that is no
    double the double below it is taken, so that what holds of every
    fraction of [0, 1) holds of every double of [0, 1). *)
Definition random_position (random : Q) (n : Z) : Z :=
  let (m, e) := to_double random in floor_of_product m e n.

(** The same product by the multiplication of the library's model of
    IEEE 754 binary64, for a double [m / 2^e] that is not 0. *)
Definition ieee_floor_of_product (m e n : positive) : option Z :=
  match SFmul 53 1024 (S754_finite false m (- Zpos e))
          (S754_finite false n 0) with
  | S754_zero _ => Some 0
  | S754_finite false q x =>
      Some (if 0 <=? x then Zpos q * 2 ^ x else Zpos q / 2 ^ (- x))
  | _ => None
  end.

(** The numerators [m] of the doubles [m / 2^53] of [0, 1) next to the
    fractions [j / n]: where the rounding of the product with [n] decides
    the position. *)
Definition boundary_draws (n : positive) : list positive :=
  flat_map
    (fun j =>
       flat_map
         (fun d =>
            let m := Z.of_nat j * 2 ^ 53 / Zpos n + d in
            if (0 <? m) && (m <? 2 ^ 53) then [Z.to_pos m] else [])
         [-3; -2; -1; 0; 1; 2; 3])
    (seq 0 (S (Pos.to_nat n))).

Module AILogic.
Section Initialised.

(** The module variable, after [init]. *)
Variable _winningConditions : list condition.

(** [getBestMove], with a bound on the depth of the calls of [minimax]. *)
Definition getBestMove_fuel (fuel : nat) (board : Board)
  (difficulty : string) (random : Q) : res (option Z) :=
  let availableMoves := findEmptySpots board in
  if len availableMoves =? 0 then Ok (Some (-1))
  else
    let opponentMarker := "X" in
    if String.eqb difficulty "hard"
    then
      r <- minimax_fuel fuel board aiMarker 0 _winningConditions ;;
      index_of r
    else
      let winningMove :=
        findStrategicMove board aiMarker _winningConditions in
      if negb (winningMove =? -1) then Ok (Some winningMove)
      else
        let blockingMove :=
          findStrategicMove board opponentMarker _winningConditions in
        if negb (blockingMove =? -1) && String.eqb difficulty "medium"
        then Ok (Some blockingMove)
        else if strict_eq (get board 4) "" && String.eqb difficulty "medium"
        then Ok (Some 4)
        else Ok (get availableMoves
                   (random_position random (len availableMoves))).

Definition getBestMove (board : Board) (difficulty : string) (random : Q)
  : res (option Z) :=
  getBestMove_fuel (S (S (List.length board))) board difficulty random.

End Initialised.
End AILogic.

(** ** [src/js/game/board.js] *)

Module GameBoard.

(** The private [board] after [reset]. *)
Definition reset : Board := [""; ""; ""; ""; ""; ""; ""; ""; ""].

(** [markCell], from the private [board] to the returned boolean and the
    [board] it leaves. *)
Definition markCell (board : Board) (index : Z) (playerMarker : string)
  : bool * Board :=
  if strict_eq (get board index) ""
  then (true, assign board index playerMarker)
  else (false, board).

End GameBoard.

(** ** [checkResult] of [src/js/game/logic.js] *)

Module GameController.

Definition winningConditions : list condition :=
  [(0, 1, 2); (3, 4, 5); (6, 7, 8);
   (0, 3, 6); (1, 4, 7); (2, 5, 8);
   (0, 4, 8); (2, 4, 6)].

(** The private state of the module, with the board of [GameBoard]. *)
Record state : Type := mkState {
  gameBoard : Board;
  currentPlayer : string;
  isGameActive : bool;
  currentDifficulty : string;
  currentMode : string
}.

(** The calls [checkResult] makes on its collaborators; [null] is
    [None]. *)
Inductive call : Type :=
  | recordGameResult (winner : option string) (mode difficulty : string)
  | showResult (message : string) (winner : option string)
      (line : option condition)
  | toggleBoardInteraction (enabled : bool)
  | deleteGameState
  | playLossSound
  | playWinSound
  | playDrawSound.

(** [x && x === y && x === z] on three cells: [undefined] and [""] are
    falsy. The winner is the first cell. *)
Definition three_alike (x y z : option string) : option string :=
  match x with
  | Some s =>
      if negb (String.eqb s "") && strict_eq y s && strict_eq z s
      then Some s
      else None
  | None => None
  end.

(** The loop of step 1, up to its [return]. *)
Fixpoint find_win (currentBoard : Board) (conditions : list condition)
  : option (string * condition) :=
  match conditions with
  | [] => None
  | (a, b, c) :: rest =>
      match three_alike (get currentBoard a) (get currentBoard b)
              (get currentBoard c) with
      | Some winner => Some (winner, (a, b, c))
      | None => find_win currentBoard rest
      end
  end.

(** [currentBoard.includes("")]. *)
Definition includes (arr : list string) (s : string) : bool :=
  existsb (fun x => String.eqb x s) arr.

Definition deactivate (st : state) : state :=
  mkState (gameBoard st) (currentPlayer st) false (currentDifficulty st)
    (currentMode st).

Definition checkResult (st : state) : bool * state * list call :=
  let currentBoard := gameBoard st in
  match find_win currentBoard winningConditions with
  | Some (winner, cond) =>
      (true, deactivate st,
       [recordGameResult (Some winner) (currentMode st)
          (currentDifficulty st);
        showResult ("Player " ++ winner ++ " WINS!")%string (Some winner)
          (Some cond);
        toggleBoardInteraction false;
        deleteGameState;
        if String.eqb (currentMode st) "pvai" && String.eqb winner "O"
        then playLossSound
        else playWinSound])
  | None =>
      if negb (includes currentBoard "")
      then
        (true, deactivate st,
         [recordGameResult None (currentMode st) (currentDifficulty st);
          showResult "It's a DRAW!" None None;
          toggleBoardInteraction false;
          deleteGameState;
          playDrawSound])
      else (false, st, [])
  end.

(** The draw test: [checkResult] takes its branch "2. Check for a Draw",
    the one that records a result without a winner. *)
Definition isDraw (st : state) : Prop :=
  In (recordGameResult None (currentMode st) (currentDifficulty st))
     (snd (checkResult st)).

End GameController.

(** ** The search over a store of array objects

    [minimax] receives a reference to the caller's array. Here the arrays
    live in a store, [[...newBoard]] allocates a new array with the
    contents the source array has at that moment, and [nextBoard[index] =
    player] writes into the store. *)

Definition address := nat.
Definition store := list Board.

(** The array behind a reference. A reference always has its array; the
    embedding gives a reference outside the store a [TypeError]. *)
Definition deref (h : store) (a : address) : res Board :=
  match nth_error h a with
  | Some cells => Ok cells
  | None => TypeError
  end.

Definition alloc (h : store) (cells : Board) : address * store :=
  (List.length h, h ++ [cells]).

Definition store_assign (h : store) (a : address) (i : Z) (v : string)
  : store :=
  match nth_error h a with
  | Some cells => assign_nat h a (assign cells i v)
  | None => h
  end.

Notation "' p <- c ;; k" := (bind c (fun x => match x with p => k end))
  (at level 61, p pattern, c at next level, right associativity).

Fixpoint for_each_store {A B : Type} (arr : list A)
  (body : A -> store -> res (B * store)) (h : store)
  : res (list B * store) :=
  match arr with
  | [] => Ok ([], h)
  | x :: rest =>
      '(y, h1) <- body x h ;;
      '(ys, h2) <- for_each_store rest body h1 ;;
      Ok (y :: ys, h2)
  end.

Fixpoint minimax_store (fuel : nat) (h : store) (newBoard : address)
  (player : string) (depth : Z) (winningConditions : list condition)
  {struct fuel} : res (option move * store) :=
  match fuel with
  | O => OutOfFuel
  | S fuel' =>
      cells <- deref h newBoard ;;
      if checkBoardWin cells humanMarker winningConditions
      then Ok (Some (mkMove None (scores "X" + depth)), h)
      else if checkBoardWin cells aiMarker winningConditions
      then Ok (Some (mkMove None (scores "O" - depth)), h)
      else if len (findEmptySpots cells) =? 0
      then Ok (Some (mkMove None (scores "draw")), h)
      else
        let availableSpots := findEmptySpots cells in
        '(moves, h') <- for_each_store availableSpots (fun index h0 =>
          source <- deref h0 newBoard ;;
          let '(nextBoard, h1) := alloc h0 source in
          let h2 := store_assign h1 nextBoard index player in
          '(r, h3) <- (if String.eqb player aiMarker
                       then minimax_store fuel' h2 nextBoard humanMarker
                              (depth + 1) winningConditions
                       else minimax_store fuel' h2 nextBoard aiMarker
                              (depth + 1) winningConditions) ;;
          s <- score_of r ;;
          Ok (mkMove (Some index) s, h3)) h ;;
        Ok (if String.eqb player aiMarker
            then select_max moves NegInfinity None
            else select_min moves Infinity None, h')
  end.

(** [getBestMove] on a reference to the caller's board. *)
Definition getBestMove_store (winningConditions : list condition)
  (h : store) (board : address) (difficulty : string) (random : Q)
  : res (option Z * store) :=
  cells <- deref h board ;;
  let availableMoves := findEmptySpots cells in
  if len availableMoves =? 0 then Ok (Some (-1), h)
  else
    let opponentMarker := "X" in
    if String.eqb difficulty "hard"
    then
      '(r, h') <- minimax_store (S (S (List.length cells))) h board
                    aiMarker 0 winningConditions ;;
      i <- index_of r ;;
      Ok (i, h')
    else
      let winningMove := findStrategicMove cells aiMarker winningConditions in
      if negb (winningMove =? -1) then Ok (Some winningMove, h)
      else
        let blockingMove :=
          findStrategicMove cells opponentMarker winningConditions in
        if negb (blockingMove =? -1) && String.eqb difficulty "medium"
        then Ok (Some blockingMove, h)
        else if strict_eq (get cells 4) "" && String.eqb difficulty "medium"
        then Ok (Some 4, h)
        else Ok (get availableMoves
                   (random_position random (len availableMoves)), h).

(** ** Notions of the specification *)

Section Game.

Variable lines : list condition.

(** A marker has a completed winning line. *)
Definition hasWon (b : Board) (marker : string) : Prop :=
  exists x y z, In (x, y, z) lines /\
    get b x = Some marker /\ get b y = Some marker /\ get b z = Some marker.

(** Cell [i] of the board exists and is empty. *)
Definition emptyCell (b : Board) (i : Z) : Prop := get b i = Some "".

(** The human, placing ["X"], can force a win from board [b] when it is
    the turn of [turn]: the human has won already, or the game is still
    open and the human to move has a move after which this holds again,
    or the AI to move has a move left and every one of them keeps it. *)
Inductive HumanForcesWin : Board -> string -> Prop :=
  | HumanForcesWin_won (b : Board) (turn : string) :
      hasWon b humanMarker -> HumanForcesWin b turn
  | HumanForcesWin_human (b : Board) (i : Z) :
      ~ hasWon b humanMarker -> ~ hasWon b aiMarker ->
      emptyCell b i ->
      HumanForcesWin (assign b i humanMarker) aiMarker ->
      HumanForcesWin b humanMarker
  | HumanForcesWin_ai (b : Board) :
      ~ hasWon b humanMarker -> ~ hasWon b aiMarker ->
      (exists i, emptyCell b i) ->
      (forall i, emptyCell b i ->
                 HumanForcesWin (assign b i aiMarker) humanMarker) ->
      HumanForcesWin b aiMarker.

(** The line test of [findTwoInARowGap], in the words of the
    specification: exactly one cell of the line is empty and the other
    two hold [marker]; the result is the index of the empty one. *)
Definition gap_of_line (b : Board) (marker : string) (cond : condition)
  : option Z :=
  let '(x, y, z) := cond in
  if strict_eq (get b x) "" && strict_eq (get b y) marker
     && strict_eq (get b z) marker then Some x
  else if strict_eq (get b x) marker && strict_eq (get b y) ""
     && strict_eq (get b z) marker then Some y
  else if strict_eq (get b x) marker && strict_eq (get b y) marker
     && strict_eq (get b z) "" then Some z
  else None.

(** [findTwoInARowGap]: the gap of the first line that has one, in the
    order of the lines. *)
Fixpoint findTwoInARowGap_in (b : Board) (marker : string)
  (conds : list condition) : option Z :=
  match conds with
  | [] => None
  | cond :: rest =>
      match gap_of_line b marker cond with
      | Some i => Some i
      | None => findTwoInARowGap_in b marker rest
      end
  end.

Definition findTwoInARowGap (b : Board) (marker : string) : option Z :=
  findTwoInARowGap_in b marker lines.

End Game.

(** [m] is the first candidate with the greatest (least) score: every
    candidate before it scores strictly less (more), none after it scores
    more (less). *)
Definition first_greatest (candidates : list move) (m : move) : Prop :=
  exists before after, candidates = before ++ m :: after /\
    (forall x, In x before -> score x < score m) /\
    (forall x, In x after -> score x <= score m).

Definition first_least (candidates : list move) (m : move) : Prop :=
  exists before after, candidates = before ++ m :: after /\
    (forall x, In x before -> score m < score x) /\
    (forall x, In x after -> score m <= score x).

(** The score the search gives the position that [player] reaches by
    marking cell [j]. *)
Definition childScore (lines : list condition) (b : Board) (player : string)
  (depth : Z) (j : Z) (sj : Z) : Prop :=
  exists r, minimax (assign b j player) (opponent player) (depth + 1) lines
            = Ok (Some r) /\ score r = sj.

(** The cells of a game: empty, or one of the two markers. *)
Definition wellFormed (b : Board) : Prop :=
  Forall (fun cell => cell = "" \/ cell = humanMarker \/ cell = aiMarker) b.

(** The positions in which the human is to move, in a game that starts on
    the empty board and in which the AI answers every move of the human
    with the move of the hard tier: [checkResult] found no winner and an
    empty cell before each of the two moves of a round. *)
Inductive HardPlay : Board -> Prop :=
  | HardPlay_start : HardPlay GameBoard.reset
  | HardPlay_round (b : Board) (i j : Z) (random : Q) :
      HardPlay b ->
      ~ hasWon GameController.winningConditions b humanMarker ->
      ~ hasWon GameController.winningConditions b aiMarker ->
      emptyCell b i ->
      ~ hasWon GameController.winningConditions (assign b i humanMarker)
          humanMarker ->
      ~ hasWon GameController.winningConditions (assign b i humanMarker)
          aiMarker ->
      (exists k, emptyCell (assign b i humanMarker) k) ->
      AILogic.getBestMove GameController.winningConditions
        (assign b i humanMarker) "hard" random = Ok (Some j) ->
      HardPlay (assign (assign b i humanMarker) j aiMarker).

(** ** Auxiliary notions of the proofs *)

(** The spots of the cells from position [start] on. *)
Definition spots_from (start : Z) (cells : Board) : list Z :=
  filter (fun i => negb (i =? -1))
    (mapi_from (fun val index => if String.eqb val "" then index else -1)
       start cells).

(** The candidate the loop of a node pushes for the empty spot [i]. *)
Definition candidate (lines : list condition) (fuel : nat) (b : Board)
  (player : string) (depth : Z) (i : Z) : res move :=
  r <- minimax_fuel fuel (assign b i player) (opponent player) (depth + 1)
         lines ;;
  s <- score_of r ;;
  Ok (mkMove (Some i) s).

(** The selection loop that the marker to move runs. *)
Definition select (player : string) (moves : list move) : option move :=
  if String.eqb player aiMarker
  then select_max moves NegInfinity None
  else select_min moves Infinity None.

(** A node of the search that is not a base case. *)
Definition openNode (lines : list condition) (b : Board) : Prop :=
  ~ hasWon lines b humanMarker /\ ~ hasWon lines b aiMarker /\
  findEmptySpots b <> [].

(** The body of the loop of a node, on the store. *)
Definition candidate_store (lines : list condition) (fuel : nat)
  (newBoard : address) (player : string) (depth : Z) (i : Z) (h0 : store)
  : res (move * store) :=
  source <- deref h0 newBoard ;;
  let '(nextBoard, h1) := alloc h0 source in
  let h2 := store_assign h1 nextBoard i player in
  '(r, h3) <- minimax_store fuel h2 nextBoard (opponent player)
                (depth + 1) lines ;;
  s <- score_of r ;;
  Ok (mkMove (Some i) s, h3).

(** ** The rest of the game flow

    The other functions of [src/js/game/logic.js], the statistics of
    [src/js/storage/stats.js] and what the flow needs of
    [src/js/ui/display.js]. *)

(** A line of three cells, no two the same. *)
Definition distinctLine (cond : condition) : Prop :=
  let '(x, y, z) := cond in x <> y /\ y <> z /\ x <> z.

(** ** The statistics of [src/js/storage/stats.js] *)

Module StatsManager.

Record counters : Type := mkCounters {
  wins : Z;
  losses : Z;
  draws : Z
}.

Record pvaiStats : Type := mkPvai {
  total : counters;
  easy : counters;
  medium : counters;
  hard : counters
}.

Record pvpStats : Type := mkPvp {
  X : counters;
  O : counters
}.

(** The object [stats]; a counter is the integer it holds, which [++]
    keeps exact below 2^53. *)
Record statistics : Type := mkStats {
  pvai : pvaiStats;
  pvp : pvpStats
}.

(** The [stats] the module starts with. *)
Definition stats0 : statistics :=
  mkStats
    (mkPvai (mkCounters 0 0 0) (mkCounters 0 0 0) (mkCounters 0 0 0)
       (mkCounters 0 0 0))
    (mkPvp (mkCounters 0 0 0) (mkCounters 0 0 0)).

(** The object [saveGameState] builds. *)
Record savedState : Type := mkSavedState {
  board : Board;
  currentPlayer : string;
  mode : string;
  difficulty : string
}.

(** The calls of [LocalStore] on the keys [STATS_KEY] and [STATE_KEY]. *)
Inductive storeCall : Type :=
  | save_STATS_KEY (stats : statistics)
  | save_STATE_KEY (state : savedState)
  | removeItem_STATE_KEY.

(** What [stats.pvai[difficulty]] finds: one of the four objects of
    [stats.pvai], a member of [Object.prototype], which is truthy, or
    nothing. *)
Inductive property : Type :=
  | own (bucket : counters)
  | inherited
  | absent.

Definition prototypeNames : list string :=
  ["constructor"; "__proto__"; "__defineGetter__"; "__defineSetter__";
   "__lookupGetter__"; "__lookupSetter__"; "hasOwnProperty";
   "isPrototypeOf"; "propertyIsEnumerable"; "toLocaleString"; "toString";
   "valueOf"].

Definition pvai_get (p : pvaiStats) (name : string) : property :=
  if String.eqb name "total" then own (total p)
  else if String.eqb name "easy" then own (easy p)
  else if String.eqb name "medium" then own (medium p)
  else if String.eqb name "hard" then own (hard p)
  else if existsb (String.eqb name) prototypeNames then inherited
  else absent.

Inductive result : Type := win | loss | draw.

(** The three [++] of a branch on [result]. *)
Definition count (r : result) (c : counters) : counters :=
  match r with
  | win => mkCounters (wins c + 1) (losses c) (draws c)
  | loss => mkCounters (wins c) (losses c + 1) (draws c)
  | draw => mkCounters (wins c) (losses c) (draws c + 1)
  end.

(** [difficultyBucket.wins++] and the like on the object
    [stats.pvai[difficulty]]: on a member of [Object.prototype] the
    increment lands on that member and not on [stats]. *)
Definition count_bucket (r : result) (p : pvaiStats) (name : string)
  : pvaiStats :=
  if String.eqb name "total"
  then mkPvai (count r (total p)) (easy p) (medium p) (hard p)
  else if String.eqb name "easy"
  then mkPvai (total p) (count r (easy p)) (medium p) (hard p)
  else if String.eqb name "medium"
  then mkPvai (total p) (easy p) (count r (medium p)) (hard p)
  else if String.eqb name "hard"
  then mkPvai (total p) (easy p) (medium p) (count r (hard p))
  else p.

(** [recordGameResult]: the statistics after the call, and the call of
    [LocalStore.save] it ends with. *)
Definition recordGameResult (winnerMarker : option string)
  (mode difficulty : string) (stats : statistics)
  : statistics * storeCall :=
  let stats1 :=
    if String.eqb mode "pvai"
    then
      let result :=
        if strict_eq winnerMarker "X" then win
        else if strict_eq winnerMarker "O" then loss
        else draw in
      let p1 := count_bucket result (pvai stats) difficulty in
      mkStats
        (mkPvai (count result (total p1)) (easy p1) (medium p1) (hard p1))
        (pvp stats)
    else if String.eqb mode "pvp"
    then
      if strict_eq winnerMarker "X"
      then mkStats (pvai stats)
             (mkPvp (count win (X (pvp stats))) (count loss (O (pvp stats))))
      else if strict_eq winnerMarker "O"
      then mkStats (pvai stats)
             (mkPvp (count loss (X (pvp stats))) (count win (O (pvp stats))))
      else mkStats (pvai stats)
             (mkPvp (count draw (X (pvp stats))) (count draw (O (pvp stats))))
    else stats in
  (stats1, save_STATS_KEY stats1).

Definition saveGameState (board : Board) (player mode difficulty : string)
  : storeCall :=
  save_STATE_KEY (mkSavedState board player mode difficulty).

Definition deleteGameState : storeCall := removeItem_STATE_KEY.

(** [loadStats], with what [LocalStore.load(STATS_KEY, defaultStats)]
    finds: an object [recordGameResult] saved, or nothing that parses, and
    then the copy of [stats] is the value. *)
Definition loadStats (found : option statistics) (stats : statistics)
  : statistics :=
  let defaultStats := stats in
  let loadedStats :=
    match found with
    | Some parsed => parsed
    | None => defaultStats
    end in
  let p := pvai loadedStats in
  let combinedWins := 0 + (wins (easy p) + wins (medium p) + wins (hard p)) in
  let combinedLosses :=
    0 + (losses (easy p) + losses (medium p) + losses (hard p)) in
  let combinedDraws :=
    0 + (draws (easy p) + draws (medium p) + draws (hard p)) in
  mkStats
    (mkPvai (mkCounters combinedWins combinedLosses combinedDraws)
       (easy p) (medium p) (hard p))
    (pvp loadedStats).

(** The text of an element of the panel: what the markup of the page put
    there, a counter, or the property [field] of the member of
    [Object.prototype] that [stats.pvai[name]] is. *)
Inductive content : Type :=
  | markup
  | digits (n : Z)
  | foreign (name field : string).

(** The panel once [initDom] ran: the two elements [stats-pvai] and
    [stats-pvp] with their class [hidden], and the six of [statElements]
    with their text; [None] where the page has no such element. *)
Record panel : Type := mkPanel {
  pvaiDisplay : option bool;
  pvpDisplay : option bool;
  pvai_wins : option content;
  pvai_losses : option content;
  pvai_draws : option content;
  pvp_xWins : option content;
  pvp_oWins : option content;
  pvp_draws : option content
}.

(** [element?.classList.add('hidden')] and [remove]. *)
Definition set_hidden (element : option bool) (hidden : bool)
  : option bool :=
  match element with
  | Some _ => Some hidden
  | None => None
  end.

(** [if (element) element.textContent = text]. *)
Definition set_text (element : option content) (text : content)
  : option content :=
  match element with
  | Some _ => Some text
  | None => None
  end.

(** [updateStatsUI]: the panel when the call ends, and how it ends. In the
    branch of "pvp" the second assignment goes through
    [statElements.pvp.O], which is [undefined]. *)
Definition updateStatsUI (stats : statistics) (ui : panel)
  (mode difficulty : string) : panel * res unit :=
  if String.eqb mode "pvai"
  then
    let shown (field : string) (counter : counters -> Z) : content :=
      match pvai_get (pvai stats) difficulty with
      | own bucket => digits (counter bucket)
      | inherited => foreign difficulty field
      | absent => digits (counter (total (pvai stats)))
      end in
    (mkPanel (set_hidden (pvaiDisplay ui) false)
       (set_hidden (pvpDisplay ui) true)
       (set_text (pvai_wins ui) (shown "wins" wins))
       (set_text (pvai_losses ui) (shown "losses" losses))
       (set_text (pvai_draws ui) (shown "draws" draws))
       (pvp_xWins ui) (pvp_oWins ui) (pvp_draws ui),
     Ok tt)
  else
    let xWins := set_text (pvp_xWins ui) (digits (wins (X (pvp stats)))) in
    match pvp_oWins ui with
    | Some _ =>
        (mkPanel (set_hidden (pvaiDisplay ui) true)
           (set_hidden (pvpDisplay ui) false)
           (pvai_wins ui) (pvai_losses ui) (pvai_draws ui)
           xWins (pvp_oWins ui) (pvp_draws ui),
         TypeError)
    | None =>
        (mkPanel (set_hidden (pvaiDisplay ui) true)
           (set_hidden (pvpDisplay ui) false)
           (pvai_wins ui) (pvai_losses ui) (pvai_draws ui)
           xWins (pvp_oWins ui)
           (set_text (pvp_draws ui) (digits (draws (X (pvp stats))))),
         Ok tt)
    end.

End StatsManager.

(** ** The turn flow of [src/js/game/logic.js] *)

Module Logic.

(** What the handlers do to their collaborators, in the order of the
    calls: the calls of [checkResult], and those of the other functions
    of the module. [setTimeout(performAIMove, delay)] is one of them. The
    calls into the page and the sounds are taken to return, on a page that
    has the elements [DisplayController] looks up; how
    [StatsManager.updateStatsUI] ends is read off its model, and
    [uncaught_TypeError] closes the effects of a handler it makes fail. *)
Inductive effect : Type :=
  | collaborator (c : GameController.call)
  | render (b : Board)
  | playMoveSound
  | playAISound
  | updateMessage (message player : string)
  | updatePlayerIndicator (player mode : string)
  | saveGameStateCall (b : Board) (player mode difficulty : string)
  | setTimeout_performAIMove (delay : Z)
  | resetUI
  | setModeState (mode difficulty : string)
  | updateStatsUI (mode difficulty : string)
  | loadStats
  | AILogic_init (winningConditions : list condition)
  | showResumePrompt (data : StatsManager.savedState)
  | uncaught_TypeError.

(** What the module reads of the page: the value of the checked radio of
    each of the two groups, if one is checked, and the panel of the
    statistics. *)
Record document : Type := mkDocument {
  checkedMode : option string;
  checkedDifficulty : option string;
  statsPanel : StatsManager.panel
}.

(** [Array.from(rs).find(r => r.checked)?.value || current]. *)
Definition checked_or (checked : option string) (current : string) : string :=
  match checked with
  | Some value => if String.eqb value "" then current else value
  | None => current
  end.

Record settings : Type := mkSettings {
  mode : string;
  difficulty : string;
  currentPlayer : string
}.

Definition getCurrentSettings (dom : document) (st : GameController.state)
  : settings :=
  mkSettings
    (checked_or (checkedMode dom) (GameController.currentMode st))
    (checked_or (checkedDifficulty dom) (GameController.currentDifficulty st))
    (GameController.currentPlayer st).

(** [saveGameState]. *)
Definition saveGameState (st : GameController.state) : list effect :=
  if GameController.isGameActive st
  then [saveGameStateCall (GameController.gameBoard st)
          (GameController.currentPlayer st) (GameController.currentMode st)
          (GameController.currentDifficulty st)]
  else [].

Definition switchPlayer (st : GameController.state)
  : GameController.state * list effect :=
  let currentPlayer :=
    if String.eqb (GameController.currentPlayer st) "X" then "O" else "X" in
  let st1 :=
    GameController.mkState (GameController.gameBoard st) currentPlayer
      (GameController.isGameActive st) (GameController.currentDifficulty st)
      (GameController.currentMode st) in
  (st1,
   [updateMessage ("Player " ++ currentPlayer ++ "'s turn")%string
      currentPlayer;
    updatePlayerIndicator currentPlayer (GameController.currentMode st1)]
   ++ saveGameState st1
   ++ (if String.eqb (GameController.currentMode st1) "pvai"
          && String.eqb currentPlayer "O"
          && GameController.isGameActive st1
       then [collaborator (GameController.toggleBoardInteraction false);
             playAISound;
             setTimeout_performAIMove 700]
       else if String.eqb (GameController.currentMode st1) "pvai"
               && String.eqb currentPlayer "X"
               && GameController.isGameActive st1
       then [collaborator (GameController.toggleBoardInteraction true)]
       else [])).

(** [GameBoard.markCell(index, ...)] for an index that may be no number
    ([undefined] from the hard tier, [NaN] from [parseInt]): no cell is
    read at such an index. *)
Definition markCell_at (board : Board) (index : option Z)
  (playerMarker : string) : bool * Board :=
  match index with
  | Some i => GameBoard.markCell board i playerMarker
  | None => (false, board)
  end.

Definition handlePlayerMove (st : GameController.state) (index : option Z)
  : GameController.state * list effect :=
  if negb (GameController.isGameActive st) then (st, [])
  else
    let '(marked, board) :=
      markCell_at (GameController.gameBoard st) index
        (GameController.currentPlayer st) in
    if marked
    then
      let st1 :=
        GameController.mkState board (GameController.currentPlayer st)
          (GameController.isGameActive st)
          (GameController.currentDifficulty st)
          (GameController.currentMode st) in
      let '(over, st2, calls) := GameController.checkResult st1 in
      if negb over
      then
        let '(st3, effects) := switchPlayer st2 in
        (st3, [render board; playMoveSound] ++ map collaborator calls
              ++ effects)
      else (st2, [render board; playMoveSound] ++ map collaborator calls)
    else (st, []).

(** [performAIMove], with the value [Math.random()] returns should
    [getBestMove] ask for one. *)
Definition performAIMove (st : GameController.state) (random : Q)
  : res (GameController.state * list effect) :=
  let board := GameController.gameBoard st in
  moveIndex <- AILogic.getBestMove GameController.winningConditions board
                 (GameController.currentDifficulty st) random ;;
  match moveIndex with
  | Some (-1) => Ok (st, [])
  | _ => Ok (handlePlayerMove st moveIndex)
  end.

Definition startGame (dom : document) (stats : StatsManager.statistics)
  (loadMode : bool) (st : GameController.state)
  : GameController.state * list effect :=
  let settings := getCurrentSettings dom st in
  let board := if negb loadMode then GameBoard.reset
               else GameController.gameBoard st in
  let st1 :=
    GameController.mkState board "X" true (difficulty settings)
      (mode settings) in
  let called :=
    (if negb loadMode
     then [collaborator GameController.deleteGameState] else [])
    ++ [resetUI;
        render board;
        updateMessage ("Player " ++ GameController.currentPlayer st1
                       ++ "'s turn")%string (GameController.currentPlayer st1);
        updatePlayerIndicator (GameController.currentPlayer st1)
          (GameController.currentMode st1);
        setModeState (GameController.currentMode st1)
          (GameController.currentDifficulty st1);
        updateStatsUI (GameController.currentMode st1)
          (GameController.currentDifficulty st1)] in
  match snd (StatsManager.updateStatsUI stats (statsPanel dom)
               (GameController.currentMode st1)
               (GameController.currentDifficulty st1)) with
  | Ok _ =>
      (st1,
       called
       ++ [collaborator (GameController.toggleBoardInteraction true)]
       ++ (if String.eqb (GameController.currentMode st1) "pvai"
              && String.eqb (GameController.currentPlayer st1) "O"
           then [collaborator (GameController.toggleBoardInteraction false);
                 playAISound;
                 setTimeout_performAIMove 700]
           else []))
  | _ => (st1, called ++ [uncaught_TypeError])
  end.

Definition resumeGame (dom : document) (stats : StatsManager.statistics)
  (data : StatsManager.savedState) : GameController.state * list effect :=
  let st1 :=
    GameController.mkState (StatsManager.board data)
      (StatsManager.currentPlayer data) true (StatsManager.difficulty data)
      (StatsManager.mode data) in
  let called :=
    [resetUI;
     render (GameController.gameBoard st1);
     updateMessage ("Player " ++ GameController.currentPlayer st1
                    ++ "'s turn")%string (GameController.currentPlayer st1);
     updatePlayerIndicator (GameController.currentPlayer st1)
       (GameController.currentMode st1);
     setModeState (GameController.currentMode st1)
       (GameController.currentDifficulty st1);
     updateStatsUI (GameController.currentMode st1)
       (GameController.currentDifficulty st1)] in
  match snd (StatsManager.updateStatsUI stats (statsPanel dom)
               (GameController.currentMode st1)
               (GameController.currentDifficulty st1)) with
  | Ok _ =>
      (st1,
       called
       ++ [collaborator (GameController.toggleBoardInteraction true)]
       ++ (if String.eqb (GameController.currentMode st1) "pvai"
              && String.eqb (GameController.currentPlayer st1) "O"
           then [collaborator (GameController.toggleBoardInteraction false);
                 playAISound;
                 setTimeout_performAIMove 700]
           else []))
  | _ => (st1, called ++ [uncaught_TypeError])
  end.

(** [loadGameState], with what [LocalStore.load] finds under [STATS_KEY]
    and under [STATE_KEY]; the prompt ends with [updateStatsUI]. *)
Definition loadGameState (dom : document) (stats : StatsManager.statistics)
  (foundStats : option StatsManager.statistics)
  (loadedState : option StatsManager.savedState)
  (st : GameController.state) : GameController.state * list effect :=
  let stats1 := StatsManager.loadStats foundStats stats in
  let called := [loadStats; AILogic_init GameController.winningConditions] in
  match loadedState with
  | Some data =>
      if existsb (fun cell => negb (String.eqb cell ""))
           (StatsManager.board data)
      then
        (st,
         called ++ [showResumePrompt data]
         ++ match snd (StatsManager.updateStatsUI stats1 (statsPanel dom)
                         (StatsManager.mode data)
                         (StatsManager.difficulty data)) with
            | Ok _ => []
            | _ => [uncaught_TypeError]
            end)
      else
        let '(st1, effects) := startGame dom stats1 false st in
        (st1, called ++ effects)
  | None =>
      let '(st1, effects) := startGame dom stats1 false st in
      (st1, called ++ effects)
  end.

End Logic.

(** ** The page around the game

    What the game flow needs of [src/js/ui/display.js] and of the event
    loop: the class [board-inactive] of the board element, which
    [toggleBoardInteraction] and [resetUI] set, and the calls of
    [performAIMove] that [setTimeout] has scheduled and that have not run
    yet, which nothing cancels. The class is taken to keep clicks from the cells, as the comment
    of [toggleBoardInteraction] says it does; the style sheet is not part
    of the sources. *)

Module Page.

(** [DisplayController.toggleBoardInteraction(isActive)] on the class. *)
Definition toggleBoardInteraction (isActive : bool) (boardInactive : bool)
  : bool :=
  if isActive then false else true.

Record page : Type := mkPage {
  ctrl : GameController.state;
  boardInactive : bool;
  pendingAIMoves : nat;
  trace : list Logic.effect
}.

(** The class after an effect. *)
Definition class_after (boardInactive : bool) (e : Logic.effect) : bool :=
  match e with
  | Logic.collaborator (GameController.toggleBoardInteraction isActive) =>
      toggleBoardInteraction isActive boardInactive
  | Logic.resetUI => false
  | _ => boardInactive
  end.

Definition scheduled (e : Logic.effect) : nat :=
  match e with
  | Logic.setTimeout_performAIMove _ => 1
  | _ => 0
  end.

(** The page after a handler ran to completion. *)
Definition after (p : page) (r : GameController.state * list Logic.effect)
  : page :=
  mkPage (fst r)
    (fold_left class_after (snd r) (boardInactive p))
    (pendingAIMoves p + list_sum (map scheduled (snd r)))
    (trace p ++ snd r).

(** The calls of [performAIMove] that a game has scheduled and that have
    not run: one while it is the turn of O in an active game against the
    AI. *)
Definition dueAIMoves (st : GameController.state) : nat :=
  if String.eqb (GameController.currentMode st) "pvai"
     && String.eqb (GameController.currentPlayer st) "O"
     && GameController.isGameActive st
  then 1 else 0.

(** The pages of one game. It starts with [startGame(false)], in whatever
    state the controller and the class are, and with [pending0] calls of
    [performAIMove] still pending from before: [startGame] cancels none.
    Then a click on a cell calls [handlePlayerMove] with the index
    [parseInt] read, as long as the board is not inactive, and a pending
    call of [performAIMove] runs, whichever it is and whoever is to move,
    with what [Math.random()] returns. *)
Inductive Game (dom : Logic.document) (pending0 : nat) : page -> Prop :=
  | Game_start (stats : StatsManager.statistics)
      (st0 : GameController.state) (inactive0 : bool) :
      Game dom pending0
        (after (mkPage st0 inactive0 pending0 [])
           (Logic.startGame dom stats false st0))
  | Game_click (p : page) (index : option Z) :
      Game dom pending0 p -> boardInactive p = false ->
      Game dom pending0 (after p (Logic.handlePlayerMove (ctrl p) index))
  | Game_timer (p : page) (random : Q)
      (r : GameController.state * list Logic.effect) :
      Game dom pending0 p -> (0 < pendingAIMoves p)%nat ->
      (0 <= random)%Q -> (random < 1)%Q ->
      Logic.performAIMove (ctrl p) random = Ok r ->
      Game dom pending0
        (after (mkPage (ctrl p) (boardInactive p)
                  (pendingAIMoves p - 1) (trace p)) r).

End Page.

(** The marker [switchPlayer] passes the turn to. *)
Definition otherPlayer (player : string) : string :=
  if String.eqb player "X" then "O" else "X".

(** The calls of [StatsManager.recordGameResult] among the effects. *)
Definition resultsRecorded (effects : list Logic.effect)
  : list Logic.effect :=
  filter (fun e =>
            match e with
            | Logic.collaborator (GameController.recordGameResult _ _ _) =>
                true
            | _ => false
            end) effects.


(** What the calls of [StatsManager.saveGameState] and [deleteGameState]
    among the effects have [LocalStore] leave under [STATE_KEY], where
    [saved] was. *)
Definition savedGame_from (saved : option StatsManager.savedState)
  (effects : list Logic.effect) : option StatsManager.savedState :=
  fold_left
    (fun saved e =>
       match e with
       | Logic.saveGameStateCall b player mode difficulty =>
           match StatsManager.saveGameState b player mode difficulty with
           | StatsManager.save_STATE_KEY state => Some state
           | _ => saved
           end
       | Logic.collaborator GameController.deleteGameState =>
           match StatsManager.deleteGameState with
           | StatsManager.removeItem_STATE_KEY => None
           | _ => saved
           end
       | _ => saved
       end) effects saved.

(** The number of cells that hold [marker]. *)
Definition countMarker (marker : string) (b : Board) : nat :=
  List.length (filter (String.eqb marker) b).

(** What holds of every page of a game that started with [pending0] calls
    of [performAIMove] pending: the board has nine cells, each empty or a
    marker; the markers alternate, X first; while the game is active nobody
    has a line and a cell is empty; in "pvai" the board is inactive exactly
    while it is the turn of O or the game is over, and otherwise once the
    game is over; the pending calls are the one the game has scheduled, if
    any, and no more than [pending0] others; one result is recorded, when
    the game is over. *)
Definition pageInvariant (pending0 : nat) (p : Page.page) : Prop :=
  let st := Page.ctrl p in
  let b := GameController.gameBoard st in
  List.length b = 9%nat /\ wellFormed b /\
  (GameController.currentPlayer st = "X" \/
   GameController.currentPlayer st = "O") /\
  (countMarker "O" b <= countMarker "X" b <= countMarker "O" b + 1)%nat /\
  (GameController.isGameActive st = true ->
   ~ hasWon GameController.winningConditions b humanMarker /\
   ~ hasWon GameController.winningConditions b aiMarker /\
   (exists k, emptyCell b k) /\
   countMarker "X" b =
   (countMarker "O" b +
    (if String.eqb (GameController.currentPlayer st) "O" then 1 else 0))%nat)
  /\
  ((if String.eqb (GameController.currentMode st) "pvai"
    then
      if GameController.isGameActive st
      then
        if String.eqb (GameController.currentPlayer st) "X"
        then Page.boardInactive p = false
        else Page.boardInactive p = true
      else Page.boardInactive p = true
    else Page.boardInactive p = negb (GameController.isGameActive st)) /\
   (Page.dueAIMoves st <= Page.pendingAIMoves p
    <= pending0 + Page.dueAIMoves st)%nat) /\
  List.length (resultsRecorded (Page.trace p)) =
  (if GameController.isGameActive st then 0 else 1)%nat.

(** What holds besides of every page of a game on "pvai" and "hard": the
    human has not been recorded as the winner, and the board is a position
    of [HardPlay] when the human is to move, and such a position with one
    more X when the AI is. *)
Definition hardInvariant (st : GameController.state)
  (tr : list Logic.effect) : Prop :=
  let b := GameController.gameBoard st in
  GameController.currentMode st = "pvai" /\
  GameController.currentDifficulty st = "hard" /\
  (forall mode difficulty,
      ~ In (Logic.collaborator
              (GameController.recordGameResult (Some "X") mode difficulty))
           tr) /\
  (GameController.isGameActive st = true ->
   (GameController.currentPlayer st = "X" -> HardPlay b) /\
   (GameController.currentPlayer st = "O" ->
    exists b0 i,
      HardPlay b0 /\
      ~ hasWon GameController.winningConditions b0 humanMarker /\
      ~ hasWon GameController.winningConditions b0 aiMarker /\
      emptyCell b0 i /\ b = assign b0 i "X")).

(** What the trace tells of the state: the game state under [STATE_KEY] is
    the position of the game while it goes on, one move made at least, and
    there is none otherwise; the one result recorded is that of the final
    board, for the player who moved last or for nobody. *)
Definition outcomeInvariant (st : GameController.state)
  (tr : list Logic.effect) : Prop :=
  let b := GameController.gameBoard st in
  (forall saved,
      match savedGame_from saved tr with
      | Some data =>
          GameController.isGameActive st = true /\
          data = StatsManager.mkSavedState b (GameController.currentPlayer st)
                   (GameController.currentMode st)
                   (GameController.currentDifficulty st) /\
          exists k s, get b k = Some s /\ s <> ""
      | None => GameController.isGameActive st = false \/ b = GameBoard.reset
      end) /\
  (GameController.isGameActive st = false ->
   exists winner,
     resultsRecorded tr =
     [Logic.collaborator
        (GameController.recordGameResult winner
           (GameController.currentMode st)
           (GameController.currentDifficulty st))] /\
     match winner with
     | Some w =>
         w = GameController.currentPlayer st /\
         hasWon GameController.winningConditions b w /\
         ~ hasWon GameController.winningConditions b (otherPlayer w)
     | None =>
         ~ hasWon GameController.winningConditions b humanMarker /\
         ~ hasWon GameController.winningConditions b aiMarker /\
         forall k, ~ emptyCell b k
     end).





(** ** A page to run the game on

    The state [logic.js] and [board.js] start with, a page that has every
    element of the panel, and the first pages of a game on it. *)

Definition initialState : GameController.state :=
  GameController.mkState GameBoard.reset "X" true "medium" "pvai".

Definition fullPanel : StatsManager.panel :=
  StatsManager.mkPanel (Some false) (Some true)
    (Some StatsManager.markup) (Some StatsManager.markup)
    (Some StatsManager.markup) (Some StatsManager.markup)
    (Some StatsManager.markup) (Some StatsManager.markup).

Definition pageOf (mode difficulty : string) : Logic.document :=
  Logic.mkDocument (Some mode) (Some difficulty) fullPanel.

Definition openingPage (dom : Logic.document) : Page.page :=
  Page.after (Page.mkPage initialState false 0 [])
    (Logic.startGame dom StatsManager.stats0 false initialState).

Definition centrePage (dom : Logic.document) : Page.page :=
  Page.after (openingPage dom)
    (Logic.handlePlayerMove (Page.ctrl (openingPage dom)) (Some 4)).

(** The first pages of a game that starts while a call of [performAIMove]
    is pending, as after a click on the reset button during the turn of
    the AI. *)
Definition restartedPage (dom : Logic.document) : Page.page :=
  Page.after (Page.mkPage initialState true 1 [])
    (Logic.startGame dom StatsManager.stats0 false initialState).

Definition restartedCentrePage (dom : Logic.document) : Page.page :=
  Page.after (restartedPage dom)
    (Logic.handlePlayerMove (Page.ctrl (restartedPage dom)) (Some 4)).

(** ** The preferences: [LocalStore], [theme.js] and [sound.js]

    [LocalStore] of [src/js/storage/stats.js] over the items of
    [localStorage], and the two preferences that are kept as plain
    strings. What [JSON] and [String] make of a value that is not a string
    is left to the browser. *)

Module LocalStore.

Definition STATS_KEY : string := "tictactoe_stats_pro".
Definition STATE_KEY : string := "tictactoe_state_pro".
Definition THEME_KEY : string := "tictactoe_theme_pro".
Definition MUTE_KEY : string := "tictactoe_mute_pro".

Definition simpleValueKeys : list string := [THEME_KEY; MUTE_KEY].

(** The items of [localStorage], by key. *)
Definition localStorage : Type := list (string * string).

Fixpoint getItem (items : localStorage) (key : string) : option string :=
  match items with
  | [] => None
  | (k, v) :: rest => if String.eqb k key then Some v else getItem rest key
  end.

Definition removeItem (items : localStorage) (key : string) : localStorage :=
  filter (fun item => negb (String.eqb (fst item) key)) items.

(** [localStorage.setItem(key, value)], which raises when the quota is
    exceeded: [room] tells whether it is not. *)
Definition setItem (room : bool) (items : localStorage) (key v : string)
  : option localStorage :=
  if room then Some ((key, v) :: removeItem items key) else None.

Section Browser.

(** The values of JavaScript that are no strings. *)
Variable object : Type.

Inductive value : Type :=
  | text (s : string)
  | other (o : object).

(** [JSON.parse], [None] when it raises; [JSON.stringify] and [String]
    with the string [setItem] stores, [None] when they raise. *)
Variable JSON_parse : string -> option value.
Variable JSON_stringify : value -> option string.
Variable String_other : object -> option string.

Definition String_of (data : value) : option string :=
  match data with
  | text s => Some s
  | other o => String_other o
  end.

(** [data === s] for a string [s]. *)
Definition is_string (data : value) (s : string) : bool :=
  match data with
  | text t => String.eqb t s
  | other _ => false
  end.

Definition load (items : localStorage) (key : string) (defaultData : value)
  : value :=
  match getItem items key with
  | None => defaultData
  | Some data =>
      if String.eqb data "" then defaultData
      else if existsb (String.eqb key) simpleValueKeys then text data
      else
        match JSON_parse data with
        | Some parsed => parsed
        | None => defaultData
        end
  end.

(** [save] returns whatever is raised inside: the items are then what
    they were. *)
Definition save (room : bool) (items : localStorage) (key : string)
  (data : value) : localStorage :=
  let dataToStore :=
    if existsb (String.eqb key) simpleValueKeys then String_of data
    else JSON_stringify data in
  match dataToStore with
  | Some s =>
      match setItem room items key s with
      | Some items' => items'
      | None => items
      end
  | None => items
  end.

End Browser.

Arguments text {object} s.
Arguments other {object} o.

End LocalStore.

(** *** [ThemeController] of [src/js/ui/theme.js]

    The class [light-theme] of the body and the icon of the button
    [theme-toggle], on a page that has the button. *)

Module ThemeController.

Inductive icon : Type := moon | sun.

Record theme : Type := mkTheme {
  lightTheme : bool;
  themeToggle : icon
}.

Section Browser.

Variable object : Type.
Variable JSON_parse : string -> option (LocalStore.value object).
Variable JSON_stringify : LocalStore.value object -> option string.
Variable String_other : object -> option string.

Definition toggleTheme (room : bool) (page : theme)
  (items : LocalStore.localStorage) : theme * LocalStore.localStorage :=
  let isLight := negb (lightTheme page) in
  (mkTheme isLight (if isLight then moon else sun),
   LocalStore.save object JSON_stringify String_other room items
     LocalStore.THEME_KEY
     (LocalStore.text (if isLight then "light" else "dark"))).

Definition loadTheme (items : LocalStore.localStorage) (page : theme)
  : theme :=
  let savedTheme :=
    LocalStore.load object JSON_parse items LocalStore.THEME_KEY
      (LocalStore.text "dark") in
  if LocalStore.is_string object savedTheme "light"
  then mkTheme true moon
  else mkTheme false sun.

End Browser.

End ThemeController.

(** *** [SoundController] of [src/js/ui/sound.js]

    [isMuted] and the icon of the button [mute-toggle], on a page that has
    the button. *)

Module SoundController.

Inductive icon : Type := speakerOff | speakerOn.

Record sound : Type := mkSound {
  isMuted : bool;
  muteToggle : icon
}.

Section Browser.

Variable object : Type.
Variable JSON_parse : string -> option (LocalStore.value object).
Variable JSON_stringify : LocalStore.value object -> option string.
Variable String_other : object -> option string.

(** The [isMuted] the module starts with. *)
Definition isMuted0 (items : LocalStore.localStorage) : bool :=
  LocalStore.is_string object
    (LocalStore.load object JSON_parse items LocalStore.MUTE_KEY
       (LocalStore.text "false")) "true".

Definition toggleMute (room : bool) (page : sound)
  (items : LocalStore.localStorage) : sound * LocalStore.localStorage :=
  let isMuted := negb (isMuted page) in
  (mkSound isMuted (if isMuted then speakerOff else speakerOn),
   LocalStore.save object JSON_stringify String_other room items
     LocalStore.MUTE_KEY
     (LocalStore.text (if isMuted then "true" else "false"))).

End Browser.

Definition loadMuteSetting (page : sound) : sound :=
  mkSound (isMuted page)
    (if isMuted page then speakerOff else speakerOn).

(** [playSound(audioElement)]: whether the element is played. *)
Definition playSound (page : sound) (audioElement : bool) : bool :=
  negb (isMuted page) && audioElement.

End SoundController.

(** * Properties *)

(** ** Arrays *)

Lemma get_range {A : Type} (arr : list A) (i : Z) (x : A) :
  get arr i = Some x -> 0 <= i < len arr.
Proof.
  unfold get, len. destruct (Z.ltb_spec i 0) as [Hneg | Hpos]; [discriminate |].
  intros Hnth.
  assert (Hlt : (Z.to_nat i < List.length arr)%nat).
  { apply nth_error_Some. rewrite Hnth. discriminate. }
  lia.
Qed.

Lemma get_of_nat {A : Type} (arr : list A) (n : nat) :
  get arr (Z.of_nat n) = nth_error arr n.
Proof.
  unfold get. destruct (Z.ltb_spec (Z.of_nat n) 0); [lia |].
  now rewrite Nat2Z.id.
Qed.

Lemma get_cons_succ {A : Type} (x : A) (arr : list A) (i : Z) :
  0 <= i -> get (x :: arr) (i + 1) = get arr i.
Proof.
  intros Hi. unfold get.
  destruct (Z.ltb_spec (i + 1) 0); [lia |].
  destruct (Z.ltb_spec i 0); [lia |].
  replace (Z.to_nat (i + 1)) with (S (Z.to_nat i)) by lia. reflexivity.
Qed.

Lemma length_assign_nat {A : Type} (arr : list A) (n : nat) (v : A) :
  List.length (assign_nat arr n v) = List.length arr.
Proof.
  revert n. induction arr as [| x rest IH]; intros [| n]; simpl; auto.
Qed.

Lemma length_assign {A : Type} (arr : list A) (i : Z) (v : A) :
  List.length (assign arr i v) = List.length arr.
Proof.
  unfold assign. destruct (i <? 0); [reflexivity | apply length_assign_nat].
Qed.

Lemma nth_error_assign_nat_same {A : Type} (arr : list A) (n : nat) (v : A) :
  (n < List.length arr)%nat -> nth_error (assign_nat arr n v) n = Some v.
Proof.
  revert n. induction arr as [| x rest IH]; intros [| n] Hn; simpl in *;
    try lia; auto.
  apply IH. lia.
Qed.

Lemma nth_error_assign_nat_other {A : Type} (arr : list A) (n k : nat)
  (v : A) :
  n <> k -> nth_error (assign_nat arr n v) k = nth_error arr k.
Proof.
  revert n k. induction arr as [| x rest IH]; intros [| n] [| k] Hnk;
    simpl; auto; try congruence.
Qed.

Lemma get_assign_same {A : Type} (arr : list A) (i : Z) (x v : A) :
  get arr i = Some x -> get (assign arr i v) i = Some v.
Proof.
  intros Hget. pose proof (get_range _ _ _ Hget) as Hr.
  unfold get, assign, len in *.
  destruct (Z.ltb_spec i 0); [lia |].
  apply nth_error_assign_nat_same. lia.
Qed.

Lemma get_assign_other {A : Type} (arr : list A) (i j : Z) (v : A) :
  i <> j -> get (assign arr i v) j = get arr j.
Proof.
  intros Hij. unfold get, assign.
  destruct (Z.ltb_spec j 0); [reflexivity |].
  destruct (Z.ltb_spec i 0); [reflexivity |].
  apply nth_error_assign_nat_other. lia.
Qed.

Lemma assign_nat_same {A : Type} (arr : list A) (n : nat) (v : A) :
  nth_error arr n = Some v -> assign_nat arr n v = arr.
Proof.
  revert n. induction arr as [| x rest IH]; intros [| n] Hn; simpl in *;
    try discriminate.
  - now injection Hn as ->.
  - now rewrite IH.
Qed.

(** Writing the value a cell holds changes nothing. *)
Lemma assign_same {A : Type} (arr : list A) (i : Z) (v : A) :
  get arr i = Some v -> assign arr i v = arr.
Proof.
  unfold get, assign. destruct (i <? 0); [discriminate |].
  apply assign_nat_same.
Qed.

Lemma strict_eq_true (v : option string) (s : string) :
  strict_eq v s = true <-> v = Some s.
Proof.
  destruct v as [x |]; simpl.
  - rewrite String.eqb_eq. split; congruence.
  - split; discriminate.
Qed.

(** ** The empty spots *)

Lemma spots_from_cons (start : Z) (val : string) (rest : Board) :
  0 <= start ->
  spots_from start (val :: rest) =
  if String.eqb val "" then start :: spots_from (start + 1) rest
  else spots_from (start + 1) rest.
Proof.
  intros Hs. unfold spots_from. simpl.
  destruct (String.eqb val ""); simpl.
  - destruct (Z.eqb_spec start (-1)); [lia | reflexivity].
  - reflexivity.
Qed.

Lemma findEmptySpots_spots (b : Board) : findEmptySpots b = spots_from 0 b.
Proof. reflexivity. Qed.

Lemma in_spots_from (cells : Board) (start i : Z) :
  0 <= start ->
  In i (spots_from start cells) <->
  start <= i /\ get cells (i - start) = Some "".
Proof.
  revert start. induction cells as [| val rest IH]; intros start Hs.
  - unfold spots_from, get; simpl. split; [tauto |].
    intros [_ H]. destruct (i - start <? 0); [discriminate |].
    destruct (Z.to_nat (i - start)); discriminate.
  - rewrite spots_from_cons by assumption.
    assert (Hrest : In i (spots_from (start + 1) rest) <->
                    start + 1 <= i /\ get (val :: rest) (i - start) = Some "").
    { rewrite IH by lia.
      split; intros [Hle Hget]; split; try lia.
      - replace (i - start) with (i - (start + 1) + 1) by lia.
        rewrite get_cons_succ by lia. assumption.
      - replace (i - start) with (i - (start + 1) + 1) in Hget by lia.
        rewrite get_cons_succ in Hget by lia. assumption. }
    destruct (String.eqb_spec val "") as [-> | Hval].
    + simpl. rewrite Hrest. split.
      * intros [<- | [Hle Hget]]; [| split; [lia | assumption]].
        split; [lia |]. now rewrite Z.sub_diag.
      * intros [Hle Hget].
        destruct (Z.eq_dec start i) as [-> | Hne]; [now left | right].
        split; [lia | assumption].
    + rewrite Hrest. split.
      * intros [Hle Hget]. split; [lia | assumption].
      * intros [Hle Hget]. split; [| assumption].
        destruct (Z.eq_dec start i) as [-> | Hne]; [| lia].
        rewrite Z.sub_diag in Hget. unfold get in Hget. simpl in Hget.
        congruence.
Qed.

Lemma in_findEmptySpots (b : Board) (i : Z) :
  In i (findEmptySpots b) <-> get b i = Some "".
Proof.
  rewrite findEmptySpots_spots, in_spots_from by lia.
  rewrite Z.sub_0_r. split; [tauto |].
  intros Hget. split; [| assumption].
  apply get_range in Hget. lia.
Qed.

Lemma spots_from_sorted (cells : Board) (start : Z) :
  0 <= start -> StronglySorted Z.lt (spots_from start cells).
Proof.
  revert start. induction cells as [| val rest IH]; intros start Hs.
  - constructor.
  - rewrite spots_from_cons by assumption.
    destruct (String.eqb val ""); [| apply IH; lia].
    constructor; [apply IH; lia |].
    apply Forall_forall. intros i Hi.
    apply in_spots_from in Hi; lia.
Qed.

Lemma length_spots_from (cells : Board) (start : Z) :
  0 <= start -> (List.length (spots_from start cells) <= List.length cells)%nat.
Proof.
  revert start. induction cells as [| val rest IH]; intros start Hs.
  - simpl. lia.
  - rewrite spots_from_cons by assumption.
    specialize (IH (start + 1) ltac:(lia)).
    destruct (String.eqb val ""); simpl; lia.
Qed.

Lemma spots_from_assign (cells : Board) (start : Z) (n : nat) (v : string) :
  0 <= start -> nth_error cells n = Some "" -> v <> "" ->
  S (List.length (spots_from start (assign_nat cells n v))) =
  List.length (spots_from start cells).
Proof.
  revert start n. induction cells as [| val rest IH]; intros start n Hs Hn Hv.
  - destruct n; discriminate.
  - destruct n as [| n]; simpl in Hn.
    + injection Hn as ->. simpl assign_nat.
      rewrite !spots_from_cons by assumption.
      destruct (String.eqb_spec v ""); [contradiction | reflexivity].
    + simpl assign_nat. rewrite !spots_from_cons by assumption.
      specialize (IH (start + 1) n ltac:(lia) Hn Hv).
      destruct (String.eqb val ""); simpl; lia.
Qed.

(** Filling an empty cell with a marker leaves one empty spot less. *)
Lemma findEmptySpots_assign (b : Board) (i : Z) (v : string) :
  get b i = Some "" -> v <> "" ->
  S (List.length (findEmptySpots (assign b i v))) =
  List.length (findEmptySpots b).
Proof.
  intros Hget Hv. rewrite !findEmptySpots_spots.
  unfold get, assign in *. destruct (i <? 0); [discriminate |].
  now apply spots_from_assign.
Qed.

Lemma length_findEmptySpots (b : Board) :
  (List.length (findEmptySpots b) <= List.length b)%nat.
Proof. rewrite findEmptySpots_spots. apply length_spots_from. lia. Qed.

(** ** Loops and selection *)

Lemma for_each_Ok {A B : Type} (body : A -> res B) (arr : list A)
  (ys : list B) :
  for_each arr body = Ok ys <-> Forall2 (fun x y => body x = Ok y) arr ys.
Proof.
  revert ys. induction arr as [| x rest IH]; intros ys; simpl.
  - split.
    + intros [= <-]. constructor.
    + intros H. inversion H. reflexivity.
  - split.
    + destruct (body x) as [y | |] eqn:Hx; simpl; try discriminate.
      destruct (for_each rest body) as [ys' | |] eqn:Hrest; simpl;
        try discriminate.
      intros [= <-]. constructor; [assumption | now apply IH].
    + intros H. inversion H as [| x' y l l' Hy Hl]; subst.
      rewrite Hy. simpl. apply IH in Hl. rewrite Hl. reflexivity.
Qed.

Lemma for_each_total {A B : Type} (body : A -> res B) (arr : list A) :
  (forall x, In x arr -> exists y, body x = Ok y) ->
  exists ys, for_each arr body = Ok ys.
Proof.
  induction arr as [| x rest IH]; intros Hbody; simpl.
  - now exists [].
  - destruct (Hbody x (or_introl eq_refl)) as [y Hy].
    destruct IH as [ys Hys]; [intros; apply Hbody; now right |].
    exists (y :: ys). rewrite Hy. simpl. rewrite Hys. reflexivity.
Qed.

Lemma for_each_ext {A B : Type} (f g : A -> res B) (arr : list A) :
  (forall x, In x arr -> f x = g x) -> for_each arr f = for_each arr g.
Proof.
  induction arr as [| x rest IH]; intros Hfg; simpl; [reflexivity |].
  rewrite (Hfg x (or_introl eq_refl)).
  rewrite IH; [reflexivity | intros; apply Hfg; now right].
Qed.

Lemma first_greatest_snoc (seen : list move) (best m : move) :
  first_greatest seen best ->
  first_greatest (seen ++ [m]) (if score best <? score m then m else best).
Proof.
  intros (before & after & -> & Hbefore & Hafter).
  destruct (Z.ltb_spec (score best) (score m)) as [Hlt | Hge].
  - exists (before ++ best :: after), []. split; [reflexivity |].
    split; [| intros x []].
    intros x Hx. apply in_app_or in Hx as [Hx | [<- | Hx]].
    + specialize (Hbefore x Hx). lia.
    + assumption.
    + specialize (Hafter x Hx). lia.
  - exists before, (after ++ [m]). split.
    + now rewrite <- app_assoc.
    + split; [assumption |].
      intros x Hx. apply in_app_or in Hx as [Hx | [<- | []]]; auto.
Qed.

Lemma first_least_snoc (seen : list move) (best m : move) :
  first_least seen best ->
  first_least (seen ++ [m]) (if score m <? score best then m else best).
Proof.
  intros (before & after & -> & Hbefore & Hafter).
  destruct (Z.ltb_spec (score m) (score best)) as [Hlt | Hge].
  - exists (before ++ best :: after), []. split; [reflexivity |].
    split; [| intros x []].
    intros x Hx. apply in_app_or in Hx as [Hx | [<- | Hx]].
    + specialize (Hbefore x Hx). lia.
    + assumption.
    + specialize (Hafter x Hx). lia.
  - exists before, (after ++ [m]). split.
    + now rewrite <- app_assoc.
    + split; [assumption |].
      intros x Hx. apply in_app_or in Hx as [Hx | [<- | []]]; auto.
Qed.

(** The maximizer's loop, once a first candidate has been taken. *)
Lemma select_max_running (rest seen : list move) (best : move) :
  first_greatest seen best ->
  exists m, select_max rest (Finite (score best)) (Some best) = Some m /\
            first_greatest (seen ++ rest) m.
Proof.
  revert seen best. induction rest as [| x rest IH]; intros seen best Hbest.
  - exists best. rewrite app_nil_r. now split.
  - simpl. pose proof (first_greatest_snoc seen best x Hbest) as Hsnoc.
    replace (seen ++ x :: rest) with ((seen ++ [x]) ++ rest)
      by now rewrite <- app_assoc.
    destruct (score best <? score x); now apply IH.
Qed.

Lemma select_min_running (rest seen : list move) (best : move) :
  first_least seen best ->
  exists m, select_min rest (Finite (score best)) (Some best) = Some m /\
            first_least (seen ++ rest) m.
Proof.
  revert seen best. induction rest as [| x rest IH]; intros seen best Hbest.
  - exists best. rewrite app_nil_r. now split.
  - simpl. pose proof (first_least_snoc seen best x Hbest) as Hsnoc.
    replace (seen ++ x :: rest) with ((seen ++ [x]) ++ rest)
      by now rewrite <- app_assoc.
    destruct (score x <? score best); now apply IH.
Qed.

Lemma select_max_first (moves : list move) :
  moves <> [] ->
  exists m, select_max moves NegInfinity None = Some m /\
            first_greatest moves m.
Proof.
  destruct moves as [| x rest]; [congruence | intros _]. simpl.
  apply (select_max_running rest [x] x).
  exists [], []. split; [reflexivity | split; intros y []].
Qed.

Lemma select_min_first (moves : list move) :
  moves <> [] ->
  exists m, select_min moves Infinity None = Some m /\
            first_least moves m.
Proof.
  destruct moves as [| x rest]; [congruence | intros _]. simpl.
  apply (select_min_running rest [x] x).
  exists [], []. split; [reflexivity | split; intros y []].
Qed.

Lemma first_greatest_in (moves : list move) (m : move) :
  first_greatest moves m ->
  In m moves /\ forall x, In x moves -> score x <= score m.
Proof.
  intros (before & after & -> & Hbefore & Hafter). split.
  - apply in_or_app. right. now left.
  - intros x Hx. apply in_app_or in Hx as [Hx | [<- | Hx]].
    + specialize (Hbefore x Hx). lia.
    + lia.
    + auto.
Qed.

Lemma first_least_in (moves : list move) (m : move) :
  first_least moves m ->
  In m moves /\ forall x, In x moves -> score m <= score x.
Proof.
  intros (before & after & -> & Hbefore & Hafter). split.
  - apply in_or_app. right. now left.
  - intros x Hx. apply in_app_or in Hx as [Hx | [<- | Hx]].
    + specialize (Hbefore x Hx). lia.
    + lia.
    + auto.
Qed.

(** ** The win test *)

Lemma checkBoardWin_hasWon (lines : list condition) (b : Board)
  (marker : string) :
  checkBoardWin b marker lines = true <-> hasWon lines b marker.
Proof.
  unfold hasWon. induction lines as [| [[x y] z] rest IH]; simpl.
  - split; [discriminate | intros (? & ? & ? & [] & _)].
  - destruct (strict_eq (get b x) marker && strict_eq (get b y) marker
              && strict_eq (get b z) marker) eqn:Hline.
    + split; [intros _ | reflexivity].
      apply andb_prop in Hline as [Hxy Hz].
      apply andb_prop in Hxy as [Hx Hy].
      apply strict_eq_true in Hx, Hy, Hz.
      exists x, y, z. auto.
    + rewrite IH. split.
      * intros (x' & y' & z' & Hin & H). exists x', y', z'. auto.
      * intros (x' & y' & z' & [Heq | Hin] & Hx & Hy & Hz).
        -- injection Heq as <- <- <-.
           apply strict_eq_true in Hx, Hy, Hz.
           rewrite Hx, Hy, Hz in Hline. discriminate.
        -- exists x', y', z'. auto.
Qed.

Lemma checkBoardWin_false (lines : list condition) (b : Board)
  (marker : string) :
  checkBoardWin b marker lines = false <-> ~ hasWon lines b marker.
Proof.
  rewrite <- checkBoardWin_hasWon.
  destruct (checkBoardWin b marker lines); split; congruence.
Qed.

Lemma Forall2_pair_left {A B : Type} (R : A -> B -> Prop) (xs : list A)
  (ys : list B) (x : A) :
  Forall2 R xs ys -> In x xs -> exists y, In y ys /\ R x y.
Proof.
  induction 1 as [| x' y' xs ys Hxy _ IH]; intros Hin; [destruct Hin |].
  destruct Hin as [-> | Hin].
  - exists y'. split; [now left | assumption].
  - destruct (IH Hin) as (y & Hy & HR). exists y. split; [now right | auto].
Qed.

Lemma Forall2_pair_right {A B : Type} (R : A -> B -> Prop) (xs : list A)
  (ys : list B) (y : B) :
  Forall2 R xs ys -> In y ys -> exists x, In x xs /\ R x y.
Proof.
  induction 1 as [| x' y' xs ys Hxy _ IH]; intros Hin; [destruct Hin |].
  destruct Hin as [-> | Hin].
  - exists x'. split; [now left | assumption].
  - destruct (IH Hin) as (x & Hx & HR). exists x. split; [now right | auto].
Qed.

(** ** The search *)

Section Search.

Variable lines : list condition.

Lemma len_zero {A : Type} (arr : list A) :
  (len arr =? 0) = true <-> arr = [].
Proof.
  unfold len. rewrite Z.eqb_eq. destruct arr; simpl; split;
    try reflexivity; try discriminate; lia.
Qed.

Lemma minimax_fuel_open (fuel : nat) (b : Board) (player : string)
  (depth : Z) :
  openNode lines b ->
  minimax_fuel (S fuel) b player depth lines =
  (moves <- for_each (findEmptySpots b) (candidate lines fuel b player depth) ;;
   Ok (select player moves)).
Proof.
  intros (HX & HO & Hspots).
  apply checkBoardWin_false in HX, HO.
  cbn [minimax_fuel]. rewrite HX, HO.
  destruct (len (findEmptySpots b) =? 0) eqn:Hlen.
  - apply len_zero in Hlen. contradiction.
  - unfold candidate, select, opponent.
    destruct (String.eqb player aiMarker); reflexivity.
Qed.

Lemma opponent_marker (player : string) : opponent player <> "".
Proof.
  unfold opponent. destruct (String.eqb player aiMarker); discriminate.
Qed.

Lemma select_some (player : string) (moves : list move) :
  moves <> [] ->
  exists m, select player moves = Some m /\ In m moves.
Proof.
  intros Hne. unfold select. destruct (String.eqb player aiMarker).
  - destruct (select_max_first moves Hne) as (m & -> & Hm).
    exists m. split; [reflexivity | now apply first_greatest_in].
  - destruct (select_min_first moves Hne) as (m & -> & Hm).
    exists m. split; [reflexivity | now apply first_least_in].
Qed.

Lemma hasWon_dec (b : Board) (marker : string) :
  {hasWon lines b marker} + {~ hasWon lines b marker}.
Proof.
  destruct (checkBoardWin b marker lines) eqn:H.
  - left. now apply checkBoardWin_hasWon.
  - right. now apply checkBoardWin_false.
Qed.

(** [minimax] returns a move object on every board, whoever is to move,
    as soon as the bound exceeds the number of empty cells. *)
Lemma minimax_fuel_total (fuel : nat) :
  forall (b : Board) (player : string) (depth : Z),
    player <> "" ->
    (List.length (findEmptySpots b) < fuel)%nat ->
    exists m, minimax_fuel fuel b player depth lines = Ok (Some m).
Proof.
  induction fuel as [| fuel IH]; intros b player depth Hplayer Hfuel;
    [lia |].
  destruct (hasWon_dec b humanMarker) as [HX | HX].
  { apply checkBoardWin_hasWon in HX. cbn [minimax_fuel]. rewrite HX.
    eauto. }
  destruct (hasWon_dec b aiMarker) as [HO | HO].
  { apply checkBoardWin_false in HX. apply checkBoardWin_hasWon in HO.
    cbn [minimax_fuel]. rewrite HX, HO. eauto. }
  destruct (findEmptySpots b) as [| i0 spots] eqn:Hspots.
  { apply checkBoardWin_false in HX, HO.
    cbn [minimax_fuel]. rewrite HX, HO, Hspots. simpl. eauto. }
  rewrite minimax_fuel_open
    by (repeat split; try assumption; rewrite Hspots; discriminate).
  rewrite Hspots.
  destruct (for_each_total (candidate lines fuel b player depth) (i0 :: spots))
    as [moves Hmoves].
  { intros i Hi. rewrite <- Hspots in Hi. apply in_findEmptySpots in Hi.
    pose proof (findEmptySpots_assign b i player Hi Hplayer) as Hless.
    destruct (IH (assign b i player) (opponent player) (depth + 1))
      as [r Hr];
      [apply opponent_marker | rewrite Hspots in Hless; simpl in *; lia |].
    exists (mkMove (Some i) (score r)). unfold candidate.
    rewrite Hr. reflexivity. }
  rewrite Hmoves. simpl bind.
  destruct (select_some player moves) as (m & Hm & _).
  { apply for_each_Ok in Hmoves. inversion Hmoves. discriminate. }
  exists m. now rewrite Hm.
Qed.

(** The same for a first call made with any string at all, which may
    leave the board as it is, given one more unit. *)
Lemma minimax_fuel_total_any (fuel : nat) (b : Board) (player : string)
  (depth : Z) :
  (S (List.length (findEmptySpots b)) < fuel)%nat ->
  exists m, minimax_fuel fuel b player depth lines = Ok (Some m).
Proof.
  intros Hfuel. destruct fuel as [| fuel]; [lia |].
  destruct (hasWon_dec b humanMarker) as [HX | HX].
  { apply checkBoardWin_hasWon in HX. cbn [minimax_fuel]. rewrite HX.
    eauto. }
  destruct (hasWon_dec b aiMarker) as [HO | HO].
  { apply checkBoardWin_false in HX. apply checkBoardWin_hasWon in HO.
    cbn [minimax_fuel]. rewrite HX, HO. eauto. }
  destruct (list_eq_dec Z.eq_dec (findEmptySpots b) []) as [Hnone | Hsome].
  { apply checkBoardWin_false in HX, HO.
    cbn [minimax_fuel]. rewrite HX, HO, Hnone. simpl. eauto. }
  rewrite minimax_fuel_open by (repeat split; assumption).
  destruct (for_each_total (candidate lines fuel b player depth)
              (findEmptySpots b)) as [moves Hmoves].
  { intros i Hi. apply in_findEmptySpots in Hi.
    assert (Hless : (List.length (findEmptySpots (assign b i player))
                     <= List.length (findEmptySpots b))%nat).
    { destruct (string_dec player "") as [-> | Hplayer].
      - rewrite (assign_same b i "" Hi). lia.
      - pose proof (findEmptySpots_assign b i player Hi Hplayer). lia. }
    destruct (minimax_fuel_total fuel (assign b i player) (opponent player)
                (depth + 1)) as [r Hr]; [apply opponent_marker | lia |].
    exists (mkMove (Some i) (score r)). unfold candidate.
    rewrite Hr. reflexivity. }
  rewrite Hmoves. simpl bind.
  destruct (select_some player moves) as (m & Hm & _).
  { apply for_each_Ok in Hmoves. intros ->. inversion Hmoves. congruence. }
  exists m. now rewrite Hm.
Qed.

(** A result does not depend on the bound that let it through. *)
Lemma minimax_fuel_stable (fuel : nat) :
  forall (b : Board) (player : string) (depth : Z) (v : option move),
    minimax_fuel fuel b player depth lines = Ok v ->
    forall fuel', (fuel <= fuel')%nat ->
                  minimax_fuel fuel' b player depth lines = Ok v.
Proof.
  induction fuel as [| fuel IH]; intros b player depth v Hv fuel' Hle;
    [discriminate |].
  destruct fuel' as [| fuel']; [lia |].
  destruct (hasWon_dec b humanMarker) as [HX | HX].
  { apply checkBoardWin_hasWon in HX. cbn [minimax_fuel] in *.
    now rewrite HX in *. }
  destruct (hasWon_dec b aiMarker) as [HO | HO].
  { apply checkBoardWin_false in HX. apply checkBoardWin_hasWon in HO.
    cbn [minimax_fuel] in *. now rewrite HX, HO in *. }
  destruct (findEmptySpots b) as [| i0 spots] eqn:Hspots.
  { apply checkBoardWin_false in HX, HO.
    cbn [minimax_fuel] in *. now rewrite HX, HO, Hspots in *. }
  assert (Hopen : openNode lines b)
    by (repeat split; try assumption; rewrite Hspots; discriminate).
  rewrite minimax_fuel_open in * by assumption.
  destruct (for_each (findEmptySpots b) (candidate lines fuel b player depth))
    as [moves | |] eqn:Hmoves; try discriminate.
  simpl in Hv.
  assert (Hmoves' : for_each (findEmptySpots b)
                      (candidate lines fuel' b player depth) = Ok moves).
  { apply for_each_Ok. apply for_each_Ok in Hmoves.
    revert Hmoves. apply Forall2_impl. intros i mv. unfold candidate.
    destruct (minimax_fuel fuel (assign b i player) (opponent player)
                (depth + 1) lines) as [r | |] eqn:Hr; try discriminate.
    rewrite (IH _ _ _ _ Hr fuel') by lia. trivial. }
  rewrite Hmoves'. assumption.
Qed.

(** An open node returns the selected one of its candidates, one per
    empty spot in the order of [findEmptySpots]. *)
Lemma minimax_fuel_node (fuel : nat) (b : Board) (player : string)
  (depth : Z) :
  openNode lines b -> player <> "" ->
  (List.length (findEmptySpots b) <= fuel)%nat ->
  exists moves m,
    Forall2 (fun i mv => candidate lines fuel b player depth i = Ok mv)
      (findEmptySpots b) moves /\
    minimax_fuel (S fuel) b player depth lines = Ok (Some m) /\
    select player moves = Some m /\ In m moves.
Proof.
  intros Hopen Hplayer Hfuel.
  destruct (minimax_fuel_total (S fuel) b player depth Hplayer)
    as [m Hm]; [lia |].
  pose proof Hm as Hrun. rewrite minimax_fuel_open in Hrun by assumption.
  destruct (for_each (findEmptySpots b) (candidate lines fuel b player depth))
    as [moves | |] eqn:Hmoves; try discriminate.
  simpl in Hrun. injection Hrun as Hsel.
  exists moves, m. apply for_each_Ok in Hmoves.
  repeat split; try assumption.
  destruct (select_some player moves) as (m' & Hm' & Hin).
  - destruct Hopen as (_ & _ & Hspots).
    inversion Hmoves; subst; congruence.
  - congruence.
Qed.

Lemma candidate_Ok (fuel : nat) (b : Board) (player : string) (depth : Z)
  (i : Z) (mv : move) :
  candidate lines fuel b player depth i = Ok mv <->
  exists r, minimax_fuel fuel (assign b i player) (opponent player)
              (depth + 1) lines = Ok (Some r) /\
            mv = mkMove (Some i) (score r).
Proof.
  unfold candidate.
  destruct (minimax_fuel fuel (assign b i player) (opponent player)
              (depth + 1) lines) as [[r |] | |]; simpl.
  - split.
    + intros [= <-]. now exists r.
    + intros (r' & [= <-] & ->). reflexivity.
  - split; [discriminate | intros (r' & Hr & _); discriminate].
  - split; [discriminate | intros (r' & Hr & _); discriminate].
  - split; [discriminate | intros (r' & Hr & _); discriminate].
Qed.

(** *** The sign of the score

    The score is negative exactly on the positions from which the human
    forces a win, as long as the depth bias cannot reach 100. *)
Lemma minimax_fuel_sign (fuel : nat) :
  forall (b : Board) (player : string) (depth : Z),
    player = humanMarker \/ player = aiMarker ->
    0 <= depth -> depth + len (findEmptySpots b) < 100 ->
    (List.length (findEmptySpots b) < fuel)%nat ->
    exists m, minimax_fuel fuel b player depth lines = Ok (Some m) /\
              (score m < 0 <-> HumanForcesWin lines b player).
Proof.
  induction fuel as [| fuel IH];
    intros b player depth Hplayer Hdepth Hbias Hfuel; [lia |].
  assert (Hmarker : player <> "") by (destruct Hplayer; subst; discriminate).
  destruct (hasWon_dec b humanMarker) as [HX | HX].
  { pose proof HX as HX'. apply checkBoardWin_hasWon in HX'.
    cbn [minimax_fuel]. rewrite HX'. eexists. split; [reflexivity |].
    cbn [score]. change (scores "X") with (-100).
    unfold len in Hbias. split; [intros _ | lia].
    now apply HumanForcesWin_won. }
  destruct (hasWon_dec b aiMarker) as [HO | HO].
  { pose proof HX as HX'. pose proof HO as HO'.
    apply checkBoardWin_false in HX'. apply checkBoardWin_hasWon in HO'.
    cbn [minimax_fuel]. rewrite HX', HO'. eexists. split; [reflexivity |].
    cbn [score]. change (scores "O") with 100.
    unfold len in Hbias. split; [lia |].
    intros Hwin. inversion Hwin; subst; contradiction. }
  destruct (list_eq_dec Z.eq_dec (findEmptySpots b) []) as [Hnone | Hsome].
  { pose proof HX as HX'. pose proof HO as HO'.
    apply checkBoardWin_false in HX', HO'.
    cbn [minimax_fuel]. rewrite HX', HO', Hnone.
    change (len [] =? 0) with true. cbv iota.
    eexists. split; [reflexivity |].
    cbn [score]. change (scores "draw") with 0. split; [lia |].
    intros Hwin. inversion Hwin as [| ? i ? ? Hi | ? ? ? [i Hi]]; subst.
    - contradiction.
    - apply in_findEmptySpots in Hi. rewrite Hnone in Hi. destruct Hi.
    - apply in_findEmptySpots in Hi. rewrite Hnone in Hi. destruct Hi. }
  assert (Hopen : openNode lines b) by (repeat split; assumption).
  destruct (minimax_fuel_node fuel b player depth Hopen Hmarker)
    as (moves & m & Hmoves & Hrun & Hsel & Hin); [lia |].
  exists m. split; [assumption |].
  (* what the induction hypothesis says of every candidate *)
  assert (Hchild : forall i mv,
             In i (findEmptySpots b) ->
             candidate lines fuel b player depth i = Ok mv ->
             (score mv < 0 <->
              HumanForcesWin lines (assign b i player) (opponent player))).
  { intros i mv Hi Hmv. apply candidate_Ok in Hmv as (r & Hr & ->).
    apply in_findEmptySpots in Hi.
    pose proof (findEmptySpots_assign b i player Hi Hmarker) as Hless.
    destruct (IH (assign b i player) (opponent player) (depth + 1))
      as (r' & Hr' & Hsign).
    - unfold opponent. destruct (String.eqb player aiMarker); auto.
    - lia.
    - unfold len in *. lia.
    - lia.
    - rewrite Hr in Hr'. injection Hr' as <-. exact Hsign. }
  unfold select in Hsel.
  destruct Hplayer as [-> | ->]; simpl in Hsel.
  - (* the human picks the least score *)
    destruct (select_min_first moves) as (m' & Hm' & Hleast).
    { intros ->. destruct Hin. }
    rewrite Hsel in Hm'. injection Hm' as <-.
    apply first_least_in in Hleast as [_ Hleast].
    split.
    + intros Hneg.
      destruct (Forall2_pair_right _ _ _ m Hmoves Hin) as (i & Hi & Hmv).
      apply HumanForcesWin_human with (i := i); try assumption.
      * now apply in_findEmptySpots.
      * now apply (Hchild i m Hi Hmv).
    + intros Hwin. inversion Hwin as [| ? i ? ? Hi Hnext |]; subst.
      * contradiction.
      * apply in_findEmptySpots in Hi.
        destruct (Forall2_pair_left _ _ _ i Hmoves Hi) as (mv & Hmvin & Hmv).
        apply (Hchild i mv Hi Hmv) in Hnext.
        specialize (Hleast mv Hmvin). lia.
  - (* the AI picks the greatest score *)
    destruct (select_max_first moves) as (m' & Hm' & Hgreatest).
    { intros ->. destruct Hin. }
    rewrite Hsel in Hm'. injection Hm' as <-.
    apply first_greatest_in in Hgreatest as [_ Hgreatest].
    split.
    + intros Hneg. apply HumanForcesWin_ai; try assumption.
      * destruct (findEmptySpots b) as [| i rest] eqn:Hspots;
          [congruence |].
        exists i. apply in_findEmptySpots. rewrite Hspots. now left.
      * intros i Hi. apply in_findEmptySpots in Hi.
        destruct (Forall2_pair_left _ _ _ i Hmoves Hi) as (mv & Hmvin & Hmv).
        apply (Hchild i mv Hi Hmv).
        specialize (Hgreatest mv Hmvin). lia.
    + intros Hwin. inversion Hwin as [| | ? ? ? ? Hall]; subst.
      * contradiction.
      * destruct (Forall2_pair_right _ _ _ m Hmoves Hin) as (i & Hi & Hmv).
        apply (Hchild i m Hi Hmv). apply Hall. now apply in_findEmptySpots.
Qed.

End Search.

(** ** The base cases of the search *)

(** C2: for every board, marker to move and depth, [minimax] returns the
    score -100 + depth when the human marker has a completed winning line;
    otherwise +100 - depth when the AI marker has one; otherwise 0 when no
    cell is empty. *)
Theorem minimax_terminal_scores (lines : list condition) (b : Board)
  (player : string) (depth : Z) :
  (hasWon lines b humanMarker ->
   minimax b player depth lines = Ok (Some (mkMove None (-100 + depth)))) /\
  (~ hasWon lines b humanMarker -> hasWon lines b aiMarker ->
   minimax b player depth lines = Ok (Some (mkMove None (100 - depth)))) /\
  (~ hasWon lines b humanMarker -> ~ hasWon lines b aiMarker ->
   (forall i, ~ emptyCell b i) ->
   minimax b player depth lines = Ok (Some (mkMove None 0))).
Proof.
  unfold minimax. cbn [minimax_fuel]. repeat split.
  - intros HX. apply checkBoardWin_hasWon in HX. now rewrite HX.
  - intros HX HO. apply checkBoardWin_false in HX.
    apply checkBoardWin_hasWon in HO. now rewrite HX, HO.
  - intros HX HO Hfull. apply checkBoardWin_false in HX, HO.
    rewrite HX, HO.
    destruct (findEmptySpots b) as [| i rest] eqn:Hspots; [reflexivity |].
    exfalso. apply (Hfull i). apply in_findEmptySpots.
    rewrite Hspots. now left.
Qed.

Lemma minimax_terminal_scores_witness :
  (hasWon GameController.winningConditions
     ["X"; "X"; "X"; "O"; "O"; ""; ""; ""; ""] humanMarker /\
   minimax ["X"; "X"; "X"; "O"; "O"; ""; ""; ""; ""] "O" 5
     GameController.winningConditions = Ok (Some (mkMove None (-95)))) /\
  ((~ hasWon GameController.winningConditions
        ["O"; "O"; "O"; "X"; "X"; ""; "X"; ""; ""] humanMarker /\
    hasWon GameController.winningConditions
      ["O"; "O"; "O"; "X"; "X"; ""; "X"; ""; ""] aiMarker) /\
   minimax ["O"; "O"; "O"; "X"; "X"; ""; "X"; ""; ""] "X" 6
     GameController.winningConditions = Ok (Some (mkMove None 94))) /\
  ((~ hasWon GameController.winningConditions
        ["X"; "O"; "X"; "X"; "O"; "O"; "O"; "X"; "X"] humanMarker /\
    ~ hasWon GameController.winningConditions
        ["X"; "O"; "X"; "X"; "O"; "O"; "O"; "X"; "X"] aiMarker /\
    forall i, ~ emptyCell ["X"; "O"; "X"; "X"; "O"; "O"; "O"; "X"; "X"] i) /\
   minimax ["X"; "O"; "X"; "X"; "O"; "O"; "O"; "X"; "X"] "O" 9
     GameController.winningConditions = Ok (Some (mkMove None 0))).
Proof.
  assert (H1 : hasWon GameController.winningConditions
                 ["X"; "X"; "X"; "O"; "O"; ""; ""; ""; ""] humanMarker)
    by (apply checkBoardWin_hasWon; reflexivity).
  assert (H2 : ~ hasWon GameController.winningConditions
                   ["O"; "O"; "O"; "X"; "X"; ""; "X"; ""; ""] humanMarker)
    by (apply checkBoardWin_false; reflexivity).
  assert (H3 : hasWon GameController.winningConditions
                 ["O"; "O"; "O"; "X"; "X"; ""; "X"; ""; ""] aiMarker)
    by (apply checkBoardWin_hasWon; reflexivity).
  assert (H4 : ~ hasWon GameController.winningConditions
                   ["X"; "O"; "X"; "X"; "O"; "O"; "O"; "X"; "X"] humanMarker)
    by (apply checkBoardWin_false; reflexivity).
  assert (H5 : ~ hasWon GameController.winningConditions
                   ["X"; "O"; "X"; "X"; "O"; "O"; "O"; "X"; "X"] aiMarker)
    by (apply checkBoardWin_false; reflexivity).
  assert (H6 : forall i,
             ~ emptyCell ["X"; "O"; "X"; "X"; "O"; "O"; "O"; "X"; "X"] i).
  { intros i Hi. apply in_findEmptySpots in Hi. exact Hi. }
  split; [| split].
  - split; [exact H1 |].
    exact (proj1 (minimax_terminal_scores _ _ "O" 5) H1).
  - split; [split; assumption |].
    exact (proj1 (proj2 (minimax_terminal_scores _ _ "X" 6)) H2 H3).
  - split; [repeat split; assumption |].
    exact (proj2 (proj2 (minimax_terminal_scores _ _ "O" 9)) H4 H5 H6).
Defined.

(** ** Selection at an open node *)

Lemma sorted_around (before after : list Z) (i : Z) :
  StronglySorted Z.lt (before ++ i :: after) ->
  (forall j, In j before -> j < i) /\ (forall j, In j after -> i < j).
Proof.
  induction before as [| x before IH]; simpl; intros Hsorted.
  - apply StronglySorted_inv in Hsorted as [_ Hall].
    split; [intros j [] |]. intros j Hj.
    rewrite Forall_forall in Hall. auto.
  - apply StronglySorted_inv in Hsorted as [Hrest Hall].
    destruct (IH Hrest) as [Hb Ha]. split; [| assumption].
    intros j [<- | Hj]; [| auto].
    rewrite Forall_forall in Hall. apply Hall.
    apply in_or_app. right. now left.
Qed.

(** The candidates of a sorted enumeration, around the selected one. *)
Lemma candidates_around {B : Type} (make : Z -> res B) (spots : list Z)
  (before after : list B) (m : B) :
  Forall2 (fun i mv => make i = Ok mv) spots (before ++ m :: after) ->
  StronglySorted Z.lt spots ->
  exists i, In i spots /\ make i = Ok m /\
    forall j, In j spots ->
      exists mv, make j = Ok mv /\
        ((j < i /\ In mv before) \/ (j = i /\ mv = m) \/
         (i < j /\ In mv after)).
Proof.
  intros Hall Hsorted.
  apply Forall2_app_inv_r in Hall as (lb & l2 & Hlb & Hl2 & ->).
  inversion Hl2 as [| i mv la after' Hi Hla]; subst.
  destruct (sorted_around lb la i Hsorted) as [Hlow Hhigh].
  exists i. split; [apply in_or_app; right; now left |].
  split; [assumption |].
  intros j Hj. apply in_app_or in Hj as [Hj | [<- | Hj]].
  - destruct (Forall2_pair_left _ _ _ j Hlb Hj) as (mv & Hmv & Hmake).
    exists mv. split; [assumption |]. left. auto.
  - exists m. split; [assumption |]. right. left. auto.
  - destruct (Forall2_pair_left _ _ _ j Hla Hj) as (mv & Hmv & Hmake).
    exists mv. split; [assumption |]. right. right. auto.
Qed.

Lemma candidate_childScore (lines : list condition) (b : Board)
  (player : string) (depth : Z) (i : Z) (mv : move) :
  candidate lines (S (List.length b)) b player depth i = Ok mv ->
  index mv = Some i /\ childScore lines b player depth i (score mv).
Proof.
  intros Hmv. apply candidate_Ok in Hmv as (r & Hr & ->).
  split; [reflexivity |]. exists r. split; [| reflexivity].
  unfold minimax. rewrite length_assign.
  apply (minimax_fuel_stable lines _ _ _ _ _ Hr). lia.
Qed.

(** C3: at a node that is not a base case the candidates are the empty
    indices in ascending order; the AI's node returns the candidate with
    the greatest child score and the human's node the one with the least,
    the lowest index among equals; on the empty board the hard tier
    returns index 0. *)
Theorem minimax_selects_first_best :
  (forall (lines : list condition) (b : Board) (player : string) (depth : Z),
      openNode lines b -> player = aiMarker \/ player = humanMarker ->
      StronglySorted Z.lt (findEmptySpots b) /\
      (forall j, In j (findEmptySpots b) <-> emptyCell b j) /\
      exists i s,
        minimax b player depth lines = Ok (Some (mkMove (Some i) s)) /\
        emptyCell b i /\ childScore lines b player depth i s /\
        forall j, emptyCell b j ->
          exists sj, childScore lines b player depth j sj /\
            (player = aiMarker -> sj <= s /\ (j < i -> sj < s)) /\
            (player = humanMarker -> s <= sj /\ (j < i -> s < sj))) /\
  (forall random : Q,
      AILogic.getBestMove GameController.winningConditions GameBoard.reset
        "hard" random = Ok (Some 0)).
Proof.
  split; [| intros random;
             vm_cast_no_check (@eq_refl (res (option Z)) (Ok (Some 0)))].
  intros lines b player depth Hopen Hplayer.
  assert (Hsorted : StronglySorted Z.lt (findEmptySpots b))
    by (rewrite findEmptySpots_spots; apply spots_from_sorted; lia).
  split; [assumption |].
  split; [intros j; apply in_findEmptySpots |].
  assert (Hmarker : player <> "") by (destruct Hplayer; subst; discriminate).
  destruct (minimax_fuel_node lines (S (List.length b)) b player depth Hopen
              Hmarker)
    as (moves & m & Hmoves & Hrun & Hsel & Hin);
    [pose proof (length_findEmptySpots b); lia |].
  assert (Hne : moves <> []) by (intros ->; destruct Hin).
  unfold select in Hsel.
  destruct Hplayer as [-> | ->]; simpl in Hsel.
  - destruct (select_max_first moves Hne) as (m' & Hm' & Hbest).
    rewrite Hsel in Hm'. injection Hm' as <-.
    destruct Hbest as (before & after & -> & Hbefore & Hafter).
    destruct (candidates_around _ _ _ _ _ Hmoves Hsorted)
      as (i & Hi & Hm & Hothers).
    apply candidate_childScore in Hm as [Hindex Hscore].
    exists i, (score m). destruct m as [mi ms]; simpl in *. subst mi.
    split; [exact Hrun |].
    split; [now apply in_findEmptySpots |].
    split; [assumption |].
    intros j Hj. apply in_findEmptySpots in Hj.
    destruct (Hothers j Hj) as (mv & Hmv & Hcase).
    apply candidate_childScore in Hmv as [_ Hmv].
    exists (score mv). split; [assumption |].
    split; [intros _ | discriminate].
    destruct Hcase as [[Hlt Hmem] | [[-> ->] | [Hlt Hmem]]].
    + specialize (Hbefore mv Hmem). simpl in Hbefore. lia.
    + simpl. lia.
    + specialize (Hafter mv Hmem). simpl in Hafter. lia.
  - destruct (select_min_first moves Hne) as (m' & Hm' & Hbest).
    rewrite Hsel in Hm'. injection Hm' as <-.
    destruct Hbest as (before & after & -> & Hbefore & Hafter).
    destruct (candidates_around _ _ _ _ _ Hmoves Hsorted)
      as (i & Hi & Hm & Hothers).
    apply candidate_childScore in Hm as [Hindex Hscore].
    exists i, (score m). destruct m as [mi ms]; simpl in *. subst mi.
    split; [exact Hrun |].
    split; [now apply in_findEmptySpots |].
    split; [assumption |].
    intros j Hj. apply in_findEmptySpots in Hj.
    destruct (Hothers j Hj) as (mv & Hmv & Hcase).
    apply candidate_childScore in Hmv as [_ Hmv].
    exists (score mv). split; [assumption |].
    split; [discriminate | intros _].
    destruct Hcase as [[Hlt Hmem] | [[-> ->] | [Hlt Hmem]]].
    + specialize (Hbefore mv Hmem). simpl in Hbefore. lia.
    + simpl. lia.
    + specialize (Hafter mv Hmem). simpl in Hafter. lia.
Qed.

Lemma minimax_selects_first_best_witness :
  openNode GameController.winningConditions
    ["X"; "O"; "X"; ""; ""; "O"; "X"; ""; ""] /\
  exists i s,
    minimax ["X"; "O"; "X"; ""; ""; "O"; "X"; ""; ""] aiMarker 0
      GameController.winningConditions = Ok (Some (mkMove (Some i) s)) /\
    emptyCell ["X"; "O"; "X"; ""; ""; "O"; "X"; ""; ""] i /\
    forall j, emptyCell ["X"; "O"; "X"; ""; ""; "O"; "X"; ""; ""] j ->
      exists sj,
        childScore GameController.winningConditions
          ["X"; "O"; "X"; ""; ""; "O"; "X"; ""; ""] aiMarker 0 j sj /\
        sj <= s /\ (j < i -> sj < s).
Proof.
  assert (Hopen : openNode GameController.winningConditions
                    ["X"; "O"; "X"; ""; ""; "O"; "X"; ""; ""]).
  { repeat split.
    - apply checkBoardWin_false. reflexivity.
    - apply checkBoardWin_false. reflexivity.
    - vm_compute. discriminate. }
  split; [exact Hopen |].
  destruct (proj1 minimax_selects_first_best
              GameController.winningConditions
              ["X"; "O"; "X"; ""; ""; "O"; "X"; ""; ""] aiMarker 0 Hopen
              (or_introl eq_refl))
    as (_ & _ & i & s & Hrun & Hi & _ & Hall).
  exists i, s. split; [exact Hrun |]. split; [exact Hi |].
  intros j Hj. destruct (Hall j Hj) as (sj & Hsj & Hai & _).
  exists sj. split; [exact Hsj |]. exact (Hai eq_refl).
Defined.

(** ** The hard tier *)

Lemma has_empty_cell (b : Board) :
  (exists i, emptyCell b i) <-> findEmptySpots b <> [].
Proof.
  split.
  - intros [i Hi] Hnone. apply in_findEmptySpots in Hi.
    rewrite Hnone in Hi. destruct Hi.
  - intros Hspots. destruct (findEmptySpots b) as [| i rest] eqn:Heq;
      [congruence |].
    exists i. apply in_findEmptySpots. rewrite Heq. now left.
Qed.

Section Hard.

Variable lines : list condition.

(** The move of the hard tier on an open board: an empty cell whose
    child score no other empty cell exceeds. *)
Lemma hard_move (b : Board) (random : Q) :
  openNode lines b ->
  exists i s,
    AILogic.getBestMove lines b "hard" random = Ok (Some i) /\
    emptyCell b i /\
    minimax_fuel (S (List.length b)) (assign b i aiMarker) humanMarker 1
    lines
      = Ok (Some s) /\
    forall j sj,
      emptyCell b j ->
      minimax_fuel (S (List.length b)) (assign b j aiMarker) humanMarker 1
        lines = Ok (Some sj) ->
      score sj <= score s.
Proof.
  intros Hopen.
  destruct (minimax_fuel_node lines (S (List.length b)) b aiMarker 0 Hopen)
    as (moves & m & Hmoves & Hrun & Hsel & Hin);
    [discriminate | pose proof (length_findEmptySpots b); lia |].
  destruct (select_max_first moves) as (m' & Hm' & Hbest).
  { intros ->. destruct Hin. }
  unfold select in Hsel. simpl in Hsel.
  rewrite Hsel in Hm'. injection Hm' as <-.
  apply first_greatest_in in Hbest as [_ Hbest].
  destruct (Forall2_pair_right _ _ _ m Hmoves Hin) as (i & Hi & Hm).
  apply candidate_Ok in Hm as (r & Hr & ->).
  exists i, r. repeat split.
  - unfold AILogic.getBestMove, AILogic.getBestMove_fuel.
    destruct Hopen as (_ & _ & Hspots).
    destruct (len (findEmptySpots b) =? 0) eqn:Hlen;
      [apply len_zero in Hlen; contradiction |].
    simpl String.eqb. cbv iota. rewrite Hrun. reflexivity.
  - now apply in_findEmptySpots.
  - exact Hr.
  - intros j sj Hj Hsj. apply in_findEmptySpots in Hj.
    destruct (Forall2_pair_left _ _ _ j Hmoves Hj) as (mv & Hmvin & Hmv).
    apply candidate_Ok in Hmv as (r' & Hr' & ->).
    change (opponent aiMarker) with humanMarker in Hr'.
    change (0 + 1) with 1 in Hr'.
    rewrite Hsj in Hr'. injection Hr' as <-.
    apply (Hbest _ Hmvin).
Qed.

(** A score that is not negative rules the forced win out. *)
Lemma not_forced_by_score (b : Board) (player : string) (depth : Z)
  (m : move) :
  player = humanMarker \/ player = aiMarker ->
  0 <= depth -> depth + len b < 100 ->
  minimax b player depth lines = Ok (Some m) ->
  0 <= score m -> ~ HumanForcesWin lines b player.
Proof.
  intros Hplayer Hdepth Hbias Hrun Hscore Hwin.
  pose proof (length_findEmptySpots b) as Hlen.
  destruct (minimax_fuel_sign lines (S (S (List.length b))) b player depth)
    as (m' & Hm' & Hsign); try assumption; unfold len in *; try lia.
  unfold minimax in Hrun. rewrite Hrun in Hm'. injection Hm' as <-.
  apply Hsign in Hwin. lia.
Qed.

(** The score of the position after a move of the AI on a board of fewer
    than 99 cells tells whether the human forces a win from it. *)
Lemma hard_child_sign (b : Board) :
  (List.length b < 99)%nat ->
  forall k, emptyCell b k ->
    exists m,
      minimax_fuel (S (List.length b)) (assign b k aiMarker) humanMarker 1
        lines = Ok (Some m) /\
      (score m < 0 <->
       HumanForcesWin lines (assign b k aiMarker) humanMarker).
Proof.
  intros Hsize k Hk.
  pose proof (findEmptySpots_assign b k aiMarker Hk ltac:(discriminate))
    as Hless.
  pose proof (length_findEmptySpots b) as Hlen.
  apply minimax_fuel_sign; unfold len; try lia. now left.
Qed.

(** The hard tier does not give a safe position away: when some move of
    the AI leaves the human without a forced win, so does the move it
    returns. *)
Lemma hard_avoids_forced_win (b : Board) (random : Q) :
  (List.length b < 99)%nat -> openNode lines b ->
  (exists j, emptyCell b j /\
             ~ HumanForcesWin lines (assign b j aiMarker) humanMarker) ->
  exists i,
    AILogic.getBestMove lines b "hard" random = Ok (Some i) /\
    emptyCell b i /\
    ~ HumanForcesWin lines (assign b i aiMarker) humanMarker.
Proof.
  intros Hsize Hopen (j & Hj & Hsafe).
  destruct (hard_move b random Hopen) as (i & s & Hmove & Hi & Hs & Hbest).
  exists i. split; [assumption |]. split; [assumption |].
  destruct (hard_child_sign b Hsize i Hi) as (mi & Hmi & Hsigni).
  destruct (hard_child_sign b Hsize j Hj) as (mj & Hmj & Hsignj).
  rewrite Hs in Hmi. injection Hmi as <-.
  specialize (Hbest j mj Hj Hmj).
  intros Hwin. apply Hsigni in Hwin. apply Hsafe. apply Hsignj. lia.
Qed.

End Hard.

(** C1, as the code has it: on every board of nine cells with an empty cell
    and no winner, whenever some move of the AI leaves a position from
    which the human cannot force a win, the move [getBestMove] returns on
    "hard" leaves such a position. *)
Theorem hard_keeps_a_safe_position (b : Board) (random : Q) :
  List.length b = 9%nat ->
  ~ hasWon GameController.winningConditions b humanMarker ->
  ~ hasWon GameController.winningConditions b aiMarker ->
  (exists j, emptyCell b j /\
             ~ HumanForcesWin GameController.winningConditions
                 (assign b j aiMarker) humanMarker) ->
  exists i,
    AILogic.getBestMove GameController.winningConditions b "hard" random
      = Ok (Some i) /\
    emptyCell b i /\
    ~ HumanForcesWin GameController.winningConditions
        (assign b i aiMarker) humanMarker.
Proof.
  intros Hnine HX HO Hsafe.
  apply hard_avoids_forced_win; [lia | | exact Hsafe].
  destruct Hsafe as (j & Hj & _).
  split; [exact HX |]. split; [exact HO |].
  apply has_empty_cell. now exists j.
Qed.

Lemma hard_keeps_a_safe_position_witness :
  (List.length ["X"; "O"; "X"; "O"; "X"; ""; ""; ""; "O"] = 9%nat /\
   ~ hasWon GameController.winningConditions
       ["X"; "O"; "X"; "O"; "X"; ""; ""; ""; "O"] humanMarker /\
   ~ hasWon GameController.winningConditions
       ["X"; "O"; "X"; "O"; "X"; ""; ""; ""; "O"] aiMarker /\
   exists j, emptyCell ["X"; "O"; "X"; "O"; "X"; ""; ""; ""; "O"] j /\
     ~ HumanForcesWin GameController.winningConditions
         (assign ["X"; "O"; "X"; "O"; "X"; ""; ""; ""; "O"] j aiMarker)
         humanMarker) /\
  exists i,
    AILogic.getBestMove GameController.winningConditions
      ["X"; "O"; "X"; "O"; "X"; ""; ""; ""; "O"] "hard" 0 = Ok (Some i) /\
    emptyCell ["X"; "O"; "X"; "O"; "X"; ""; ""; ""; "O"] i /\
    ~ HumanForcesWin GameController.winningConditions
        (assign ["X"; "O"; "X"; "O"; "X"; ""; ""; ""; "O"] i aiMarker)
        humanMarker.
Proof.
  assert (H1 : List.length ["X"; "O"; "X"; "O"; "X"; ""; ""; ""; "O"] = 9%nat)
    by reflexivity.
  assert (H2 : ~ hasWon GameController.winningConditions
                   ["X"; "O"; "X"; "O"; "X"; ""; ""; ""; "O"] humanMarker)
    by (apply checkBoardWin_false; reflexivity).
  assert (H3 : ~ hasWon GameController.winningConditions
                   ["X"; "O"; "X"; "O"; "X"; ""; ""; ""; "O"] aiMarker)
    by (apply checkBoardWin_false; reflexivity).
  assert (H4 : exists j,
             emptyCell ["X"; "O"; "X"; "O"; "X"; ""; ""; ""; "O"] j /\
             ~ HumanForcesWin GameController.winningConditions
                 (assign ["X"; "O"; "X"; "O"; "X"; ""; ""; ""; "O"] j
                    aiMarker) humanMarker).
  { exists 6. split; [reflexivity |].
    apply (not_forced_by_score GameController.winningConditions _ _ 0
             (mkMove (Some 7) 0)).
    - now left.
    - lia.
    - vm_compute. reflexivity.
    - vm_compute. reflexivity.
    - simpl. lia. }
  split; [repeat split; assumption |].
  exact (hard_keeps_a_safe_position _ 0 H1 H2 H3 H4).
Defined.

(** C1, as the claim words it, fails on a board that is lost already: with
    X on 0, 2 and 6 and O on 1 and 5 the hard tier answers 3, and the human
    wins at once on the diagonal through 4. *)
Lemma hard_cannot_save_a_lost_position :
  List.length ["X"; "O"; "X"; ""; ""; "O"; "X"; ""; ""] = 9%nat /\
  ~ hasWon GameController.winningConditions
      ["X"; "O"; "X"; ""; ""; "O"; "X"; ""; ""] humanMarker /\
  ~ hasWon GameController.winningConditions
      ["X"; "O"; "X"; ""; ""; "O"; "X"; ""; ""] aiMarker /\
  emptyCell ["X"; "O"; "X"; ""; ""; "O"; "X"; ""; ""] 3 /\
  AILogic.getBestMove GameController.winningConditions
    ["X"; "O"; "X"; ""; ""; "O"; "X"; ""; ""] "hard" 0 = Ok (Some 3) /\
  HumanForcesWin GameController.winningConditions
    (assign ["X"; "O"; "X"; ""; ""; "O"; "X"; ""; ""] 3 aiMarker)
    humanMarker.
Proof.
  split; [reflexivity |].
  split; [apply checkBoardWin_false; reflexivity |].
  split; [apply checkBoardWin_false; reflexivity |].
  split; [reflexivity |].
  split; [vm_compute; reflexivity |].
  apply HumanForcesWin_human with (i := 4).
  - apply checkBoardWin_false. reflexivity.
  - apply checkBoardWin_false. reflexivity.
  - reflexivity.
  - apply HumanForcesWin_won. apply checkBoardWin_hasWon. reflexivity.
Qed.

(** *** A game against the hard tier *)

Lemma all_or_some {A : Type} (P : A -> Prop) (xs : list A) :
  (forall x, In x xs -> P x \/ ~ P x) ->
  (forall x, In x xs -> P x) \/ (exists x, In x xs /\ ~ P x).
Proof.
  induction xs as [| x xs IH]; intros Hdec.
  - left. intros x [].
  - destruct (Hdec x (or_introl eq_refl)) as [Hx | Hx].
    + destruct IH as [Hall | (y & Hy & Hny)].
      * intros y Hy. apply Hdec. now right.
      * left. intros y [<- | Hy]; auto.
      * right. exists y. split; [now right | assumption].
    + right. exists x. split; [now left | assumption].
Qed.

(** From the empty board with the human to move no win can be forced. *)
Lemma empty_board_not_lost :
  ~ HumanForcesWin GameController.winningConditions GameBoard.reset
      humanMarker.
Proof.
  apply (not_forced_by_score GameController.winningConditions _ _ 0
           (mkMove (Some 0) 0)).
  - now left.
  - lia.
  - reflexivity.
  - vm_cast_no_check
      (@eq_refl (res (option move)) (Ok (Some (mkMove (Some 0) 0)))).
  - simpl. lia.
Qed.

(** In a game from the empty board in which the AI answers on "hard", the
    human never gets a position from which a win can be forced; so the
    human never completes a line. *)
Lemma hard_play_never_lost (b : Board) :
  HardPlay b ->
  List.length b = 9%nat /\
  ~ HumanForcesWin GameController.winningConditions b humanMarker.
Proof.
  induction 1 as [| b i j random Hplay [Hnine Hsafe] HX HO Hi HX1 HO1
                    Hfree Hmove].
  - split; [reflexivity | apply empty_board_not_lost].
  - split; [now rewrite !length_assign |].
    assert (Hnine1 : (List.length (assign b i humanMarker) < 99)%nat)
      by (rewrite length_assign; lia).
    assert (Hopen : openNode GameController.winningConditions
                      (assign b i humanMarker)).
    { split; [assumption |]. split; [assumption |].
      now apply has_empty_cell. }
    destruct (hard_avoids_forced_win GameController.winningConditions
                (assign b i humanMarker) random Hnine1 Hopen)
      as (j' & Hmove' & _ & Hsafe').
    + destruct (all_or_some
                  (fun k => HumanForcesWin GameController.winningConditions
                              (assign (assign b i humanMarker) k aiMarker)
                              humanMarker)
                  (findEmptySpots (assign b i humanMarker)))
        as [Hall | (k & Hk & Hnot)].
      * intros k Hk. apply in_findEmptySpots in Hk.
        destruct (hard_child_sign GameController.winningConditions
                    (assign b i humanMarker) Hnine1 k Hk)
          as (m & _ & Hsign).
        destruct (Z_lt_dec (score m) 0) as [Hneg | Hpos];
          [left | right]; tauto.
      * exfalso. apply Hsafe.
        apply HumanForcesWin_human with (i := i); try assumption.
        apply HumanForcesWin_ai; try assumption.
        intros k Hk. apply Hall. now apply in_findEmptySpots.
      * exists k. split; [now apply in_findEmptySpots | assumption].
    + rewrite Hmove in Hmove'. injection Hmove' as <-. assumption.
Qed.

Lemma hard_play_human_never_wins (b : Board) (i : Z) :
  HardPlay b ->
  ~ hasWon GameController.winningConditions b humanMarker /\
  (~ hasWon GameController.winningConditions b aiMarker ->
   emptyCell b i ->
   ~ hasWon GameController.winningConditions (assign b i humanMarker)
       humanMarker).
Proof.
  intros Hplay. destruct (hard_play_never_lost b Hplay) as [_ Hsafe].
  assert (HX : ~ hasWon GameController.winningConditions b humanMarker).
  { intros Hwon. apply Hsafe. now apply HumanForcesWin_won. }
  split; [assumption |].
  intros HO Hi Hwon. apply Hsafe.
  apply HumanForcesWin_human with (i := i); try assumption.
  now apply HumanForcesWin_won.
Qed.

(** ** The guard of [getBestMove] *)

Lemma no_empty_cell (b : Board) :
  (forall i, ~ emptyCell b i) <-> findEmptySpots b = [].
Proof.
  split.
  - intros Hfull. destruct (findEmptySpots b) as [| i rest] eqn:Hspots;
      [reflexivity |].
    exfalso. apply (Hfull i). apply in_findEmptySpots. rewrite Hspots.
    now left.
  - intros Hnone i Hi. apply in_findEmptySpots in Hi. rewrite Hnone in Hi.
    destruct Hi.
Qed.

(** C4, as the code has it: on every board without an empty cell
    [getBestMove] returns -1 for every difficulty, and does so before any
    call of [minimax]: the result is the same with no call allowed. *)
Theorem getBestMove_on_full_board (lines : list condition) (b : Board)
  (difficulty : string) (random : Q) :
  (forall i, ~ emptyCell b i) ->
  AILogic.getBestMove lines b difficulty random = Ok (Some (-1)) /\
  AILogic.getBestMove_fuel lines 0 b difficulty random = Ok (Some (-1)).
Proof.
  intros Hfull. apply no_empty_cell in Hfull.
  unfold AILogic.getBestMove, AILogic.getBestMove_fuel.
  rewrite Hfull. split; reflexivity.
Qed.

Lemma getBestMove_on_full_board_witness :
  (forall i, ~ emptyCell ["X"; "O"; "X"; "X"; "O"; "O"; "O"; "X"; "X"] i) /\
  AILogic.getBestMove GameController.winningConditions
    ["X"; "O"; "X"; "X"; "O"; "O"; "O"; "X"; "X"] "hard" 0
  = Ok (Some (-1)) /\
  AILogic.getBestMove_fuel GameController.winningConditions 0
    ["X"; "O"; "X"; "X"; "O"; "O"; "O"; "X"; "X"] "hard" 0
  = Ok (Some (-1)).
Proof.
  assert (Hfull : forall i,
             ~ emptyCell ["X"; "O"; "X"; "X"; "O"; "O"; "O"; "X"; "X"] i).
  { apply no_empty_cell. reflexivity. }
  split; [exact Hfull |].
  exact (getBestMove_on_full_board GameController.winningConditions
           ["X"; "O"; "X"; "X"; "O"; "O"; "O"; "X"; "X"] "hard" 0 Hfull).
Defined.

(** C4, as the claim words it, fails on a board that has a winner and an
    empty cell: no win is tested in [getBestMove]; the hard tier returns
    the [undefined] index of the base case, the other tiers a cell. *)
Lemma getBestMove_on_won_board :
  hasWon GameController.winningConditions
    ["X"; "X"; "X"; "O"; "O"; ""; ""; ""; ""] humanMarker /\
  AILogic.getBestMove GameController.winningConditions
    ["X"; "X"; "X"; "O"; "O"; ""; ""; ""; ""] "hard" 0 = Ok None /\
  AILogic.getBestMove GameController.winningConditions
    ["X"; "X"; "X"; "O"; "O"; ""; ""; ""; ""] "medium" 0 = Ok (Some 5) /\
  AILogic.getBestMove GameController.winningConditions
    ["X"; "X"; "X"; "O"; "O"; ""; ""; ""; ""] "easy" 0 = Ok (Some 5).
Proof.
  split; [apply checkBoardWin_hasWon; reflexivity |].
  repeat split; vm_compute; reflexivity.
Qed.

(** ** The cell mutation *)

(** C5: [markCell] returns true and sets the addressed cell, and no other,
    to the marker when that cell is empty; it returns false and leaves the
    board as it is when the cell is occupied or the index is outside 0-8;
    so of two calls on the same empty cell only the first succeeds. *)
Theorem markCell_marks_empty_cells_only (b : Board) (index : Z)
  (playerMarker : string) :
  (emptyCell b index ->
   exists b', GameBoard.markCell b index playerMarker = (true, b') /\
     List.length b' = List.length b /\
     get b' index = Some playerMarker /\
     forall j, j <> index -> get b' j = get b j) /\
  ((exists s, get b index = Some s /\ s <> "") ->
   GameBoard.markCell b index playerMarker = (false, b)) /\
  (List.length b = 9%nat -> index < 0 \/ 8 < index ->
   GameBoard.markCell b index playerMarker = (false, b)) /\
  (emptyCell b index -> playerMarker <> "" ->
   forall again : string,
     fst (GameBoard.markCell b index playerMarker) = true /\
     GameBoard.markCell (snd (GameBoard.markCell b index playerMarker))
       index again
     = (false, snd (GameBoard.markCell b index playerMarker))).
Proof.
  unfold GameBoard.markCell, emptyCell.
  split; [| split; [| split]].
  - intros Hempty. rewrite Hempty. simpl.
    exists (assign b index playerMarker).
    split; [reflexivity |].
    split; [apply length_assign |].
    split; [now apply get_assign_same with (x := "") |].
    intros j Hj. apply get_assign_other. congruence.
  - intros (s & Hs & Hocc). rewrite Hs. simpl.
    destruct (String.eqb_spec s ""); [contradiction | reflexivity].
  - intros Hnine Hout.
    destruct (get b index) as [s |] eqn:Hget; [| reflexivity].
    apply get_range in Hget. unfold len in Hget. exfalso. lia.
  - intros Hempty Hmarker again. rewrite Hempty. simpl.
    split; [reflexivity |].
    rewrite (get_assign_same b index "" playerMarker Hempty). simpl.
    destruct (String.eqb_spec playerMarker ""); [contradiction | reflexivity].
Qed.

Lemma markCell_marks_empty_cells_only_witness :
  emptyCell GameBoard.reset 4 /\
  GameBoard.markCell GameBoard.reset 4 "X"
  = (true, [""; ""; ""; ""; "X"; ""; ""; ""; ""]) /\
  GameBoard.markCell [""; ""; ""; ""; "X"; ""; ""; ""; ""] 4 "O"
  = (false, [""; ""; ""; ""; "X"; ""; ""; ""; ""]) /\
  GameBoard.markCell GameBoard.reset 9 "X" = (false, GameBoard.reset).
Proof.
  assert (Hempty : emptyCell GameBoard.reset 4) by reflexivity.
  assert (Hmarker : "X" <> "") by discriminate.
  assert (Hoff : 9 < 0 \/ 8 < 9) by (right; lia).
  pose proof (markCell_marks_empty_cells_only GameBoard.reset 4 "X")
    as (_ & _ & _ & Htwice).
  pose proof (markCell_marks_empty_cells_only GameBoard.reset 9 "X")
    as (_ & _ & Hout & _).
  split; [exact Hempty |].
  split; [reflexivity |].
  split; [exact (proj2 (Htwice Hempty Hmarker "O")) |].
  exact (Hout eq_refl Hoff).
Defined.

(** ** The strategic move *)

(** The test [findStrategicMove] makes on a line is the one the
    specification words for [findTwoInARowGap]. *)
Lemma strategic_line (marker : string) (va vb vc : option string)
  (x y z : Z) :
  marker <> "" ->
  (if negb (findIndex (fun cell => strict_eq cell "") [va; vb; vc] =? -1)
      && (len (filter (fun cell => strict_eq cell marker) [va; vb; vc]) =? 2)
   then Some (condition_at (x, y, z)
                (findIndex (fun cell => strict_eq cell "") [va; vb; vc]))
   else None)
  = (if strict_eq va "" && strict_eq vb marker && strict_eq vc marker
     then Some x
     else if strict_eq va marker && strict_eq vb "" && strict_eq vc marker
     then Some y
     else if strict_eq va marker && strict_eq vb marker && strict_eq vc ""
     then Some z
     else None).
Proof.
  intros Hmarker.
  assert (Hexcl : forall v, strict_eq v "" = true ->
                            strict_eq v marker = false).
  { intros v Hv. apply strict_eq_true in Hv. subst v. cbn [strict_eq].
    destruct (String.eqb_spec "" marker); congruence. }
  unfold findIndex, len. cbn [findIndex_from filter].
  destruct (strict_eq va "") eqn:Ea; [rewrite (Hexcl va Ea) |];
    (destruct (strict_eq vb "") eqn:Eb; [rewrite (Hexcl vb Eb) |]);
    (destruct (strict_eq vc "") eqn:Ec; [rewrite (Hexcl vc Ec) |]);
    try destruct (strict_eq va marker);
    try destruct (strict_eq vb marker);
    try destruct (strict_eq vc marker);
    reflexivity.
Qed.

Lemma findStrategicMove_gap (lines : list condition) (b : Board)
  (marker : string) :
  marker <> "" ->
  findStrategicMove b marker lines =
  match findTwoInARowGap lines b marker with
  | Some i => i
  | None => -1
  end.
Proof.
  intros Hmarker. unfold findTwoInARowGap.
  induction lines as [| [[x y] z] rest IH]; [reflexivity |].
  cbn [findStrategicMove findTwoInARowGap_in gap_of_line].
  pose proof (strategic_line marker (get b x) (get b y) (get b z) x y z
                Hmarker) as Hline.
  rewrite <- Hline.
  destruct (negb (findIndex (fun cell => strict_eq cell "")
                    [get b x; get b y; get b z] =? -1)
            && (len (filter (fun cell => strict_eq cell marker)
                       [get b x; get b y; get b z]) =? 2));
    [reflexivity | exact IH].
Qed.

(** A gap is an empty cell on a line whose two other cells hold the
    marker. *)
Lemma gap_of_line_sound (b : Board) (marker : string) (cond : condition)
  (i : Z) :
  gap_of_line b marker cond = Some i ->
  emptyCell b i /\
  exists x y z, cond = (x, y, z) /\
    ((i = x /\ get b y = Some marker /\ get b z = Some marker) \/
     (i = y /\ get b x = Some marker /\ get b z = Some marker) \/
     (i = z /\ get b x = Some marker /\ get b y = Some marker)).
Proof.
  destruct cond as [[x y] z]. unfold gap_of_line, emptyCell.
  destruct (strict_eq (get b x) "" && strict_eq (get b y) marker
            && strict_eq (get b z) marker) eqn:H1.
  { intros [= ->]. apply andb_prop in H1 as [H1 Hz].
    apply andb_prop in H1 as [Hx Hy]. apply strict_eq_true in Hx, Hy, Hz.
    split; [assumption |]. exists i, y, z. auto. }
  destruct (strict_eq (get b x) marker && strict_eq (get b y) ""
            && strict_eq (get b z) marker) eqn:H2.
  { intros [= ->]. apply andb_prop in H2 as [H2 Hz].
    apply andb_prop in H2 as [Hx Hy]. apply strict_eq_true in Hx, Hy, Hz.
    split; [assumption |]. exists x, i, z. auto 6. }
  destruct (strict_eq (get b x) marker && strict_eq (get b y) marker
            && strict_eq (get b z) "") eqn:H3; [| discriminate].
  intros [= ->]. apply andb_prop in H3 as [H3 Hz].
  apply andb_prop in H3 as [Hx Hy]. apply strict_eq_true in Hx, Hy, Hz.
  split; [assumption |]. exists x, y, i. auto 7.
Qed.

Lemma findTwoInARowGap_empty (lines : list condition) (b : Board)
  (marker : string) (i : Z) :
  findTwoInARowGap lines b marker = Some i -> emptyCell b i.
Proof.
  unfold findTwoInARowGap.
  induction lines as [| cond rest IH]; simpl; [discriminate |].
  destruct (gap_of_line b marker cond) as [k |] eqn:Hgap; [| exact IH].
  intros [= <-]. now apply gap_of_line_sound in Hgap.
Qed.

Lemma emptyCell_index (b : Board) (i : Z) :
  emptyCell b i -> 0 <= i < len b.
Proof. apply get_range. Qed.

(** ** The random draw *)

Lemma round_even_spec (p s : Z) :
  0 <= p -> 0 <= s ->
  let q := round_even p s in
  p / 2 ^ s <= q <= p / 2 ^ s + 1 /\
  2 * (q * 2 ^ s) <= 2 * p + 2 ^ s /\
  2 * p <= 2 * (q * 2 ^ s) + 2 ^ s /\
  q * 2 ^ s < p + 2 ^ s.
Proof.
  intros Hp Hs. cbv zeta. unfold round_even.
  assert (HP : 0 < 2 ^ s) by (apply Z.pow_pos_nonneg; lia).
  pose proof (Z.div_mod p (2 ^ s) ltac:(lia)) as Hdiv.
  pose proof (Z.mod_pos_bound p (2 ^ s) HP) as Hmod.
  destruct (Z.compare_spec (2 * (p mod 2 ^ s)) (2 ^ s)) as [Heq | Hlt | Hgt];
    [destruct (Z.even (p / 2 ^ s)) | |]; nia.
Qed.

Lemma shift_exponent (s : Z) (p : Z) :
  0 <= p -> s = Z.max 0 (Z.log2 p - 52) ->
  0 <= s /\ p < 2 ^ (s + 53) /\ (0 < s -> 2 ^ (s + 52) <= p).
Proof.
  intros Hp ->. split; [lia |].
  destruct (Z.eq_dec p 0) as [-> | Hne].
  { cbn. split; [reflexivity | lia]. }
  pose proof (Z.log2_spec p ltac:(lia)) as [Hlow Hhigh].
  pose proof (Z.log2_nonneg p) as Hlog.
  split.
  - apply Z.lt_le_trans with (2 ^ Z.succ (Z.log2 p)); [assumption |].
    apply Z.pow_le_mono_r; lia.
  - intros Hs. replace (Z.max 0 (Z.log2 p - 52) + 52) with (Z.log2 p) by lia.
    assumption.
Qed.

(** The product, rounded, against the multiples of 2^e. *)
Lemma rounded_product (m e n : Z) :
  0 <= m < 2 ^ 53 -> 0 <= e -> 0 < n ->
  let p := m * n in
  let s := Z.max 0 (Z.log2 p - 52) in
  let q := round_even p s in
  forall K,
    (q * 2 ^ s < K * 2 ^ e -> floor_of_product m e n < K) /\
    (K * 2 ^ e <= q * 2 ^ s -> K <= floor_of_product m e n).
Proof.
  intros Hm He Hn. cbv zeta. intros K. unfold floor_of_product.
  set (p := m * n). set (s := Z.max 0 (Z.log2 p - 52)).
  set (q := round_even p s).
  assert (Hs : 0 <= s) by (unfold s; lia).
  destruct (Z.leb_spec e s) as [Hes | Hes].
  - replace (2 ^ s) with (2 ^ (s - e) * 2 ^ e)
      by (rewrite <- Z.pow_add_r by lia; f_equal; lia).
    assert (0 < 2 ^ e) by (apply Z.pow_pos_nonneg; lia).
    split; intros H1; nia.
  - replace (2 ^ e) with (2 ^ (e - s) * 2 ^ s)
      by (rewrite <- Z.pow_add_r by lia; f_equal; lia).
    assert (0 < 2 ^ s) by (apply Z.pow_pos_nonneg; lia).
    assert (HD : 0 < 2 ^ (e - s)) by (apply Z.pow_pos_nonneg; lia).
    split; intros H1.
    + apply Z.div_lt_upper_bound; [assumption |]. nia.
    + apply Z.div_le_lower_bound; [assumption |]. nia.
Qed.

Lemma floor_of_product_range (m e n : Z) :
  0 <= m < 2 ^ 53 -> 0 <= e -> m < 2 ^ e -> 0 < n ->
  0 <= floor_of_product m e n < n.
Proof.
  intros Hm He Hone Hn.
  pose proof (rounded_product m e n Hm He Hn) as Hround. cbv zeta in Hround.
  assert (Hp : 0 <= m * n) by nia.
  assert (Hprod : m * n <= (2 ^ e - 1) * n) by nia.
  assert (Hbits : m * n < 2 ^ 53 * n) by nia.
  revert Hround Hp Hprod Hbits. generalize (m * n). intros p Hround Hp Hprod Hbits.
  destruct (shift_exponent _ p Hp eq_refl) as (Hs & Hhigh & Hlow).
  revert Hround Hs Hhigh Hlow. generalize (Z.max 0 (Z.log2 p - 52)).
  intros s Hround Hs Hhigh Hlow.
  destruct (round_even_spec p s Hp Hs) as (Hq & Hup & Hdown & Hceil).
  cbv zeta in Hq, Hup, Hdown, Hceil.
  revert Hround Hq Hup Hdown Hceil. generalize (round_even p s).
  intros q Hround Hq Hup Hdown Hceil.
  assert (HP : 0 < 2 ^ s) by (apply Z.pow_pos_nonneg; lia).
  assert (HE : 0 < 2 ^ e) by (apply Z.pow_pos_nonneg; lia).
  assert (H0 : 0 <= p / 2 ^ s) by (apply Z.div_pos; lia).
  split.
  - apply (Hround 0). rewrite Z.mul_0_l.
    apply Z.mul_nonneg_nonneg; [| now apply Z.lt_le_incl].
    apply Z.le_trans with (p / 2 ^ s); [assumption | apply Hq].
  - apply (Hround n).
    (* half a unit of the rounding is less than n *)
    assert (Hhalf : 2 ^ s < 2 * n).
    { destruct (Z.eq_dec s 0) as [-> | Hne]; [change (2 ^ 0) with 1; lia |].
      specialize (Hlow ltac:(lia)).
      replace (2 ^ (s + 52)) with (2 ^ s * 2 ^ 52) in Hlow
        by (rewrite <- Z.pow_add_r; lia).
      change (2 ^ 53) with (2 * 2 ^ 52) in Hbits.
      assert (0 < 2 ^ 52) by reflexivity.
      assert (2 ^ s * 2 ^ 52 < 2 * n * 2 ^ 52) by lia.
      apply Z.mul_lt_mono_pos_r with (2 ^ 52); assumption. }
    lia.
Qed.

(** Where the floor of the rounded product is, against the floor of the
    product: the same, or one more when the product is that close to the
    next integer. *)
Lemma floor_of_product_near (m e n K : Z) :
  0 <= m < 2 ^ 53 -> 0 <= e -> m < 2 ^ e -> 0 < n <= 2 ^ 53 ->
  (K * 2 ^ e <= m * n -> K <= floor_of_product m e n) /\
  (m * n < K * 2 ^ e -> floor_of_product m e n <= K) /\
  (m * n * (2 ^ 53 + 1) < K * 2 ^ e * 2 ^ 53 -> floor_of_product m e n < K).
Proof.
  intros Hm He Hone Hn.
  pose proof (rounded_product m e n Hm He ltac:(lia)) as Hround.
  cbv zeta in Hround.
  assert (Hp : 0 <= m * n) by nia.
  assert (HE : 0 < 2 ^ e) by (apply Z.pow_pos_nonneg; lia).
  assert (Hsmall : m * n < 2 ^ e * 2 ^ 53).
  { apply Z.le_lt_trans with (m * 2 ^ 53); [nia |].
    apply Z.mul_lt_mono_pos_r; [reflexivity | assumption]. }
  revert Hround Hp Hsmall. generalize (m * n). intros p Hround Hp Hsmall.
  destruct (shift_exponent _ p Hp eq_refl) as (Hs & Hhigh & Hlow).
  revert Hround Hs Hhigh Hlow. generalize (Z.max 0 (Z.log2 p - 52)).
  intros s Hround Hs Hhigh Hlow.
  destruct (round_even_spec p s Hp Hs) as (Hq & Hup & Hdown & Hceil).
  cbv zeta in Hq, Hup, Hdown, Hceil.
  assert (Hexact : s = 0 -> round_even p s = p).
  { intros ->. unfold round_even. change (2 ^ 0) with 1.
    rewrite Z.mod_1_r, Z.div_1_r. reflexivity. }
  revert Hround Hq Hup Hdown Hceil Hexact. generalize (round_even p s).
  intros q Hround Hq Hup Hdown Hceil Hexact.
  assert (HP : 0 < 2 ^ s) by (apply Z.pow_pos_nonneg; lia).
  (* the product is below 2^53, so that its unit is at most 2^e *)
  assert (Hse : s <= e).
  { destruct (Z.eq_dec s 0) as [-> | Hne]; [assumption |].
    specialize (Hlow ltac:(lia)).
    assert (Hpow : 2 ^ (s + 52) < 2 ^ (e + 53))
      by (rewrite (Z.pow_add_r 2 e 53) by lia; lia).
    apply Z.pow_lt_mono_r_iff in Hpow; lia. }
  assert (Hsplit : 2 ^ e = 2 ^ (e - s) * 2 ^ s)
    by (rewrite <- Z.pow_add_r by lia; f_equal; lia).
  assert (HD : 0 < 2 ^ (e - s)) by (apply Z.pow_pos_nonneg; lia).
  split; [| split].
  - intros HK. apply (Hround K).
    assert (K * 2 ^ (e - s) <= p / 2 ^ s)
      by (apply Z.div_le_lower_bound; [assumption |]; nia).
    nia.
  - intros HK.
    assert (Hlt : floor_of_product m e n < K + 1); [| lia].
    apply (Hround (K + 1)).
    assert (q < K * 2 ^ (e - s) + 1) by nia.
    nia.
  - intros HK. apply (Hround K).
    destruct (Z.eq_dec s 0) as [Hzero | Hne].
    + rewrite (Hexact Hzero). subst s. change (2 ^ 0) with 1.
      assert (0 < 2 ^ 53) by reflexivity. nia.
    + specialize (Hlow ltac:(lia)).
      replace (2 ^ (s + 52)) with (2 ^ s * 2 ^ 52) in Hlow
        by (rewrite <- Z.pow_add_r; lia).
      change (2 ^ 53) with (2 * 2 ^ 52) in HK.
      assert (0 < 2 ^ 52) by reflexivity.
      assert (2 ^ 52 * (2 * (q * 2 ^ s)) <= 2 ^ 52 * (2 * p) + p) by nia.
      nia.
Qed.

Lemma to_double_spec (x : Q) :
  (0 <= x)%Q -> (x < 1)%Q ->
  let (m, e) := to_double x in
  0 <= m < 2 ^ 53 /\ 53 <= e <= 1074 /\ m < 2 ^ e /\
  m * Zpos (Qden x) <= Qnum x * 2 ^ e.
Proof.
  destruct x as [a d]. unfold Qle, Qlt, to_double. cbn [Qnum Qden].
  intros Hlow Hhigh.
  assert (HP : 0 < 2 ^ 1074) by (apply Z.pow_pos_nonneg; lia).
  pose proof (Z.div_mod (a * 2 ^ 1074) (Zpos d) ltac:(lia)) as Hdiv.
  pose proof (Z.mod_pos_bound (a * 2 ^ 1074) (Zpos d) ltac:(lia)) as Hmod.
  revert Hdiv Hmod.
  generalize (a * 2 ^ 1074 mod Zpos d). generalize (a * 2 ^ 1074 / Zpos d).
  intros t r Hdiv Hmod.
  assert (Ht : 0 <= t < 2 ^ 1074) by nia.
  destruct (shift_exponent (Z.max 0 (Z.log2 t - 52)) t ltac:(lia) eq_refl)
    as (Hs & Hupper & Hlower).
  assert (Hs' : Z.max 0 (Z.log2 t - 52) <= 1021).
  { destruct (Z.eq_dec t 0) as [-> | Hpos]; [cbn; lia |].
    assert (Z.log2 t < 1074) by (apply Z.log2_lt_pow2; lia). lia. }
  revert Hs Hupper Hlower Hs'. generalize (Z.max 0 (Z.log2 t - 52)).
  intros s Hs Hupper Hlower Hs'.
  assert (HS : 0 < 2 ^ s) by (apply Z.pow_pos_nonneg; lia).
  pose proof (Z.div_mod t (2 ^ s) ltac:(lia)) as Hdiv'.
  pose proof (Z.mod_pos_bound t (2 ^ s) ltac:(lia)) as Hmod'.
  revert Hdiv' Hmod'. generalize (t mod 2 ^ s). generalize (t / 2 ^ s).
  intros m r' Hdiv' Hmod'.
  rewrite Z.pow_add_r in Hupper by lia.
  assert (Hm : 0 <= m < 2 ^ 53) by nia.
  assert (He : 2 ^ 53 <= 2 ^ (1074 - s)) by (apply Z.pow_le_mono_r; lia).
  split; [assumption |]. split; [lia |]. split; [lia |].
  assert (Hsplit : 2 ^ 1074 = 2 ^ (1074 - s) * 2 ^ s).
  { rewrite <- Z.pow_add_r by lia. f_equal. lia. }
  assert (HE : 0 < 2 ^ (1074 - s)) by lia.
  revert Hsplit HE. generalize (2 ^ (1074 - s)). intros E Hsplit HE.
  rewrite Hsplit in Hdiv.
  apply Z.mul_le_mono_pos_r with (2 ^ s); [assumption |]. nia.
Qed.

(** The order of a fraction times an integer and an integer. *)
Lemma Qmult_compare (x : Q) (a b : Z) :
  ((inject_Z a <= x * inject_Z b)%Q <-> a * Zpos (Qden x) <= Qnum x * b) /\
  ((x * inject_Z b < inject_Z a)%Q <-> Qnum x * b < a * Zpos (Qden x)).
Proof.
  unfold Qle, Qlt, Qmult, inject_Z. cbn [Qnum Qden].
  rewrite !Pos.mul_1_r, !Z.mul_1_r. split; reflexivity.
Qed.

Lemma random_position_range (random : Q) (n : Z) :
  (0 <= random)%Q -> (random < 1)%Q -> 0 < n ->
  0 <= random_position random n < n.
Proof.
  intros Hlow Hhigh Hn. pose proof (to_double_spec random Hlow Hhigh) as H.
  unfold random_position. destruct (to_double random) as [m e].
  destruct H as (Hm & He & Hunit & _).
  apply floor_of_product_range; lia.
Qed.

(** The position a draw selects among [n] is the floor of draw * n, or one
    more when the product is within its 2^53-th part of the next
    integer. *)
Lemma random_position_near (random : Q) (n k : Z) :
  (0 <= random)%Q -> (random < 1)%Q -> 0 < n <= 2 ^ 53 ->
  ((random * inject_Z n * (1 + (1 # 2 ^ 53)) < inject_Z k)%Q ->
   random_position random n < k) /\
  (double random -> (inject_Z k <= random * inject_Z n)%Q ->
   k <= random_position random n).
Proof.
  intros Hlow Hhigh Hn. pose proof (to_double_spec random Hlow Hhigh) as H.
  unfold random_position, double. destruct (to_double random) as [m e].
  destruct H as (Hm & He & Hunit & Hbelow).
  destruct (floor_of_product_near m e n k Hm ltac:(lia) Hunit Hn)
    as (Hleast & _ & Hless).
  assert (HE : 0 < 2 ^ e) by (apply Z.pow_pos_nonneg; lia).
  split.
  - intros H. apply Hless.
    assert (Hq : (random * inject_Z (n * (2 ^ 53 + 1))
                  < inject_Z (k * 2 ^ 53))%Q).
    { rewrite !inject_Z_mult.
      setoid_replace (inject_Z (2 ^ 53 + 1))
        with ((1 + (1 # 2 ^ 53)) * inject_Z (2 ^ 53))%Q by reflexivity.
      rewrite !Qmult_assoc.
      apply Qmult_lt_compat_r; [vm_compute; reflexivity |].
      exact H. }
    apply (proj1 (proj2 (Qmult_compare random (k * 2 ^ 53)
                           (n * (2 ^ 53 + 1))))) in Hq.
    revert Hbelow Hq HE. generalize (2 ^ e) (Zpos (Qden random)) (Qnum random)
      (Pos2Z.is_pos (Qden random)).
    intros E d a Hd Hbelow Hq HE.
    assert (H53 : 0 < 2 ^ 53 + 1) by reflexivity.
    revert H53 Hq. generalize (2 ^ 53 + 1). intros u Hu.
    generalize (2 ^ 53). intros v Hq.
    apply Z.mul_lt_mono_pos_r with d; [assumption |].
    apply Z.le_lt_trans with (a * (n * u) * E);
      [| replace (k * E * v * d) with (k * v * d * E) by ring;
         apply (proj1 (Z.mul_lt_mono_pos_r E _ _ HE)); exact Hq].
    replace (m * n * u * d) with (m * d * (n * u)) by ring.
    replace (a * (n * u) * E) with (a * E * (n * u)) by ring.
    apply Z.mul_le_mono_nonneg_r; [nia | assumption].
  - intros Hdouble H. apply Hleast.
    apply (proj1 (proj1 (Qmult_compare random k n))) in H.
    revert Hdouble H HE. generalize (2 ^ e) (Zpos (Qden random)) (Qnum random)
      (Pos2Z.is_pos (Qden random)).
    intros E d a Hd Hdouble H HE.
    apply Z.mul_le_mono_pos_r with d; [assumption |].
    replace (m * n * d) with (m * d * n) by ring. rewrite <- Hdouble.
    nia.
Qed.

(** The doubles that select position [k] among [n] are those whose product
    with [n] lies from [k] up to [k + 1], to its 2^53-th part. *)
Lemma random_position_draws (random : Q) (n k : Z) :
  double random -> (0 <= random)%Q -> (random < 1)%Q -> 0 < n <= 2 ^ 53 ->
  ((inject_Z k <= random * inject_Z n /\
    random * inject_Z n * (1 + (1 # 2 ^ 53)) < inject_Z (k + 1))%Q ->
   random_position random n = k) /\
  (random_position random n = k ->
   (inject_Z k <= random * inject_Z n * (1 + (1 # 2 ^ 53)) /\
    random * inject_Z n < inject_Z (k + 1))%Q).
Proof.
  intros Hdouble Hlow Hhigh Hn.
  pose proof (random_position_near random n k Hlow Hhigh Hn) as [Hk1 Hk2].
  pose proof (random_position_near random n (k + 1) Hlow Hhigh Hn)
    as [Hs1 Hs2].
  split.
  - intros [Hleast Hless]. specialize (Hk2 Hdouble Hleast).
    specialize (Hs1 Hless). lia.
  - intros Hpos. split.
    + destruct (Qlt_le_dec (random * inject_Z n * (1 + (1 # 2 ^ 53)))
                  (inject_Z k)) as [Hlt | Hle]; [| assumption].
      specialize (Hk1 Hlt). lia.
    + destruct (Qlt_le_dec (random * inject_Z n) (inject_Z (k + 1)))
        as [Hlt | Hle]; [assumption |].
      specialize (Hs2 Hdouble Hle). lia.
Qed.

(** The fractions of 53 bits over a power of two are doubles. *)
Lemma double_dyadic (m j : Z) :
  0 <= m < 2 ^ 53 -> 0 <= j <= 1074 -> double (m # Z.to_pos (2 ^ j)).
Proof.
  intros Hm Hj. unfold double, to_double. cbn [Qnum Qden].
  assert (HP : 0 < 2 ^ j) by (apply Z.pow_pos_nonneg; lia).
  rewrite Z2Pos.id by assumption.
  assert (Ht : m * 2 ^ 1074 / 2 ^ j = m * 2 ^ (1074 - j)).
  { replace (2 ^ 1074) with (2 ^ (1074 - j) * 2 ^ j)
      by (rewrite <- Z.pow_add_r by lia; f_equal; lia).
    rewrite Z.mul_assoc. apply Z.div_mul. lia. }
  rewrite Ht. clear Ht.
  assert (HJ : 0 < 2 ^ (1074 - j)) by (apply Z.pow_pos_nonneg; lia).
  destruct (Z.eq_dec m 0) as [-> | Hpos]; [reflexivity |].
  rewrite Z.log2_mul_pow2 by lia.
  assert (Hlog : Z.log2 m < 53) by (apply Z.log2_lt_pow2; lia).
  pose proof (Z.log2_nonneg m) as Hnonneg.
  set (s := Z.max 0 (1074 - j + Z.log2 m - 52)).
  assert (Hs : 0 <= s <= 1074 - j) by lia.
  clearbody s.
  assert (Hexact : m * 2 ^ (1074 - j) = m * 2 ^ (1074 - j - s) * 2 ^ s).
  { rewrite <- Z.mul_assoc, <- Z.pow_add_r by lia. do 2 f_equal. lia. }
  rewrite Hexact, Z.div_mul by (apply Z.pow_nonzero; lia).
  replace (1074 - s) with (1074 - j - s + j) by lia.
  rewrite Z.pow_add_r by lia. ring.
Qed.

(** Every position among [n] is selected by some draw. *)
Lemma random_position_draw (n k : Z) :
  0 <= k < n -> n <= 2 ^ 52 ->
  exists draw,
    double draw /\ (0 <= draw)%Q /\ (draw < 1)%Q /\
    random_position draw n = k.
Proof.
  intros Hk Hn.
  set (M := (k * 2 ^ 53 + n - 1) / n).
  assert (Hceil : k * 2 ^ 53 <= M * n < k * 2 ^ 53 + n).
  { unfold M.
    pose proof (Z.div_mod (k * 2 ^ 53 + n - 1) n ltac:(lia)) as Hdiv.
    pose proof (Z.mod_pos_bound (k * 2 ^ 53 + n - 1) n ltac:(lia)) as Hmod.
    nia. }
  clearbody M.
  assert (H53 : 0 < 2 ^ 53) by reflexivity.
  assert (HM : 0 <= M < 2 ^ 53) by nia.
  exists (M # Z.to_pos (2 ^ 53)).
  assert (Hdouble : double (M # Z.to_pos (2 ^ 53)))
    by (apply double_dyadic; lia).
  assert (Hzero : (0 <= M # Z.to_pos (2 ^ 53))%Q)
    by (unfold Qle; cbn [Qnum Qden]; lia).
  assert (Hone : (M # Z.to_pos (2 ^ 53) < 1)%Q).
  { unfold Qlt. cbn [Qnum Qden]. change (Zpos (Z.to_pos (2 ^ 53)))
      with (2 ^ 53). lia. }
  split; [assumption |]. split; [assumption |]. split; [assumption |].
  apply random_position_draws; [assumption .. | lia |].
  split.
  - unfold Qle, Qmult, inject_Z. cbn [Qnum Qden].
    change (Zpos (Z.to_pos (2 ^ 53) * 1)) with (2 ^ 53). lia.
  - unfold Qlt, Qmult, Qplus, inject_Z. cbn [Qnum Qden].
    change (Zpos (Z.to_pos (2 ^ 53) * 1 * (1 * 2 ^ 53)))
      with (2 ^ 53 * 2 ^ 53).
    change (Zpos (2 ^ 53)) with (2 ^ 53).
    change (Zpos 1) with 1.
    assert (H52 : n <= 2 ^ 52) by assumption.
    change (2 ^ 53) with (2 * 2 ^ 52) in *.
    assert (0 < 2 ^ 52) by reflexivity.
    nia.
Qed.

(** The rounding at the draws 0.5714285714285714 and 0.6, whose products
    with 7 and 5 are the doubles 4 and 3, and at other draws: the position
    is the one of the library's IEEE 754 multiplication. *)
Lemma random_position_examples :
  random_position (2573485501354569 # 2 ^ 52) 7 = 4 /\
  ieee_floor_of_product 2573485501354569 52 7 = Some 4 /\
  random_position (5404319552844595 # 2 ^ 53) 5 = 3 /\
  ieee_floor_of_product 5404319552844595 53 5 = Some 3 /\
  random_position (1 # 2) 7 = 3 /\
  ieee_floor_of_product 1 1 7 = Some 3 /\
  random_position (9007199254740991 # 2 ^ 53) 9 = 8 /\
  ieee_floor_of_product 9007199254740991 53 9 = Some 8 /\
  random_position (1 # 2 ^ 1074) 9 = 0 /\
  ieee_floor_of_product 1 1074 9 = Some 0.
Proof. vm_compute. repeat split. Qed.

(** For every number of empty cells of a board of nine, on the doubles
    next to each boundary between two positions the position is the one
    of the library's IEEE 754 multiplication. *)
Lemma random_position_ieee :
  forallb (fun n =>
    forallb (fun m =>
      match ieee_floor_of_product m 53 n with
      | Some k => random_position (Zpos m # 2 ^ 53) (Zpos n) =? k
      | None => false
      end) (boundary_draws n))
    [1; 2; 3; 4; 5; 6; 7; 8; 9]%positive
  = true.
Proof. vm_compute. reflexivity. Qed.

Lemma get_in_range {A : Type} (arr : list A) (k : Z) :
  0 <= k < len arr -> exists x, get arr k = Some x /\ In x arr.
Proof.
  intros Hk. unfold get, len in *.
  destruct (Z.ltb_spec k 0); [lia |].
  destruct (nth_error arr (Z.to_nat k)) as [x |] eqn:Hnth.
  - exists x. split; [reflexivity |]. now apply nth_error_In in Hnth.
  - apply nth_error_None in Hnth. lia.
Qed.

Lemma in_get {A : Type} (arr : list A) (x : A) :
  In x arr -> exists k, 0 <= k < len arr /\ get arr k = Some x.
Proof.
  intros Hin. apply In_nth_error in Hin as [n Hn].
  exists (Z.of_nat n). rewrite get_of_nat. split; [| assumption].
  assert ((n < List.length arr)%nat)
    by (apply nth_error_Some; congruence).
  unfold len. lia.
Qed.

Lemma sorted_NoDup (l : list Z) : StronglySorted Z.lt l -> NoDup l.
Proof.
  induction 1 as [| x l Hsorted IH Hall]; constructor; [| assumption].
  intros Hin. rewrite Forall_forall in Hall. specialize (Hall x Hin). lia.
Qed.

(** An empty cell has one position among the empty cells. *)
Lemma findEmptySpots_position (b : Board) (j k i : Z) :
  get (findEmptySpots b) j = Some i -> get (findEmptySpots b) k = Some i ->
  j = k.
Proof.
  intros Hj Hk.
  assert (Hnodup : NoDup (findEmptySpots b)).
  { rewrite findEmptySpots_spots. apply sorted_NoDup, spots_from_sorted. lia. }
  pose proof (get_range _ _ _ Hj) as Hjr.
  pose proof (get_range _ _ _ Hk) as Hkr.
  unfold get in Hj, Hk.
  destruct (Z.ltb_spec j 0); [lia |]. destruct (Z.ltb_spec k 0); [lia |].
  rewrite NoDup_nth_error in Hnodup.
  assert (Z.to_nat j = Z.to_nat k); [| lia].
  apply Hnodup; [unfold len in Hjr; lia | congruence].
Qed.

(** The random fallback of [getBestMove] returns an empty cell. *)
Lemma random_spot (b : Board) (random : Q) :
  (0 <= random)%Q -> (random < 1)%Q -> findEmptySpots b <> [] ->
  exists i,
    get (findEmptySpots b)
      (random_position random (len (findEmptySpots b))) = Some i /\
    emptyCell b i.
Proof.
  intros Hlow Hhigh Hspots.
  assert (Hn : 0 < len (findEmptySpots b)).
  { unfold len. destruct (findEmptySpots b); [congruence | simpl; lia]. }
  destruct (get_in_range (findEmptySpots b)
              (random_position random (len (findEmptySpots b))))
    as (i & Hi & Hin).
  { now apply random_position_range. }
  exists i. split; [assumption | now apply in_findEmptySpots].
Qed.

(** ** The difficulty policy *)

Lemma gap_is_index (lines : list condition) (b : Board) (marker : string)
  (i : Z) :
  findTwoInARowGap lines b marker = Some i -> (i =? -1) = false.
Proof.
  intros Hgap. apply findTwoInARowGap_empty, emptyCell_index in Hgap.
  apply Z.eqb_neq. lia.
Qed.

(** Below the hard tier [getBestMove] is a chain of the two gaps, the
    center and the random spot. *)
Lemma getBestMove_chain (lines : list condition) (b : Board)
  (difficulty : string) (random : Q) :
  findEmptySpots b <> [] -> String.eqb difficulty "hard" = false ->
  AILogic.getBestMove lines b difficulty random =
  match findTwoInARowGap lines b aiMarker with
  | Some win => Ok (Some win)
  | None =>
      if String.eqb difficulty "medium"
      then
        match findTwoInARowGap lines b humanMarker with
        | Some block => Ok (Some block)
        | None =>
            if strict_eq (get b 4) "" then Ok (Some 4)
            else Ok (get (findEmptySpots b)
                       (random_position random (len (findEmptySpots b))))
        end
      else Ok (get (findEmptySpots b)
                 (random_position random (len (findEmptySpots b))))
  end.
Proof.
  intros Hspots Hhard.
  unfold AILogic.getBestMove, AILogic.getBestMove_fuel.
  destruct (len (findEmptySpots b) =? 0) eqn:Hlen;
    [apply len_zero in Hlen; contradiction |].
  rewrite Hhard.
  rewrite !findStrategicMove_gap by discriminate.
  change "X" with humanMarker.
  destruct (findTwoInARowGap lines b aiMarker) as [win |] eqn:Hwin.
  { now rewrite (gap_is_index _ _ _ _ Hwin). }
  change (-1 =? -1) with true. cbn [negb].
  destruct (findTwoInARowGap lines b humanMarker) as [block |] eqn:Hblock.
  - rewrite (gap_is_index _ _ _ _ Hblock). cbn [negb andb].
    destruct (String.eqb difficulty "medium"); [reflexivity |].
    now rewrite andb_false_r.
  - change (-1 =? -1) with true. cbn [negb andb].
    destruct (String.eqb difficulty "medium");
      [rewrite andb_true_r | rewrite andb_false_r]; reflexivity.
Qed.

(** C6: on a board with an empty cell the medium tier returns the gap of
    the AI's marker when there is one (the first line of the fixed order
    that has a gap); else the gap of the opponent's marker; else index 4
    when the center is empty; else the empty cell the random draw selects,
    the one at the position [Math.floor(Math.random() * n)] among the n
    empty cells. On X, X, _, _, O, _, _, _, _ it returns 2. On
    X, O, _, _, O, _, _, X, _ and the draw 0.6 it returns 6, the cell at
    position 3 of the five empty ones: the product of the doubles 0.6 and
    5 is the double 3. *)
Theorem medium_priority_chain :
  (forall (lines : list condition) (b : Board) (random : Q),
      (exists i, emptyCell b i) ->
      (0 <= random)%Q -> (random < 1)%Q ->
      match findTwoInARowGap lines b aiMarker with
      | Some win =>
          AILogic.getBestMove lines b "medium" random = Ok (Some win)
      | None =>
          match findTwoInARowGap lines b humanMarker with
          | Some block =>
              AILogic.getBestMove lines b "medium" random = Ok (Some block)
          | None =>
              (emptyCell b 4 ->
               AILogic.getBestMove lines b "medium" random = Ok (Some 4)) /\
              (~ emptyCell b 4 ->
               exists i,
                 AILogic.getBestMove lines b "medium" random = Ok (Some i) /\
                 emptyCell b i /\
                 get (findEmptySpots b)
                   (random_position random (len (findEmptySpots b)))
                 = Some i)
          end
      end) /\
  (forall random : Q,
      findTwoInARowGap GameController.winningConditions
        ["X"; "X"; ""; ""; "O"; ""; ""; ""; ""] aiMarker = None /\
      findTwoInARowGap GameController.winningConditions
        ["X"; "X"; ""; ""; "O"; ""; ""; ""; ""] humanMarker = Some 2 /\
      AILogic.getBestMove GameController.winningConditions
        ["X"; "X"; ""; ""; "O"; ""; ""; ""; ""] "medium" random
      = Ok (Some 2)) /\
  (findTwoInARowGap GameController.winningConditions
     ["X"; "O"; ""; ""; "O"; ""; ""; "X"; ""] aiMarker = None /\
   findTwoInARowGap GameController.winningConditions
     ["X"; "O"; ""; ""; "O"; ""; ""; "X"; ""] humanMarker = None /\
   findEmptySpots ["X"; "O"; ""; ""; "O"; ""; ""; "X"; ""] = [2; 3; 5; 6; 8] /\
   double (5404319552844595 # 2 ^ 53) /\
   AILogic.getBestMove GameController.winningConditions
     ["X"; "O"; ""; ""; "O"; ""; ""; "X"; ""] "medium"
     (5404319552844595 # 2 ^ 53)
   = Ok (Some 6)).
Proof.
  split; [| split; [intros random; repeat split; reflexivity
                   | repeat split; vm_compute; reflexivity]].
  intros lines b random Hempty Hlow Hhigh.
  apply has_empty_cell in Hempty.
  rewrite (getBestMove_chain lines b "medium" random Hempty eq_refl).
  destruct (findTwoInARowGap lines b aiMarker) as [win |]; [reflexivity |].
  destruct (findTwoInARowGap lines b humanMarker) as [block |];
    [reflexivity |].
  cbn [String.eqb Ascii.eqb Bool.eqb]. unfold emptyCell. split.
  - intros Hcenter. rewrite Hcenter. reflexivity.
  - intros Hcenter.
    destruct (strict_eq (get b 4) "") eqn:Htest;
      [apply strict_eq_true in Htest; contradiction |].
    destruct (random_spot b random Hlow Hhigh Hempty) as (i & Hi & Hcell).
    exists i. rewrite Hi. auto.
Qed.

Lemma medium_priority_chain_witness :
  ((exists i, emptyCell ["X"; "O"; "X"; "X"; "O"; ""; "O"; "X"; ""] i) /\
   (0 <= 1 # 2)%Q /\ (1 # 2 < 1)%Q) /\
  exists i,
    AILogic.getBestMove GameController.winningConditions
      ["X"; "O"; "X"; "X"; "O"; ""; "O"; "X"; ""] "medium" (1 # 2)
    = Ok (Some i) /\
    emptyCell ["X"; "O"; "X"; "X"; "O"; ""; "O"; "X"; ""] i /\
    get (findEmptySpots ["X"; "O"; "X"; "X"; "O"; ""; "O"; "X"; ""])
      (random_position (1 # 2)
         (len (findEmptySpots ["X"; "O"; "X"; "X"; "O"; ""; "O"; "X"; ""])))
    = Some i.
Proof.
  assert (Hempty : exists i,
             emptyCell ["X"; "O"; "X"; "X"; "O"; ""; "O"; "X"; ""] i)
    by (exists 5; reflexivity).
  assert (Hlow : (0 <= 1 # 2)%Q) by (vm_compute; discriminate).
  assert (Hhigh : (1 # 2 < 1)%Q) by reflexivity.
  split; [repeat split; assumption |].
  pose proof (proj1 medium_priority_chain GameController.winningConditions
                ["X"; "O"; "X"; "X"; "O"; ""; "O"; "X"; ""] (1 # 2)
                Hempty Hlow Hhigh) as Hchain.
  change (findTwoInARowGap GameController.winningConditions
            ["X"; "O"; "X"; "X"; "O"; ""; "O"; "X"; ""] aiMarker)
    with (@None Z) in Hchain.
  change (findTwoInARowGap GameController.winningConditions
            ["X"; "O"; "X"; "X"; "O"; ""; "O"; "X"; ""] humanMarker)
    with (@None Z) in Hchain.
  cbv beta iota in Hchain. destruct Hchain as [_ Hrandom].
  apply Hrandom. unfold emptyCell. vm_compute. discriminate.
Defined.

(** C8: on a board with an empty cell the easy tier returns the gap of the
    AI's marker when there is one, and otherwise the empty cell the random
    draw selects. On a board within the length of an array, every empty
    cell has its position k among the n empty cells and is returned on the
    doubles whose product with n lies from k up to k + 1, to the 2^53-th
    part of the product that the rounding of the multiplication can add:
    on every such double, on no other, and so on some draw. No block and no
    center rule is applied, as on the two boards that follow. On
    X, O, _, _, _, _, _, _, _ and the draw 0.5714285714285714, a double
    below 4/7, the cell at position 4 of the seven empty ones is returned:
    the product of the doubles 0.5714285714285714 and 7 is the double 4. *)
Theorem easy_wins_or_plays_at_random :
  (forall (lines : list condition) (b : Board) (random : Q),
      (exists i, emptyCell b i) ->
      (0 <= random)%Q -> (random < 1)%Q ->
      match findTwoInARowGap lines b aiMarker with
      | Some win => AILogic.getBestMove lines b "easy" random = Ok (Some win)
      | None =>
          (exists i,
              AILogic.getBestMove lines b "easy" random = Ok (Some i) /\
              emptyCell b i /\
              get (findEmptySpots b)
                (random_position random (len (findEmptySpots b))) = Some i) /\
          (len b < 2 ^ 32 ->
           forall i, emptyCell b i ->
             exists k,
               0 <= k < len (findEmptySpots b) /\
               get (findEmptySpots b) k = Some i /\
               (forall draw : Q,
                   double draw -> (0 <= draw)%Q -> (draw < 1)%Q ->
                   ((inject_Z k <= draw * inject_Z (len (findEmptySpots b)) /\
                     draw * inject_Z (len (findEmptySpots b)) *
                     (1 + (1 # 2 ^ 53)) < inject_Z (k + 1))%Q ->
                    AILogic.getBestMove lines b "easy" draw = Ok (Some i)) /\
                   (AILogic.getBestMove lines b "easy" draw = Ok (Some i) ->
                    (inject_Z k <=
                     draw * inject_Z (len (findEmptySpots b)) *
                     (1 + (1 # 2 ^ 53)) /\
                     draw * inject_Z (len (findEmptySpots b))
                     < inject_Z (k + 1))%Q)) /\
               (exists draw : Q,
                   double draw /\ (0 <= draw)%Q /\ (draw < 1)%Q /\
                   AILogic.getBestMove lines b "easy" draw = Ok (Some i)))
      end) /\
  (findTwoInARowGap GameController.winningConditions
     ["X"; "X"; ""; ""; "O"; ""; ""; ""; ""] humanMarker = Some 2 /\
   AILogic.getBestMove GameController.winningConditions
     ["X"; "X"; ""; ""; "O"; ""; ""; ""; ""] "easy" (1 # 2) = Ok (Some 6)) /\
  (emptyCell ["X"; ""; ""; ""; ""; ""; ""; ""; ""] 4 /\
   AILogic.getBestMove GameController.winningConditions
     ["X"; ""; ""; ""; ""; ""; ""; ""; ""] "easy" 0 = Ok (Some 1)) /\
  (findEmptySpots ["X"; "O"; ""; ""; ""; ""; ""; ""; ""]
   = [2; 3; 4; 5; 6; 7; 8] /\
   double (2573485501354569 # 2 ^ 52) /\
   (2573485501354569 # 2 ^ 52 < 4 # 7)%Q /\
   AILogic.getBestMove GameController.winningConditions
     ["X"; "O"; ""; ""; ""; ""; ""; ""; ""] "easy"
     (2573485501354569 # 2 ^ 52)
   = Ok (Some 6)).
Proof.
  split; [| split; [split; reflexivity
                   | split; [split; reflexivity
                            | repeat split; vm_compute; reflexivity]]].
  intros lines b random Hempty Hlow Hhigh.
  apply has_empty_cell in Hempty.
  assert (Hchain : forall draw,
             AILogic.getBestMove lines b "easy" draw =
             match findTwoInARowGap lines b aiMarker with
             | Some win => Ok (Some win)
             | None => Ok (get (findEmptySpots b)
                             (random_position draw (len (findEmptySpots b))))
             end).
  { intros draw.
    now rewrite (getBestMove_chain lines b "easy" draw Hempty eq_refl). }
  destruct (findTwoInARowGap lines b aiMarker) as [win |]; [apply Hchain |].
  split.
  - destruct (random_spot b random Hlow Hhigh Hempty) as (i & Hi & Hcell).
    exists i. rewrite Hchain, Hi. auto.
  - intros Hlen i Hi. apply in_findEmptySpots in Hi.
    destruct (in_get _ _ Hi) as (k & Hk & Hget).
    assert (Hn : len (findEmptySpots b) < 2 ^ 32).
    { pose proof (length_findEmptySpots b). unfold len in *. lia. }
    exists k. split; [assumption |]. split; [assumption |]. split.
    + intros draw Hdouble H0 H1.
      destruct (random_position_draws draw (len (findEmptySpots b)) k
                  Hdouble H0 H1 ltac:(lia)) as [Hinto Hfrom].
      split.
      * intros Hdraw. now rewrite Hchain, (Hinto Hdraw), Hget.
      * rewrite Hchain. intros [= Hmove]. apply Hfrom.
        exact (findEmptySpots_position b _ _ i Hmove Hget).
    + destruct (random_position_draw (len (findEmptySpots b)) k Hk
                  ltac:(lia)) as (draw & Hdouble & H0 & H1 & Hpos).
      exists draw. repeat (split; [assumption |]).
      now rewrite Hchain, Hpos, Hget.
Qed.

Lemma easy_wins_or_plays_at_random_witness :
  ((exists i, emptyCell ["X"; "X"; ""; ""; "O"; ""; ""; ""; ""] i) /\
   (0 <= 1 # 2)%Q /\ (1 # 2 < 1)%Q /\
   len ["X"; "X"; ""; ""; "O"; ""; ""; ""; ""] < 2 ^ 32) /\
  forall i, emptyCell ["X"; "X"; ""; ""; "O"; ""; ""; ""; ""] i ->
    exists draw : Q,
      double draw /\ (0 <= draw)%Q /\ (draw < 1)%Q /\
      AILogic.getBestMove GameController.winningConditions
        ["X"; "X"; ""; ""; "O"; ""; ""; ""; ""] "easy" draw = Ok (Some i).
Proof.
  assert (Hempty : exists i,
             emptyCell ["X"; "X"; ""; ""; "O"; ""; ""; ""; ""] i)
    by (exists 2; reflexivity).
  assert (Hlow : (0 <= 1 # 2)%Q) by (vm_compute; discriminate).
  assert (Hhigh : (1 # 2 < 1)%Q) by reflexivity.
  assert (Hlen : len ["X"; "X"; ""; ""; "O"; ""; ""; ""; ""] < 2 ^ 32)
    by reflexivity.
  split; [repeat split; assumption |].
  pose proof (proj1 easy_wins_or_plays_at_random
                GameController.winningConditions
                ["X"; "X"; ""; ""; "O"; ""; ""; ""; ""] (1 # 2)
                Hempty Hlow Hhigh) as Hchain.
  change (findTwoInARowGap GameController.winningConditions
            ["X"; "X"; ""; ""; "O"; ""; ""; ""; ""] aiMarker)
    with (@None Z) in Hchain.
  cbv beta iota in Hchain. destruct Hchain as [_ Hevery].
  intros i Hi. destruct (Hevery Hlen i Hi) as (k & _ & _ & _ & Hdraw).
  exact Hdraw.
Defined.

(** ** The move is legal *)

(** C10: on every board of nine cells with no completed line and an empty
    cell, for every difficulty and every random draw, [getBestMove] returns
    an index from 0 to 8 whose cell is empty. *)
Theorem getBestMove_picks_an_empty_cell (b : Board) (difficulty : string)
  (random : Q) :
  List.length b = 9%nat ->
  ~ hasWon GameController.winningConditions b humanMarker ->
  ~ hasWon GameController.winningConditions b aiMarker ->
  (exists i, emptyCell b i) ->
  (0 <= random)%Q -> (random < 1)%Q ->
  exists i,
    AILogic.getBestMove GameController.winningConditions b difficulty random
    = Ok (Some i) /\
    0 <= i <= 8 /\ emptyCell b i.
Proof.
  intros Hnine HX HO Hempty Hlow Hhigh.
  apply has_empty_cell in Hempty.
  assert (Hrange : forall i, emptyCell b i -> 0 <= i <= 8).
  { intros i Hi. apply emptyCell_index in Hi. unfold len in Hi. lia. }
  assert (Hgoal : exists i,
             AILogic.getBestMove GameController.winningConditions b
               difficulty random = Ok (Some i) /\ emptyCell b i).
  { destruct (String.eqb difficulty "hard") eqn:Hhard.
    - apply String.eqb_eq in Hhard. subst difficulty.
      destruct (hard_move GameController.winningConditions b random)
        as (i & _ & Hmove & Hi & _); [repeat split; assumption |].
      exists i. auto.
    - rewrite (getBestMove_chain _ b difficulty random Hempty Hhard).
      destruct (findTwoInARowGap GameController.winningConditions b aiMarker)
        as [win |] eqn:Hwin.
      { exists win. split; [reflexivity |].
        now apply findTwoInARowGap_empty in Hwin. }
      destruct (random_spot b random Hlow Hhigh Hempty) as (i & Hi & Hcell).
      destruct (String.eqb difficulty "medium").
      + destruct (findTwoInARowGap GameController.winningConditions b
                    humanMarker) as [block |] eqn:Hblock.
        { exists block. split; [reflexivity |].
          now apply findTwoInARowGap_empty in Hblock. }
        destruct (strict_eq (get b 4) "") eqn:Hcenter.
        * exists 4. split; [reflexivity |]. now apply strict_eq_true.
        * exists i. rewrite Hi. auto.
      + exists i. rewrite Hi. auto. }
  destruct Hgoal as (i & Hmove & Hi). exists i. auto.
Qed.

Lemma getBestMove_picks_an_empty_cell_witness :
  (List.length ["X"; "X"; ""; ""; "O"; ""; ""; ""; ""] = 9%nat /\
   ~ hasWon GameController.winningConditions
       ["X"; "X"; ""; ""; "O"; ""; ""; ""; ""] humanMarker /\
   ~ hasWon GameController.winningConditions
       ["X"; "X"; ""; ""; "O"; ""; ""; ""; ""] aiMarker /\
   (exists i, emptyCell ["X"; "X"; ""; ""; "O"; ""; ""; ""; ""] i) /\
   (0 <= 1 # 2)%Q /\ (1 # 2 < 1)%Q) /\
  exists i,
    AILogic.getBestMove GameController.winningConditions
      ["X"; "X"; ""; ""; "O"; ""; ""; ""; ""] "hard" (1 # 2) = Ok (Some i) /\
    0 <= i <= 8 /\ emptyCell ["X"; "X"; ""; ""; "O"; ""; ""; ""; ""] i.
Proof.
  assert (H1 : List.length ["X"; "X"; ""; ""; "O"; ""; ""; ""; ""] = 9%nat)
    by reflexivity.
  assert (H2 : ~ hasWon GameController.winningConditions
                   ["X"; "X"; ""; ""; "O"; ""; ""; ""; ""] humanMarker)
    by (apply checkBoardWin_false; reflexivity).
  assert (H3 : ~ hasWon GameController.winningConditions
                   ["X"; "X"; ""; ""; "O"; ""; ""; ""; ""] aiMarker)
    by (apply checkBoardWin_false; reflexivity).
  assert (H4 : exists i,
             emptyCell ["X"; "X"; ""; ""; "O"; ""; ""; ""; ""] i)
    by (exists 2; reflexivity).
  assert (H5 : (0 <= 1 # 2)%Q) by (vm_compute; discriminate).
  assert (H6 : (1 # 2 < 1)%Q) by reflexivity.
  split; [repeat split; assumption |].
  exact (getBestMove_picks_an_empty_cell _ "hard" (1 # 2) H1 H2 H3 H4 H5 H6).
Defined.

(** ** The draw test of [checkResult] *)

Lemma three_alike_Some (x y z : option string) (s : string) :
  GameController.three_alike x y z = Some s <->
  s <> "" /\ x = Some s /\ y = Some s /\ z = Some s.
Proof.
  unfold GameController.three_alike. destruct x as [t |].
  - destruct (String.eqb_spec t "") as [-> | Ht]; simpl.
    + split; [discriminate | intros (Hs & [= <-] & _); congruence].
    + destruct (strict_eq y t) eqn:Hy; simpl.
      * destruct (strict_eq z t) eqn:Hz.
        -- apply strict_eq_true in Hy, Hz. subst. split.
           ++ intros [= <-]. auto.
           ++ intros (_ & [= <-] & _). reflexivity.
        -- split; [discriminate |]. intros (_ & [= <-] & _ & ->).
           simpl in Hz. rewrite String.eqb_refl in Hz. discriminate.
      * split; [discriminate |]. intros (_ & [= <-] & -> & _).
        simpl in Hy. rewrite String.eqb_refl in Hy. discriminate.
  - split; [discriminate | intros (_ & [=] & _)].
Qed.

Lemma find_win_None (b : Board) (lines : list condition) :
  GameController.find_win b lines = None <->
  forall x y z, In (x, y, z) lines ->
                GameController.three_alike (get b x) (get b y) (get b z)
                = None.
Proof.
  induction lines as [| [[x y] z] rest IH]; simpl.
  - split; [intros _ ? ? ? [] | reflexivity].
  - destruct (GameController.three_alike (get b x) (get b y) (get b z))
      as [winner |] eqn:Hline.
    + split; [discriminate |]. intros Hall.
      specialize (Hall x y z (or_introl eq_refl)). congruence.
    + rewrite IH. split.
      * intros Hall x' y' z' [[= <- <- <-] | Hin]; auto.
      * intros Hall x' y' z' Hin. apply Hall. now right.
Qed.

Lemma wellFormed_cell (b : Board) (i : Z) (s : string) :
  wellFormed b -> get b i = Some s ->
  s = "" \/ s = humanMarker \/ s = aiMarker.
Proof.
  unfold wellFormed. rewrite Forall_forall. intros Hwf Hget.
  apply Hwf. unfold get in Hget. destruct (i <? 0); [discriminate |].
  now apply nth_error_In in Hget.
Qed.

(** On a board of the game no line is alike exactly when neither marker
    has won. *)
Lemma find_win_hasWon (b : Board) (lines : list condition) :
  wellFormed b ->
  GameController.find_win b lines = None <->
  ~ hasWon lines b humanMarker /\ ~ hasWon lines b aiMarker.
Proof.
  intros Hwf. rewrite find_win_None. split.
  - intros Hall.
    assert (Hno : forall marker, marker <> "" -> ~ hasWon lines b marker).
    { intros marker Hmarker (x & y & z & Hin & Hx & Hy & Hz).
      specialize (Hall x y z Hin).
      assert (Hsome : GameController.three_alike (get b x) (get b y)
                        (get b z) = Some marker)
        by (apply three_alike_Some; auto).
      congruence. }
    split; apply Hno; discriminate.
  - intros [HX HO] x y z Hin.
    destruct (GameController.three_alike (get b x) (get b y) (get b z))
      as [s |] eqn:Hline; [exfalso | reflexivity].
    apply three_alike_Some in Hline as (Hs & Hx & Hy & Hz).
    destruct (wellFormed_cell b x s Hwf Hx) as [-> | [-> | ->]].
    + congruence.
    + apply HX. exists x, y, z. auto.
    + apply HO. exists x, y, z. auto.
Qed.

Lemma includes_empty (b : Board) :
  GameController.includes b "" = true <-> exists i, emptyCell b i.
Proof.
  unfold GameController.includes. rewrite existsb_exists. split.
  - intros (s & Hin & Hs). apply String.eqb_eq in Hs. subst s.
    destruct (in_get b "" Hin) as (k & _ & Hk). now exists k.
  - intros (i & Hi). exists "". split; [| reflexivity].
    unfold emptyCell, get in Hi. destruct (i <? 0); [discriminate |].
    now apply nth_error_In in Hi.
Qed.

(** C7: the draw test of [checkResult] holds exactly when no cell of the
    board is empty and neither marker has a completed winning line. *)
Theorem isDraw_iff_full_without_winner (st : GameController.state) :
  wellFormed (GameController.gameBoard st) ->
  GameController.isDraw st <->
  (forall i, ~ emptyCell (GameController.gameBoard st) i) /\
  ~ hasWon GameController.winningConditions (GameController.gameBoard st)
      humanMarker /\
  ~ hasWon GameController.winningConditions (GameController.gameBoard st)
      aiMarker.
Proof.
  intros Hwf.
  pose proof (find_win_hasWon (GameController.gameBoard st)
                GameController.winningConditions Hwf) as Hwin.
  pose proof (includes_empty (GameController.gameBoard st)) as Hinc.
  unfold GameController.isDraw, GameController.checkResult.
  destruct (GameController.find_win (GameController.gameBoard st)
              GameController.winningConditions) as [[winner cond] |].
  - split.
    + cbn [snd]. intros [H | [H | [H | [H | [H | []]]]]]; try discriminate.
      destruct (String.eqb (GameController.currentMode st) "pvai"
                && String.eqb winner "O"); discriminate.
    + intros (_ & HX & HO). assert (Hnone : Some (winner, cond) = None)
        by (apply Hwin; auto).
      discriminate.
  - destruct (proj1 Hwin eq_refl) as [HX HO].
    destruct (GameController.includes (GameController.gameBoard st) "")
      eqn:Hempty; cbn [negb snd].
    + split; [intros [] |]. intros (Hfull & _).
      destruct (proj1 Hinc eq_refl) as [i Hi]. now apply Hfull in Hi.
    + split.
      * intros _. split; [| auto]. intros i Hi.
        assert (Habsurd : false = true) by (apply Hinc; eauto).
        discriminate.
      * intros _. now left.
Qed.

Lemma isDraw_iff_full_without_winner_witness :
  wellFormed ["X"; "O"; "X"; "X"; "O"; "O"; "O"; "X"; "X"] /\
  GameController.isDraw
    (GameController.mkState ["X"; "O"; "X"; "X"; "O"; "O"; "O"; "X"; "X"]
       "X" true "hard" "pvai") /\
  ~ hasWon GameController.winningConditions
      ["X"; "O"; "X"; "X"; "O"; "O"; "O"; "X"; "X"] humanMarker.
Proof.
  assert (Hwf : wellFormed ["X"; "O"; "X"; "X"; "O"; "O"; "O"; "X"; "X"]).
  { unfold wellFormed.
    repeat (apply Forall_cons;
            [first [now left | right; now left | right; now right] |]).
    apply Forall_nil. }
  pose proof (isDraw_iff_full_without_winner
                (GameController.mkState
                   ["X"; "O"; "X"; "X"; "O"; "O"; "O"; "X"; "X"]
                   "X" true "hard" "pvai") Hwf) as [Hto Hfrom].
  split; [exact Hwf |].
  assert (Hdraw : GameController.isDraw
                    (GameController.mkState
                       ["X"; "O"; "X"; "X"; "O"; "O"; "O"; "X"; "X"]
                       "X" true "hard" "pvai")).
  { apply Hfrom. split; [apply no_empty_cell; reflexivity |].
    split; apply checkBoardWin_false; reflexivity. }
  split; [exact Hdraw |].
  exact (proj1 (proj2 (Hto Hdraw))).
Defined.

(** ** The search over the store *)

Lemma nth_error_extended {A : Type} (h ext : list A) (a : nat) (x : A) :
  nth_error h a = Some x -> nth_error (h ++ ext) a = Some x.
Proof.
  intros Hx. rewrite nth_error_app1; [assumption |].
  apply nth_error_Some. congruence.
Qed.

Lemma nth_error_fresh {A : Type} (h : list A) (x : A) :
  nth_error (h ++ [x]) (List.length h) = Some x.
Proof.
  rewrite nth_error_app2 by lia. now rewrite Nat.sub_diag.
Qed.

Lemma assign_nat_fresh {A : Type} (h : list A) (x y : A) :
  assign_nat (h ++ [x]) (List.length h) y = h ++ [y].
Proof. induction h as [| z h IH]; simpl; [reflexivity | now rewrite IH]. Qed.

(** The write into the array just allocated touches that array only. *)
Lemma store_assign_fresh (h : store) (cells : Board) (i : Z) (v : string) :
  store_assign (h ++ [cells]) (List.length h) i v = h ++ [assign cells i v].
Proof.
  unfold store_assign. rewrite nth_error_fresh. apply assign_nat_fresh.
Qed.

Section StoreSearch.

Variable lines : list condition.

Lemma minimax_store_step (fuel : nat) (h : store) (newBoard : address)
  (player : string) (depth : Z) :
  minimax_store (S fuel) h newBoard player depth lines =
  (cells <- deref h newBoard ;;
   if checkBoardWin cells humanMarker lines
   then Ok (Some (mkMove None (scores "X" + depth)), h)
   else if checkBoardWin cells aiMarker lines
   then Ok (Some (mkMove None (scores "O" - depth)), h)
   else if len (findEmptySpots cells) =? 0
   then Ok (Some (mkMove None (scores "draw")), h)
   else
     '(moves, h') <- for_each_store (findEmptySpots cells)
                       (candidate_store lines fuel newBoard player depth) h ;;
     Ok (select player moves, h')).
Proof.
  cbn [minimax_store]. unfold candidate_store, select, opponent.
  destruct (String.eqb player aiMarker); reflexivity.
Qed.

Lemma minimax_fuel_step (fuel : nat) (cells : Board) (player : string)
  (depth : Z) :
  minimax_fuel (S fuel) cells player depth lines =
  (if checkBoardWin cells humanMarker lines
   then Ok (Some (mkMove None (scores "X" + depth)))
   else if checkBoardWin cells aiMarker lines
   then Ok (Some (mkMove None (scores "O" - depth)))
   else if len (findEmptySpots cells) =? 0
   then Ok (Some (mkMove None (scores "draw")))
   else
     moves <- for_each (findEmptySpots cells)
                (candidate lines fuel cells player depth) ;;
     Ok (select player moves)).
Proof.
  cbn [minimax_fuel]. unfold candidate, select, opponent.
  destruct (String.eqb player aiMarker); reflexivity.
Qed.

(** The loop on the store pushes the candidates of the loop on values
    and only adds arrays to the store, provided the calls it makes do. *)
Lemma for_each_store_refines (fuel : nat) (newBoard : address)
  (cells : Board) (player : string) (depth : Z) :
  (forall (h : store) (a : address) (turn : string) (d : Z) (c : Board),
      nth_error h a = Some c ->
      exists fresh,
        minimax_store fuel h a turn d lines =
        (v <- minimax_fuel fuel c turn d lines ;; Ok (v, h ++ fresh))) ->
  forall (spots : list Z) (h0 : store),
    nth_error h0 newBoard = Some cells ->
    exists fresh,
      for_each_store spots
        (candidate_store lines fuel newBoard player depth) h0 =
      (moves <- for_each spots (candidate lines fuel cells player depth) ;;
       Ok (moves, h0 ++ fresh)).
Proof.
  intros Hcalls spots.
  induction spots as [| i rest IH]; intros h0 Hboard.
  - exists []. simpl. now rewrite app_nil_r.
  - cbn [for_each_store for_each]. unfold candidate_store at 1.
    unfold deref. rewrite Hboard. cbn [bind alloc].
    rewrite store_assign_fresh.
    destruct (Hcalls (h0 ++ [assign cells i player]) (List.length h0)
                (opponent player) (depth + 1) (assign cells i player)
                (nth_error_fresh h0 _)) as [fresh1 Hcall].
    rewrite Hcall. unfold candidate at 1.
    destruct (minimax_fuel fuel (assign cells i player) (opponent player)
                (depth + 1) lines) as [[r |] | |];
      cbn [bind score_of]; try (now exists []).
    destruct (IH ((h0 ++ [assign cells i player]) ++ fresh1)) as [fresh2 Hrest].
    { rewrite <- app_assoc. now apply nth_error_extended. }
    rewrite Hrest.
    destruct (for_each rest (candidate lines fuel cells player depth))
      as [moves | |]; cbn [bind]; try (now exists []).
    exists ([assign cells i player] ++ fresh1 ++ fresh2).
    now rewrite <- !app_assoc.
Qed.

(** A call on the store returns what the call on the contents returns
    and leaves every array of the store as it was. *)
Lemma minimax_store_refines (fuel : nat) :
  forall (h : store) (a : address) (turn : string) (d : Z) (c : Board),
    nth_error h a = Some c ->
    exists fresh,
      minimax_store fuel h a turn d lines =
      (v <- minimax_fuel fuel c turn d lines ;; Ok (v, h ++ fresh)).
Proof.
  induction fuel as [| fuel IH]; intros h a turn d c Hc.
  - now exists [].
  - rewrite minimax_store_step, minimax_fuel_step.
    unfold deref. rewrite Hc. cbn [bind].
    destruct (checkBoardWin c humanMarker lines);
      [exists []; cbn [bind]; now rewrite app_nil_r |].
    destruct (checkBoardWin c aiMarker lines);
      [exists []; cbn [bind]; now rewrite app_nil_r |].
    destruct (len (findEmptySpots c) =? 0);
      [exists []; cbn [bind]; now rewrite app_nil_r |].
    destruct (for_each_store_refines fuel a c turn d IH
                (findEmptySpots c) h Hc) as [fresh Hloop].
    rewrite Hloop.
    destruct (for_each (findEmptySpots c) (candidate lines fuel c turn d))
      as [moves | |]; cbn [bind]; try (now exists []).
    now exists fresh.
Qed.

Lemma getBestMove_total (b : Board) (difficulty : string) (random : Q) :
  exists v, AILogic.getBestMove lines b difficulty random = Ok v.
Proof.
  unfold AILogic.getBestMove, AILogic.getBestMove_fuel.
  destruct (len (findEmptySpots b) =? 0); [eauto |].
  destruct (String.eqb difficulty "hard").
  - destruct (minimax_fuel_total lines (S (S (List.length b))) b aiMarker 0)
      as [m Hm]; [discriminate | |].
    + pose proof (length_findEmptySpots b). lia.
    + rewrite Hm. simpl. eauto.
  - destruct (negb (findStrategicMove b aiMarker lines =? -1)); [eauto |].
    destruct (negb (findStrategicMove b "X" lines =? -1)
              && String.eqb difficulty "medium"); [eauto |].
    destruct (strict_eq (get b 4) "" && String.eqb difficulty "medium");
      eauto.
Qed.

Lemma getBestMove_store_refines (h : store) (a : address) (cells : Board)
  (difficulty : string) (random : Q) :
  nth_error h a = Some cells ->
  exists fresh,
    getBestMove_store lines h a difficulty random =
    (v <- AILogic.getBestMove lines cells difficulty random ;;
     Ok (v, h ++ fresh)).
Proof.
  intros Hcells.
  unfold getBestMove_store, AILogic.getBestMove, AILogic.getBestMove_fuel.
  unfold deref. rewrite Hcells. cbn [bind].
  destruct (len (findEmptySpots cells) =? 0);
    [exists []; cbn [bind]; now rewrite app_nil_r |].
  destruct (String.eqb difficulty "hard").
  - destruct (minimax_store_refines (S (S (List.length cells))) h a aiMarker 0
                cells Hcells) as [fresh Hrun].
    rewrite Hrun.
    destruct (minimax_fuel (S (S (List.length cells))) cells aiMarker 0 lines)
      as [[m |] | |]; cbn [bind index_of]; try (now exists []).
    now exists fresh.
  - exists []. rewrite app_nil_r.
    destruct (negb (findStrategicMove cells aiMarker lines =? -1));
      [reflexivity |].
    destruct (negb (findStrategicMove cells "X" lines =? -1)
              && String.eqb difficulty "medium"); [reflexivity |].
    destruct (strict_eq (get cells 4) ""
              && String.eqb difficulty "medium"); reflexivity.
Qed.

End StoreSearch.

(** C9: the search never changes the caller's board. For a store that
    holds the board behind the reference passed in, every call of
    [minimax] that returns leaves a store that is the old one followed by
    new arrays, so the board (and every array there was) holds the cells
    it held, and it returns what the search on those cells returns; the
    same holds of [getBestMove], for every difficulty and draw, and both
    return. *)
Theorem search_leaves_the_board_untouched (lines : list condition)
  (h : store) (caller : address) (cells : Board) :
  nth_error h caller = Some cells ->
  (forall (fuel : nat) (player : string) (depth : Z) (v : option move)
          (h' : store),
      minimax_store fuel h caller player depth lines = Ok (v, h') ->
      (exists fresh, h' = h ++ fresh) /\
      nth_error h' caller = Some cells /\
      minimax_fuel fuel cells player depth lines = Ok v) /\
  (forall (player : string) (depth : Z),
      exists m fresh,
        minimax_store (S (S (List.length cells))) h caller player depth lines
        = Ok (Some m, h ++ fresh) /\
        minimax cells player depth lines = Ok (Some m)) /\
  (forall (difficulty : string) (random : Q),
      exists v fresh,
        getBestMove_store lines h caller difficulty random
        = Ok (v, h ++ fresh) /\
        nth_error (h ++ fresh) caller = Some cells /\
        AILogic.getBestMove lines cells difficulty random = Ok v).
Proof.
  intros Hcells. split; [| split].
  - intros fuel player depth v h' Hrun.
    destruct (minimax_store_refines lines fuel h caller player depth cells
                Hcells) as [fresh Hrefines].
    rewrite Hrefines in Hrun.
    destruct (minimax_fuel fuel cells player depth lines) as [v' | |];
      try discriminate.
    cbn [bind] in Hrun. injection Hrun as <- <-.
    split; [now exists fresh |].
    split; [now apply nth_error_extended | reflexivity].
  - intros player depth.
    destruct (minimax_fuel_total_any lines (S (S (List.length cells))) cells
                player depth) as [m Hm].
    { pose proof (length_findEmptySpots cells). lia. }
    destruct (minimax_store_refines lines (S (S (List.length cells))) h caller
                player depth cells Hcells) as [fresh Hrefines].
    exists m, fresh. unfold minimax. rewrite Hrefines, Hm. now split.
  - intros difficulty random.
    destruct (getBestMove_total lines cells difficulty random) as [v Hv].
    destruct (getBestMove_store_refines lines h caller cells difficulty
                random Hcells) as [fresh Hrefines].
    exists v, fresh. rewrite Hrefines, Hv. cbn [bind].
    split; [reflexivity |].
    split; [now apply nth_error_extended | reflexivity].
Qed.

Lemma search_leaves_the_board_untouched_witness :
  nth_error [["X"; "O"; "X"; "O"; "X"; ""; ""; ""; "O"]] 0%nat
  = Some ["X"; "O"; "X"; "O"; "X"; ""; ""; ""; "O"] /\
  exists v fresh,
    getBestMove_store GameController.winningConditions
      [["X"; "O"; "X"; "O"; "X"; ""; ""; ""; "O"]] 0%nat "hard" 0
    = Ok (v, [["X"; "O"; "X"; "O"; "X"; ""; ""; ""; "O"]] ++ fresh) /\
    nth_error ([["X"; "O"; "X"; "O"; "X"; ""; ""; ""; "O"]] ++ fresh) 0%nat
    = Some ["X"; "O"; "X"; "O"; "X"; ""; ""; ""; "O"] /\
    AILogic.getBestMove GameController.winningConditions
      ["X"; "O"; "X"; "O"; "X"; ""; ""; ""; "O"] "hard" 0 = Ok v.
Proof.
  assert (Hcells : nth_error [["X"; "O"; "X"; "O"; "X"; ""; ""; ""; "O"]]
                     0%nat
                   = Some ["X"; "O"; "X"; "O"; "X"; ""; ""; ""; "O"])
    by reflexivity.
  split; [exact Hcells |].
  exact (proj2 (proj2 (search_leaves_the_board_untouched
                         GameController.winningConditions
                         [["X"; "O"; "X"; "O"; "X"; ""; ""; ""; "O"]] 0%nat
                         ["X"; "O"; "X"; "O"; "X"; ""; ""; ""; "O"] Hcells))
           "hard" 0%Q).
Defined.

(** * The rest of the game flow *)

(** ** The range of the scores *)

Section Scores.

Variable lines : list condition.

(** The score of a node by its kind: the two won positions sit at the ends
    of the range, every other node strictly inside. *)
Lemma minimax_fuel_score (fuel : nat) :
  forall (b : Board) (player : string) (depth : Z) (m : move),
    player <> "" ->
    0 <= depth -> depth + len (findEmptySpots b) < 100 ->
    minimax_fuel fuel b player depth lines = Ok (Some m) ->
    (hasWon lines b humanMarker -> score m = -100 + depth) /\
    (~ hasWon lines b humanMarker -> hasWon lines b aiMarker ->
     score m = 100 - depth) /\
    (~ hasWon lines b humanMarker -> ~ hasWon lines b aiMarker ->
     -100 + depth < score m < 100 - depth).
Proof.
  induction fuel as [| fuel IH]; intros b player depth m Hplayer Hdepth
    Hbias Hrun; [discriminate |].
  unfold len in Hbias.
  destruct (hasWon_dec lines b humanMarker) as [HX | HX].
  { pose proof HX as HX'. apply checkBoardWin_hasWon in HX'.
    cbn [minimax_fuel] in Hrun. rewrite HX' in Hrun.
    injection Hrun as <-. cbn [score]. change (scores "X") with (-100).
    repeat split; try tauto. }
  destruct (hasWon_dec lines b aiMarker) as [HO | HO].
  { pose proof HX as HX'. pose proof HO as HO'.
    apply checkBoardWin_false in HX'. apply checkBoardWin_hasWon in HO'.
    cbn [minimax_fuel] in Hrun. rewrite HX', HO' in Hrun.
    injection Hrun as <-. cbn [score]. change (scores "O") with 100.
    repeat split; try tauto. }
  split; [tauto |]. split; [tauto |]. intros _ _.
  destruct (list_eq_dec Z.eq_dec (findEmptySpots b) []) as [Hnone | Hsome].
  { pose proof HX as HX'. pose proof HO as HO'.
    apply checkBoardWin_false in HX', HO'.
    cbn [minimax_fuel] in Hrun. rewrite HX', HO', Hnone in Hrun.
    change (len [] =? 0) with true in Hrun. cbv iota in Hrun.
    injection Hrun as <-. cbn [score]. change (scores "draw") with 0. lia. }
  assert (Hopen : openNode lines b) by (repeat split; assumption).
  rewrite minimax_fuel_open in Hrun by assumption.
  destruct (for_each (findEmptySpots b) (candidate lines fuel b player depth))
    as [moves | |] eqn:Hmoves; try discriminate.
  cbn [bind] in Hrun. injection Hrun as Hsel.
  apply for_each_Ok in Hmoves.
  destruct (select_some player moves) as (m' & Hm' & Hin).
  { intros ->. inversion Hmoves. congruence. }
  rewrite Hsel in Hm'. injection Hm' as <-.
  destruct (Forall2_pair_right _ _ _ m Hmoves Hin) as (i & Hi & Hm).
  apply candidate_Ok in Hm as (r & Hr & ->). cbn [score].
  apply in_findEmptySpots in Hi.
  pose proof (findEmptySpots_assign b i player Hi Hplayer) as Hless.
  destruct (IH (assign b i player) (opponent player) (depth + 1) r)
    as (H1 & H2 & H3); try assumption; unfold len; try lia.
  { apply opponent_marker. }
  destruct (hasWon_dec lines (assign b i player) humanMarker) as [HX1 | HX1].
  { rewrite (H1 HX1). lia. }
  destruct (hasWon_dec lines (assign b i player) aiMarker) as [HO1 | HO1].
  { rewrite (H2 HX1 HO1). lia. }
  specialize (H3 HX1 HO1). lia.
Qed.

End Scores.

Lemma distinct_winningConditions :
  Forall distinctLine GameController.winningConditions.
Proof.
  unfold GameController.winningConditions.
  repeat (apply Forall_cons; [cbn; lia |]). apply Forall_nil.
Qed.

(** X1: [minimax] returns a move on every board, for every marker to move
    and from every depth with depth plus the length of the board below 99,
    and the score of the move lies between -100 + depth and 100 - depth. *)
Theorem minimax_score_in_range (lines : list condition) (b : Board)
  (player : string) (depth : Z) :
  0 <= depth -> depth + len b < 99 ->
  exists m,
    minimax b player depth lines = Ok (Some m) /\
    -100 + depth <= score m <= 100 - depth.
Proof.
  intros Hdepth Hbias.
  pose proof (length_findEmptySpots b) as Hlen. unfold len in Hbias.
  destruct (minimax_fuel_total_any lines (S (S (List.length b))) b player
              depth) as [m Hm]; [lia |].
  exists m. split; [exact Hm |].
  assert (Hchild : forall (turn : string) (c : Board) (r : move),
             turn <> "" ->
             (List.length (findEmptySpots c)
              <= List.length (findEmptySpots b))%nat ->
             minimax_fuel (S (List.length b)) c turn (depth + 1) lines
             = Ok (Some r) ->
             -100 + depth < score r < 100 - depth).
  { intros turn c r Hturn Hless Hr.
    assert (Hd : 0 <= depth + 1) by lia.
    assert (Hb : depth + 1 + len (findEmptySpots c) < 100)
      by (unfold len; lia).
    destruct (minimax_fuel_score lines _ _ _ _ r Hturn Hd Hb Hr)
      as (H1 & H2 & H3).
    destruct (hasWon_dec lines c humanMarker) as [HX | HX];
      [rewrite (H1 HX); lia |].
    destruct (hasWon_dec lines c aiMarker) as [HO | HO];
      [rewrite (H2 HX HO); lia |].
    specialize (H3 HX HO). lia. }
  unfold minimax in Hm. rewrite minimax_fuel_step in Hm.
  destruct (checkBoardWin b humanMarker lines).
  { cbv iota in Hm. change (scores "X") with (-100) in Hm.
    assert (m = mkMove None (-100 + depth)) by congruence.
    subst m. cbn [score]. lia. }
  destruct (checkBoardWin b aiMarker lines).
  { cbv iota in Hm. change (scores "O") with 100 in Hm.
    assert (m = mkMove None (100 - depth)) by congruence.
    subst m. cbn [score]. lia. }
  destruct (len (findEmptySpots b) =? 0).
  { cbv iota in Hm. change (scores "draw") with 0 in Hm.
    assert (m = mkMove None 0) by congruence.
    subst m. cbn [score]. lia. }
  destruct (for_each (findEmptySpots b)
              (candidate lines (S (List.length b)) b player depth))
    as [moves | |] eqn:Hmoves; cbv iota in Hm; try discriminate.
  cbn [bind] in Hm. injection Hm as Hsel.
  apply for_each_Ok in Hmoves.
  assert (Hin : In m moves).
  { destruct moves as [| m0 moves]; [| destruct (select_some player
        (m0 :: moves) ltac:(discriminate)) as (m' & Hm' & Hin); congruence].
    unfold select in Hsel. destruct (String.eqb player aiMarker);
      discriminate. }
  destruct (Forall2_pair_right _ _ _ m Hmoves Hin) as (i & Hi & Hmv).
  apply candidate_Ok in Hmv as (r & Hr & ->). cbn [score].
  apply in_findEmptySpots in Hi.
  assert (Hrange : -100 + depth < score r < 100 - depth); [| lia].
  apply (Hchild (opponent player) (assign b i player));
    [apply opponent_marker | | exact Hr].
  destruct (string_dec player "") as [-> | Hplayer].
  - rewrite (assign_same b i "" Hi). lia.
  - pose proof (findEmptySpots_assign b i player Hi Hplayer). lia.
Qed.

Lemma minimax_score_in_range_witness :
  (0 <= 2 /\ 2 + len ["X"; "O"; "X"; ""; "O"; ""; ""; "X"; ""] < 99) /\
  exists m,
    minimax ["X"; "O"; "X"; ""; "O"; ""; ""; "X"; ""] "O" 2
      GameController.winningConditions = Ok (Some m) /\
    -100 + 2 <= score m <= 100 - 2.
Proof.
  assert (H1 : 0 <= 2) by lia.
  assert (H2 : 2 + len ["X"; "O"; "X"; ""; "O"; ""; ""; "X"; ""] < 99)
    by (cbn; lia).
  split; [split; assumption |].
  exact (minimax_score_in_range GameController.winningConditions
           ["X"; "O"; "X"; ""; "O"; ""; ""; "X"; ""] "O" 2 H1 H2).
Defined.

(** ** Immediate wins *)

Lemma get_assign_cases {A : Type} (arr : list A) (j p : Z) (v s : A) :
  get (assign arr j v) p = Some s -> (p = j /\ s = v) \/ get arr p = Some s.
Proof.
  intros Hget. destruct (Z.eq_dec j p) as [-> | Hne].
  - left. split; [reflexivity |].
    pose proof (get_range _ _ _ Hget) as Hr. unfold len in Hr.
    rewrite length_assign in Hr.
    destruct (get_in_range arr p Hr) as (x & Hx & _).
    rewrite (get_assign_same arr p x v Hx) in Hget. congruence.
  - right. now rewrite get_assign_other in Hget.
Qed.

(** A line of [marker] on the board after a cell received another value
    was there before. *)
Lemma hasWon_assign_other (lines : list condition) (b : Board) (j : Z)
  (v marker : string) :
  v <> marker -> hasWon lines (assign b j v) marker -> hasWon lines b marker.
Proof.
  intros Hv (x & y & z & Hin & Hx & Hy & Hz).
  exists x, y, z. split; [assumption |].
  apply get_assign_cases in Hx, Hy, Hz.
  repeat split.
  - destruct Hx as [[_ Hx] | Hx]; [congruence | assumption].
  - destruct Hy as [[_ Hy] | Hy]; [congruence | assumption].
  - destruct Hz as [[_ Hz] | Hz]; [congruence | assumption].
Qed.

Lemma gap_of_line_win (lines : list condition) (b : Board) (marker : string)
  (cond : condition) (i : Z) :
  In cond lines -> gap_of_line b marker cond = Some i ->
  hasWon lines (assign b i marker) marker.
Proof.
  intros Hin Hgap.
  apply gap_of_line_sound in Hgap as (Hi & x & y & z & -> & Hcase).
  exists x, y, z. split; [assumption |].
  assert (Hcell : forall p, p = i \/ get b p = Some marker ->
                            get (assign b i marker) p = Some marker).
  { intros p [-> | Hp].
    - now apply get_assign_same with (x := "").
    - destruct (Z.eq_dec i p) as [-> | Hne].
      + now apply get_assign_same with (x := "").
      + now rewrite get_assign_other. }
  destruct Hcase as [(-> & Hy & Hz) | [(-> & Hx & Hz) | (-> & Hx & Hy)]];
    repeat split; apply Hcell; auto.
Qed.

Lemma findTwoInARowGap_in_Some (b : Board) (marker : string)
  (conds : list condition) (i : Z) :
  findTwoInARowGap_in b marker conds = Some i ->
  exists cond, In cond conds /\ gap_of_line b marker cond = Some i.
Proof.
  induction conds as [| cond rest IH]; simpl; [discriminate |].
  destruct (gap_of_line b marker cond) as [k |] eqn:Hgap.
  - intros [= ->]. exists cond. auto.
  - intros Hrest. destruct (IH Hrest) as (c & Hc & Hg). exists c. auto.
Qed.

Lemma findTwoInARowGap_in_None (b : Board) (marker : string)
  (conds : list condition) :
  findTwoInARowGap_in b marker conds = None ->
  forall cond, In cond conds -> gap_of_line b marker cond = None.
Proof.
  induction conds as [| c rest IH]; simpl; [intros _ ? [] |].
  destruct (gap_of_line b marker c) as [k |] eqn:Hgap; [discriminate |].
  intros Hrest cond [<- | Hin]; auto.
Qed.

(** A line with distinct cells that [marker] completes by marking the
    empty cell [i] has its gap at [i]. *)
Lemma gap_of_line_complete (b : Board) (marker : string) (x y z i : Z) :
  marker <> "" -> distinctLine (x, y, z) -> emptyCell b i ->
  i = x \/ i = y \/ i = z ->
  get (assign b i marker) x = Some marker ->
  get (assign b i marker) y = Some marker ->
  get (assign b i marker) z = Some marker ->
  gap_of_line b marker (x, y, z) = Some i.
Proof.
  intros Hmarker (Hxy & Hyz & Hxz) Hi Hon Hx Hy Hz.
  assert (Hother : forall p, p <> i ->
                             get (assign b i marker) p = Some marker ->
                             strict_eq (get b p) marker = true /\
                             strict_eq (get b p) "" = false).
  { intros p Hp Hget. rewrite get_assign_other in Hget by congruence.
    rewrite Hget. cbn [strict_eq]. rewrite String.eqb_refl.
    split; [reflexivity |]. now apply String.eqb_neq. }
  assert (Hempty : strict_eq (get b i) "" = true)
    by (apply strict_eq_true; exact Hi).
  unfold gap_of_line.
  destruct Hon as [-> | [-> | ->]].
  - destruct (Hother y ltac:(congruence) Hy) as [-> _].
    destruct (Hother z ltac:(congruence) Hz) as [-> _].
    now rewrite Hempty.
  - destruct (Hother x ltac:(congruence) Hx) as [-> ->].
    destruct (Hother z ltac:(congruence) Hz) as [-> _].
    now rewrite Hempty.
  - destruct (Hother x ltac:(congruence) Hx) as [-> ->].
    destruct (Hother y ltac:(congruence) Hy) as [-> ->].
    now rewrite Hempty.
Qed.

(** No gap on any line: no empty cell completes a line. *)
Lemma no_gap_no_win (lines : list condition) (b : Board) (marker : string) :
  marker <> "" -> Forall distinctLine lines -> ~ hasWon lines b marker ->
  findTwoInARowGap lines b marker = None ->
  forall i, emptyCell b i -> ~ hasWon lines (assign b i marker) marker.
Proof.
  intros Hmarker Hdistinct Hnot Hnone i Hi (x & y & z & Hin & Hx & Hy & Hz).
  pose proof (findTwoInARowGap_in_None b marker lines Hnone _ Hin) as Hgap.
  rewrite Forall_forall in Hdistinct. specialize (Hdistinct _ Hin).
  destruct (Z.eq_dec i x) as [Hix | Hix];
    [| destruct (Z.eq_dec i y) as [Hiy | Hiy];
       [| destruct (Z.eq_dec i z) as [Hiz | Hiz]]].
  - rewrite (gap_of_line_complete b marker x y z i) in Hgap; auto.
    discriminate.
  - rewrite (gap_of_line_complete b marker x y z i) in Hgap; auto.
    discriminate.
  - rewrite (gap_of_line_complete b marker x y z i) in Hgap; auto.
    discriminate.
  - apply Hnot. exists x, y, z. split; [assumption |].
    rewrite !get_assign_other in * by congruence. auto.
Qed.

(** X3: for a marker that is not the empty string, a result of
    [findStrategicMove] other than -1 is an empty cell that completes a line
    of the marker; and when every line has three distinct cells and the
    marker has no line yet, the result -1 says that no empty cell completes
    one. *)
Theorem findStrategicMove_is_the_immediate_win (lines : list condition)
  (b : Board) (marker : string) :
  marker <> "" ->
  (findStrategicMove b marker lines <> -1 ->
   emptyCell b (findStrategicMove b marker lines) /\
   hasWon lines (assign b (findStrategicMove b marker lines) marker) marker)
  /\
  (Forall distinctLine lines -> ~ hasWon lines b marker ->
   findStrategicMove b marker lines = -1 ->
   forall i, emptyCell b i -> ~ hasWon lines (assign b i marker) marker).
Proof.
  intros Hmarker. rewrite (findStrategicMove_gap lines b marker Hmarker).
  destruct (findTwoInARowGap lines b marker) as [k |] eqn:Hgap; split.
  - intros _. split; [now apply findTwoInARowGap_empty in Hgap |].
    apply findTwoInARowGap_in_Some in Hgap as (cond & Hin & Hline).
    now apply gap_of_line_win with (cond := cond).
  - intros _ _ Hk. apply gap_is_index in Hgap. apply Z.eqb_neq in Hgap.
    contradiction.
  - congruence.
  - intros Hdistinct Hnot _. now apply no_gap_no_win.
Qed.

Lemma findStrategicMove_is_the_immediate_win_witness :
  "O" <> "" /\
  (findStrategicMove ["O"; "O"; ""; "X"; "X"; ""; ""; ""; ""] "O"
     GameController.winningConditions <> -1 ->
   emptyCell ["O"; "O"; ""; "X"; "X"; ""; ""; ""; ""]
     (findStrategicMove ["O"; "O"; ""; "X"; "X"; ""; ""; ""; ""] "O"
        GameController.winningConditions) /\
   hasWon GameController.winningConditions
     (assign ["O"; "O"; ""; "X"; "X"; ""; ""; ""; ""]
        (findStrategicMove ["O"; "O"; ""; "X"; "X"; ""; ""; ""; ""] "O"
           GameController.winningConditions) "O") "O") /\
  (Forall distinctLine GameController.winningConditions ->
   ~ hasWon GameController.winningConditions
       ["O"; "O"; ""; "X"; "X"; ""; ""; ""; ""] "O" ->
   findStrategicMove ["O"; "O"; ""; "X"; "X"; ""; ""; ""; ""] "O"
     GameController.winningConditions = -1 ->
   forall i, emptyCell ["O"; "O"; ""; "X"; "X"; ""; ""; ""; ""] i ->
             ~ hasWon GameController.winningConditions
                 (assign ["O"; "O"; ""; "X"; "X"; ""; ""; ""; ""] i "O")
                 "O").
Proof.
  assert (H1 : "O" <> "") by discriminate.
  split; [assumption |].
  exact (findStrategicMove_is_the_immediate_win
           GameController.winningConditions
           ["O"; "O"; ""; "X"; "X"; ""; ""; ""; ""] "O" H1).
Defined.

(** X2: on a board without a winner on which some empty cell completes a
    line of the AI, [getBestMove] returns such a cell, for every difficulty
    and whatever [Math.random()] gives. *)
Theorem getBestMove_takes_the_immediate_win (lines : list condition)
  (b : Board) (difficulty : string) (random : Q) :
  (List.length b < 99)%nat -> Forall distinctLine lines ->
  ~ hasWon lines b humanMarker -> ~ hasWon lines b aiMarker ->
  (exists j, emptyCell b j /\ hasWon lines (assign b j aiMarker) aiMarker) ->
  exists i,
    AILogic.getBestMove lines b difficulty random = Ok (Some i) /\
    emptyCell b i /\ hasWon lines (assign b i aiMarker) aiMarker.
Proof.
  intros Hsize Hdistinct HX HO (j & Hj & Hwin).
  assert (Hspots : findEmptySpots b <> [])
    by (apply has_empty_cell; now exists j).
  destruct (String.eqb difficulty "hard") eqn:Hhard.
  - apply String.eqb_eq in Hhard. subst difficulty.
    destruct (hard_move lines b random) as (i & s & Hmove & Hi & Hs & Hbest);
      [repeat split; assumption |].
    exists i. split; [assumption |]. split; [assumption |].
    pose proof (length_findEmptySpots b) as Hlen.
    assert (Hcount : forall k, emptyCell b k ->
              (List.length (findEmptySpots (assign b k aiMarker))
               < List.length b)%nat).
    { intros k Hk.
      assert (Hai : aiMarker <> "") by discriminate.
      pose proof (findEmptySpots_assign b k aiMarker Hk Hai). lia. }
    assert (Hkind : forall k r, emptyCell b k ->
              minimax_fuel (S (List.length b)) (assign b k aiMarker)
                humanMarker 1 lines = Ok (Some r) ->
              (hasWon lines (assign b k aiMarker) aiMarker -> score r = 99) /\
              (~ hasWon lines (assign b k aiMarker) aiMarker -> score r < 99)).
    { intros k r Hk Hr. specialize (Hcount k Hk).
      assert (HXk : ~ hasWon lines (assign b k aiMarker) humanMarker).
      { intros Hwon. apply HX.
        apply (hasWon_assign_other lines b k aiMarker humanMarker);
          [discriminate | assumption]. }
      assert (H0 : 0 <= 1) by lia.
      assert (Hb : 1 + len (findEmptySpots (assign b k aiMarker)) < 100)
        by (unfold len; lia).
      assert (Hturn : humanMarker <> "") by discriminate.
      destruct (minimax_fuel_score lines _ _ _ _ r Hturn H0 Hb Hr)
        as (_ & H2 & H3).
      split; [intros Hwon; rewrite (H2 HXk Hwon); lia |].
      intros Hnot. specialize (H3 HXk Hnot). lia. }
    destruct (minimax_fuel_total lines (S (List.length b))
                (assign b j aiMarker) humanMarker 1) as [sj Hsj];
      [discriminate | specialize (Hcount j Hj); lia |].
    specialize (Hbest j sj Hj Hsj).
    destruct (Hkind j sj Hj Hsj) as [Hj99 _]. specialize (Hj99 Hwin).
    destruct (Hkind i s Hi Hs) as [_ Hi98].
    destruct (hasWon_dec lines (assign b i aiMarker) aiMarker) as [Hyes | Hno];
      [assumption |].
    specialize (Hi98 Hno). lia.
  - rewrite (getBestMove_chain lines b difficulty random Hspots Hhard).
    destruct (findTwoInARowGap lines b aiMarker) as [win |] eqn:Hgap.
    + exists win. split; [reflexivity |].
      split; [now apply findTwoInARowGap_empty in Hgap |].
      apply findTwoInARowGap_in_Some in Hgap as (cond & Hin & Hline).
      now apply gap_of_line_win with (cond := cond).
    + exfalso. assert (Hai : aiMarker <> "") by discriminate.
      apply (no_gap_no_win lines b aiMarker Hai Hdistinct HO Hgap j Hj Hwin).
Qed.

Lemma getBestMove_takes_the_immediate_win_witness :
  ((List.length ["O"; "O"; ""; "X"; "X"; ""; ""; ""; "X"] < 99)%nat /\
   Forall distinctLine GameController.winningConditions /\
   ~ hasWon GameController.winningConditions
       ["O"; "O"; ""; "X"; "X"; ""; ""; ""; "X"] humanMarker /\
   ~ hasWon GameController.winningConditions
       ["O"; "O"; ""; "X"; "X"; ""; ""; ""; "X"] aiMarker /\
   exists j,
     emptyCell ["O"; "O"; ""; "X"; "X"; ""; ""; ""; "X"] j /\
     hasWon GameController.winningConditions
       (assign ["O"; "O"; ""; "X"; "X"; ""; ""; ""; "X"] j aiMarker)
       aiMarker) /\
  exists i,
    AILogic.getBestMove GameController.winningConditions
      ["O"; "O"; ""; "X"; "X"; ""; ""; ""; "X"] "hard" (1 # 2)
    = Ok (Some i) /\
    emptyCell ["O"; "O"; ""; "X"; "X"; ""; ""; ""; "X"] i /\
    hasWon GameController.winningConditions
      (assign ["O"; "O"; ""; "X"; "X"; ""; ""; ""; "X"] i aiMarker) aiMarker.
Proof.
  assert (H1 : (List.length ["O"; "O"; ""; "X"; "X"; ""; ""; ""; "X"] < 99)%nat)
    by (cbn; lia).
  pose proof distinct_winningConditions as H2.
  assert (H3 : ~ hasWon GameController.winningConditions
                   ["O"; "O"; ""; "X"; "X"; ""; ""; ""; "X"] humanMarker)
    by (apply checkBoardWin_false; reflexivity).
  assert (H4 : ~ hasWon GameController.winningConditions
                   ["O"; "O"; ""; "X"; "X"; ""; ""; ""; "X"] aiMarker)
    by (apply checkBoardWin_false; reflexivity).
  assert (H5 : exists j,
             emptyCell ["O"; "O"; ""; "X"; "X"; ""; ""; ""; "X"] j /\
             hasWon GameController.winningConditions
               (assign ["O"; "O"; ""; "X"; "X"; ""; ""; ""; "X"] j aiMarker)
               aiMarker).
  { exists 2. split; [reflexivity |].
    apply checkBoardWin_hasWon. reflexivity. }
  split; [repeat split; assumption |].
  exact (getBestMove_takes_the_immediate_win GameController.winningConditions
           ["O"; "O"; ""; "X"; "X"; ""; ""; ""; "X"] "hard" (1 # 2)
           H1 H2 H3 H4 H5).
Defined.

(** X4: when no empty cell completes a line of the AI and some empty cell
    completes one of the human, the medium tier returns a cell that
    completes a line of the human, whatever [Math.random()] gives; when it
    was the only one, no cell completes a line of the human after the AI
    took it. *)
Theorem medium_blocks_the_immediate_threat (lines : list condition)
  (b : Board) (random : Q) :
  Forall distinctLine lines ->
  ~ hasWon lines b humanMarker ->
  (forall j, emptyCell b j -> ~ hasWon lines (assign b j aiMarker) aiMarker) ->
  (exists j, emptyCell b j /\
             hasWon lines (assign b j humanMarker) humanMarker) ->
  exists k,
    AILogic.getBestMove lines b "medium" random = Ok (Some k) /\
    emptyCell b k /\
    hasWon lines (assign b k humanMarker) humanMarker /\
    ((forall j, emptyCell b j ->
                hasWon lines (assign b j humanMarker) humanMarker -> j = k) ->
     forall j, emptyCell (assign b k aiMarker) j ->
               ~ hasWon lines (assign (assign b k aiMarker) j humanMarker)
                   humanMarker).
Proof.
  intros Hdistinct HX Hnowin (j & Hj & Hthreat).
  assert (Hspots : findEmptySpots b <> [])
    by (apply has_empty_cell; now exists j).
  rewrite (getBestMove_chain lines b "medium" random Hspots eq_refl).
  destruct (findTwoInARowGap lines b aiMarker) as [win |] eqn:Hwin.
  { exfalso. apply (Hnowin win).
    - now apply findTwoInARowGap_empty in Hwin.
    - apply findTwoInARowGap_in_Some in Hwin as (cond & Hin & Hline).
      now apply gap_of_line_win with (cond := cond). }
  cbn [String.eqb Ascii.eqb Bool.eqb].
  destruct (findTwoInARowGap lines b humanMarker) as [k |] eqn:Hblock.
  2:{ exfalso. assert (Hhuman : humanMarker <> "") by discriminate.
      apply (no_gap_no_win lines b humanMarker Hhuman Hdistinct HX Hblock j
               Hj Hthreat). }
  exists k. split; [reflexivity |].
  assert (Hk : emptyCell b k) by now apply findTwoInARowGap_empty in Hblock.
  split; [assumption |]. split.
  - apply findTwoInARowGap_in_Some in Hblock as (cond & Hin & Hline).
    now apply gap_of_line_win with (cond := cond).
  - intros Honly i Hi (x & y & z & Hin & Hx & Hy & Hz).
    assert (Hik : i <> k).
    { intros ->. unfold emptyCell in Hi.
      rewrite (get_assign_same b k "" aiMarker Hk) in Hi. discriminate. }
    assert (Hib : emptyCell b i).
    { unfold emptyCell in *. now rewrite get_assign_other in Hi by congruence. }
    assert (Hcell : forall p,
               get (assign (assign b k aiMarker) i humanMarker) p
               = Some humanMarker ->
               get (assign b i humanMarker) p = Some humanMarker).
    { intros p Hp. apply get_assign_cases in Hp as [[-> _] | Hp].
      - now apply get_assign_same with (x := "").
      - apply get_assign_cases in Hp as [[_ Hp] | Hp]; [discriminate |].
        destruct (Z.eq_dec i p) as [-> | Hne].
        + now apply get_assign_same with (x := "").
        + now rewrite get_assign_other. }
    apply Hik. apply Honly; [assumption |].
    exists x, y, z. auto.
Qed.

Lemma medium_blocks_the_immediate_threat_witness :
  (Forall distinctLine GameController.winningConditions /\
   ~ hasWon GameController.winningConditions
       ["X"; "X"; ""; ""; "O"; ""; ""; ""; ""] humanMarker /\
   (forall j,
       emptyCell ["X"; "X"; ""; ""; "O"; ""; ""; ""; ""] j ->
       ~ hasWon GameController.winningConditions
           (assign ["X"; "X"; ""; ""; "O"; ""; ""; ""; ""] j aiMarker)
           aiMarker) /\
   exists j,
     emptyCell ["X"; "X"; ""; ""; "O"; ""; ""; ""; ""] j /\
     hasWon GameController.winningConditions
       (assign ["X"; "X"; ""; ""; "O"; ""; ""; ""; ""] j humanMarker)
       humanMarker) /\
  exists k,
    AILogic.getBestMove GameController.winningConditions
      ["X"; "X"; ""; ""; "O"; ""; ""; ""; ""] "medium" (1 # 2)
    = Ok (Some k) /\
    emptyCell ["X"; "X"; ""; ""; "O"; ""; ""; ""; ""] k /\
    hasWon GameController.winningConditions
      (assign ["X"; "X"; ""; ""; "O"; ""; ""; ""; ""] k humanMarker)
      humanMarker /\
    ((forall j,
         emptyCell ["X"; "X"; ""; ""; "O"; ""; ""; ""; ""] j ->
         hasWon GameController.winningConditions
           (assign ["X"; "X"; ""; ""; "O"; ""; ""; ""; ""] j humanMarker)
           humanMarker -> j = k) ->
     forall j,
       emptyCell (assign ["X"; "X"; ""; ""; "O"; ""; ""; ""; ""] k aiMarker)
         j ->
       ~ hasWon GameController.winningConditions
           (assign
              (assign ["X"; "X"; ""; ""; "O"; ""; ""; ""; ""] k aiMarker)
              j humanMarker) humanMarker).
Proof.
  pose proof distinct_winningConditions as H1.
  assert (H2 : ~ hasWon GameController.winningConditions
                   ["X"; "X"; ""; ""; "O"; ""; ""; ""; ""] humanMarker)
    by (apply checkBoardWin_false; reflexivity).
  assert (H3 : forall j,
             emptyCell ["X"; "X"; ""; ""; "O"; ""; ""; ""; ""] j ->
             ~ hasWon GameController.winningConditions
                 (assign ["X"; "X"; ""; ""; "O"; ""; ""; ""; ""] j aiMarker)
                 aiMarker).
  { apply no_gap_no_win; [discriminate | exact H1 | | reflexivity].
    apply checkBoardWin_false. reflexivity. }
  assert (H4 : exists j,
             emptyCell ["X"; "X"; ""; ""; "O"; ""; ""; ""; ""] j /\
             hasWon GameController.winningConditions
               (assign ["X"; "X"; ""; ""; "O"; ""; ""; ""; ""] j humanMarker)
               humanMarker).
  { exists 2. split; [reflexivity |].
    apply checkBoardWin_hasWon. reflexivity. }
  split; [repeat split; assumption |].
  exact (medium_blocks_the_immediate_threat GameController.winningConditions
           ["X"; "X"; ""; ""; "O"; ""; ""; ""; ""] (1 # 2) H1 H2 H3 H4).
Defined.

(** ** The turn flow *)

Lemma markCell_at_empty (b : Board) (i : Z) (marker : string) :
  emptyCell b i ->
  Logic.markCell_at b (Some i) marker = (true, assign b i marker).
Proof.
  intros Hi. unfold Logic.markCell_at, GameBoard.markCell.
  unfold emptyCell in Hi. now rewrite Hi.
Qed.

Lemma markCell_at_taken (b : Board) (index : option Z) (marker : string) :
  (forall i, index = Some i -> ~ emptyCell b i) ->
  Logic.markCell_at b index marker = (false, b).
Proof.
  intros Htaken. destruct index as [i |]; [| reflexivity].
  unfold Logic.markCell_at, GameBoard.markCell.
  destruct (strict_eq (get b i) "") eqn:Hcell; [| reflexivity].
  apply strict_eq_true in Hcell. now apply (Htaken i) in Hcell.
Qed.

(** X5: [handlePlayerMove] changes nothing and calls nothing when the game
    is over, and when the index is not that of an empty cell: an occupied
    cell, an index off the board, [NaN] or [undefined]. *)
Theorem handlePlayerMove_ignores_invalid_moves (st : GameController.state)
  (index : option Z) :
  GameController.isGameActive st = false \/
  (forall i, index = Some i -> ~ emptyCell (GameController.gameBoard st) i) ->
  Logic.handlePlayerMove st index = (st, []).
Proof.
  intros [Hover | Htaken]; unfold Logic.handlePlayerMove.
  - now rewrite Hover.
  - destruct (GameController.isGameActive st); [| reflexivity].
    now rewrite (markCell_at_taken _ _ _ Htaken).
Qed.

Lemma handlePlayerMove_ignores_invalid_moves_witness :
  (GameController.isGameActive
     (GameController.mkState ["X"; ""; ""; ""; "O"; ""; ""; ""; ""] "X" true
        "hard" "pvai") = false \/
   (forall i,
       Some 4 = Some i ->
       ~ emptyCell
           (GameController.gameBoard
              (GameController.mkState ["X"; ""; ""; ""; "O"; ""; ""; ""; ""]
                 "X" true "hard" "pvai")) i)) /\
  Logic.handlePlayerMove
    (GameController.mkState ["X"; ""; ""; ""; "O"; ""; ""; ""; ""] "X" true
       "hard" "pvai") (Some 4)
  = (GameController.mkState ["X"; ""; ""; ""; "O"; ""; ""; ""; ""] "X" true
       "hard" "pvai", []).
Proof.
  assert (H1 : GameController.isGameActive
                 (GameController.mkState
                    ["X"; ""; ""; ""; "O"; ""; ""; ""; ""] "X" true
                    "hard" "pvai") = false \/
               (forall i,
                   Some 4 = Some i ->
                   ~ emptyCell
                       (GameController.gameBoard
                          (GameController.mkState
                             ["X"; ""; ""; ""; "O"; ""; ""; ""; ""]
                             "X" true "hard" "pvai")) i)).
  { right. intros i [= <-]. discriminate. }
  split; [assumption |].
  exact (handlePlayerMove_ignores_invalid_moves _ (Some 4) H1).
Defined.

(** The three ways [checkResult] ends. *)
Lemma checkResult_cases (st : GameController.state) :
  (exists winner cond,
      GameController.find_win (GameController.gameBoard st)
        GameController.winningConditions = Some (winner, cond) /\
      GameController.checkResult st =
      (true, GameController.deactivate st,
       [GameController.recordGameResult (Some winner)
          (GameController.currentMode st)
          (GameController.currentDifficulty st);
        GameController.showResult
          ("Player " ++ winner ++ " WINS!")%string (Some winner) (Some cond);
        GameController.toggleBoardInteraction false;
        GameController.deleteGameState;
        if String.eqb (GameController.currentMode st) "pvai"
           && String.eqb winner "O"
        then GameController.playLossSound
        else GameController.playWinSound])) \/
  (GameController.find_win (GameController.gameBoard st)
     GameController.winningConditions = None /\
   GameController.includes (GameController.gameBoard st) "" = false /\
   GameController.checkResult st =
   (true, GameController.deactivate st,
    [GameController.recordGameResult None (GameController.currentMode st)
       (GameController.currentDifficulty st);
     GameController.showResult "It's a DRAW!" None None;
     GameController.toggleBoardInteraction false;
     GameController.deleteGameState;
     GameController.playDrawSound])) \/
  (GameController.find_win (GameController.gameBoard st)
     GameController.winningConditions = None /\
   GameController.includes (GameController.gameBoard st) "" = true /\
   GameController.checkResult st = (false, st, [])).
Proof.
  unfold GameController.checkResult.
  destruct (GameController.find_win (GameController.gameBoard st)
              GameController.winningConditions) as [[winner cond] |].
  - left. exists winner, cond. auto.
  - destruct (GameController.includes (GameController.gameBoard st) "");
      cbn [negb]; auto.
Qed.

Lemma find_win_Some (b : Board) (lines : list condition) (winner : string)
  (cond : condition) :
  GameController.find_win b lines = Some (winner, cond) ->
  In cond lines /\ winner <> "" /\
  exists x y z, cond = (x, y, z) /\
    get b x = Some winner /\ get b y = Some winner /\ get b z = Some winner.
Proof.
  induction lines as [| [[x y] z] rest IH]; simpl; [discriminate |].
  destruct (GameController.three_alike (get b x) (get b y) (get b z))
    as [w |] eqn:Hline.
  - intros [= -> <-]. apply three_alike_Some in Hline as (Hw & Hx & Hy & Hz).
    split; [now left |]. split; [assumption |]. exists x, y, z. auto.
  - intros Hrest. destruct (IH Hrest) as (Hin & Hrest'). auto.
Qed.

(** X7: [checkResult] returns true exactly when some line holds three
    equal markers or no cell is empty; a line it shows is one of the
    eight and is held by the winner it names, whom it records too; of the
    state it changes [isGameActive] only, and it calls nothing when it
    returns false. *)
Theorem checkResult_reports_the_line (st : GameController.state) :
  let '(over, st', calls) := GameController.checkResult st in
  (over = true <->
   (exists x y z s, In (x, y, z) GameController.winningConditions /\
      s <> "" /\
      get (GameController.gameBoard st) x = Some s /\
      get (GameController.gameBoard st) y = Some s /\
      get (GameController.gameBoard st) z = Some s) \/
   (forall i, ~ emptyCell (GameController.gameBoard st) i)) /\
  (forall message winner x y z,
      In (GameController.showResult message (Some winner) (Some (x, y, z)))
        calls ->
      In (x, y, z) GameController.winningConditions /\ winner <> "" /\
      get (GameController.gameBoard st) x = Some winner /\
      get (GameController.gameBoard st) y = Some winner /\
      get (GameController.gameBoard st) z = Some winner /\
      In (GameController.recordGameResult (Some winner)
            (GameController.currentMode st)
            (GameController.currentDifficulty st)) calls) /\
  GameController.gameBoard st' = GameController.gameBoard st /\
  GameController.currentPlayer st' = GameController.currentPlayer st /\
  GameController.currentMode st' = GameController.currentMode st /\
  GameController.currentDifficulty st' = GameController.currentDifficulty st /\
  GameController.isGameActive st' =
  (if over then false else GameController.isGameActive st) /\
  (over = false -> calls = []).
Proof.
  destruct (checkResult_cases st)
    as [(winner & cond & Hwin & ->) | [(Hwin & Hfull & ->) | (Hwin & Hfree & ->)]].
  - apply find_win_Some in Hwin as (Hin & Hw & x & y & z & -> & Hx & Hy & Hz).
    split; [| split; [| repeat split; discriminate]].
    + split; [intros _ | reflexivity]. left. exists x, y, z, winner. auto.
    + intros message w x' y' z' [H | [H | [H | [H | [H | []]]]]];
        try discriminate.
      * injection H as _ <- <- <- <-. repeat split; auto. now left.
      * destruct (String.eqb (GameController.currentMode st) "pvai"
                  && String.eqb winner "O"); discriminate.
  - split; [| split; [| repeat split; discriminate]].
    + split; [intros _ | reflexivity]. right.
      intros i Hi.
      assert (GameController.includes (GameController.gameBoard st) "" = true)
        by (apply includes_empty; eauto).
      congruence.
    + intros message w x y z [H | [H | [H | [H | [H | []]]]]]; discriminate.
  - split; [| split; [| repeat split; reflexivity]].
    + split; [discriminate |]. intros [(x & y & z & s & Hin & Hs & Hx & Hy & Hz)
                                       | Hfull].
      * pose proof (proj1 (find_win_None _ _) Hwin x y z Hin) as Hnone.
        assert (Hsome : GameController.three_alike
                          (get (GameController.gameBoard st) x)
                          (get (GameController.gameBoard st) y)
                          (get (GameController.gameBoard st) z) = Some s)
          by (apply three_alike_Some; auto).
        congruence.
      * apply includes_empty in Hfree as [i Hi]. now apply Hfull in Hi.
    + intros message w x y z [].
Qed.

(** [switchPlayer] in a game that goes on. *)
Lemma switchPlayer_active (st : GameController.state) :
  GameController.isGameActive st = true ->
  Logic.switchPlayer st =
  (GameController.mkState (GameController.gameBoard st)
     (otherPlayer (GameController.currentPlayer st)) true
     (GameController.currentDifficulty st) (GameController.currentMode st),
   [Logic.updateMessage
      ("Player " ++ otherPlayer (GameController.currentPlayer st)
       ++ "'s turn")%string (otherPlayer (GameController.currentPlayer st));
    Logic.updatePlayerIndicator
      (otherPlayer (GameController.currentPlayer st))
      (GameController.currentMode st);
    Logic.saveGameStateCall (GameController.gameBoard st)
      (otherPlayer (GameController.currentPlayer st))
      (GameController.currentMode st) (GameController.currentDifficulty st)]
   ++ (if String.eqb (GameController.currentMode st) "pvai"
       then if String.eqb (GameController.currentPlayer st) "X"
            then [Logic.collaborator
                    (GameController.toggleBoardInteraction false);
                  Logic.playAISound;
                  Logic.setTimeout_performAIMove 700]
            else [Logic.collaborator
                    (GameController.toggleBoardInteraction true)]
       else [])).
Proof.
  intros Hactive. unfold Logic.switchPlayer, Logic.saveGameState, otherPlayer.
  cbn [GameController.gameBoard GameController.currentPlayer
       GameController.isGameActive GameController.currentMode
       GameController.currentDifficulty].
  rewrite Hactive.
  destruct (String.eqb (GameController.currentMode st) "pvai");
    destruct (String.eqb (GameController.currentPlayer st) "X"); reflexivity.
Qed.

(** An accepted move, by the way [checkResult] ends. *)
Lemma handlePlayerMove_accepted (st : GameController.state) (i : Z) :
  GameController.isGameActive st = true ->
  emptyCell (GameController.gameBoard st) i ->
  let board := assign (GameController.gameBoard st) i
                 (GameController.currentPlayer st) in
  let st1 := GameController.mkState board (GameController.currentPlayer st)
               true (GameController.currentDifficulty st)
               (GameController.currentMode st) in
  Logic.handlePlayerMove st (Some i) =
  let '(over, st2, calls) := GameController.checkResult st1 in
  if over
  then (st2, [Logic.render board; Logic.playMoveSound]
             ++ map Logic.collaborator calls)
  else (fst (Logic.switchPlayer st2),
        [Logic.render board; Logic.playMoveSound]
        ++ map Logic.collaborator calls ++ snd (Logic.switchPlayer st2)).
Proof.
  intros Hactive Hi. cbv zeta. unfold Logic.handlePlayerMove.
  rewrite Hactive, (markCell_at_empty _ _ _ Hi). cbn [negb].
  destruct (GameController.checkResult _) as [[over st2] calls].
  destruct over; cbn [negb]; [reflexivity |].
  now destruct (Logic.switchPlayer st2).
Qed.

(** X6: on an empty cell of an active game [handlePlayerMove] marks the
    cell with the current player and keeps mode and difficulty. Then
    either the game goes on: the turn passes, the new state is saved, no
    result is recorded, the saved state is not deleted and a cell is still
    empty; or the game is over: the player stays, the saved state is
    deleted and not saved again, the board is made inactive and one result
    is recorded. *)
Theorem handlePlayerMove_marks_and_passes_the_turn
  (st : GameController.state) (i : Z) :
  GameController.isGameActive st = true ->
  emptyCell (GameController.gameBoard st) i ->
  let '(st', effects) := Logic.handlePlayerMove st (Some i) in
  GameController.gameBoard st' =
  assign (GameController.gameBoard st) i (GameController.currentPlayer st) /\
  GameController.currentMode st' = GameController.currentMode st /\
  GameController.currentDifficulty st' = GameController.currentDifficulty st /\
  ((GameController.isGameActive st' = true /\
    GameController.currentPlayer st' =
    otherPlayer (GameController.currentPlayer st) /\
    In (Logic.saveGameStateCall (GameController.gameBoard st')
          (GameController.currentPlayer st') (GameController.currentMode st')
          (GameController.currentDifficulty st')) effects /\
    resultsRecorded effects = [] /\
    ~ In (Logic.collaborator GameController.deleteGameState) effects /\
    exists k, emptyCell (GameController.gameBoard st') k) \/
   (GameController.isGameActive st' = false /\
    GameController.currentPlayer st' = GameController.currentPlayer st /\
    In (Logic.collaborator GameController.deleteGameState) effects /\
    In (Logic.collaborator (GameController.toggleBoardInteraction false))
       effects /\
    (forall b player mode difficulty,
        ~ In (Logic.saveGameStateCall b player mode difficulty) effects) /\
    exists winner,
      resultsRecorded effects =
      [Logic.collaborator
         (GameController.recordGameResult winner
            (GameController.currentMode st)
            (GameController.currentDifficulty st))])).
Proof.
  intros Hactive Hi.
  rewrite (handlePlayerMove_accepted st i Hactive Hi). cbv zeta.
  set (board := assign (GameController.gameBoard st) i
                  (GameController.currentPlayer st)).
  set (st1 := GameController.mkState board (GameController.currentPlayer st)
                true (GameController.currentDifficulty st)
                (GameController.currentMode st)).
  destruct (checkResult_cases st1)
    as [(winner & cond & Hwin & ->) | [(Hwin & Hfull & ->) | (Hwin & Hfree & ->)]];
    cbv iota.
  - split; [reflexivity |]. split; [reflexivity |]. split; [reflexivity |].
    right. split; [reflexivity |]. split; [reflexivity |].
    split; [cbn [map app In]; tauto |]. split; [cbn [map app In]; tauto |].
    split.
    + intros b p m d. cbn [map app In].
      intros [H | [H | [H | [H | [H | [H | [H | []]]]]]]]; discriminate.
    + exists (Some winner). cbn [map app resultsRecorded filter].
      now destruct (String.eqb (GameController.currentMode st1) "pvai"
                    && String.eqb winner "O").
  - split; [reflexivity |]. split; [reflexivity |]. split; [reflexivity |].
    right. split; [reflexivity |]. split; [reflexivity |].
    split; [cbn [map app In]; tauto |]. split; [cbn [map app In]; tauto |].
    split.
    + intros b p m d. cbn [map app In].
      intros [H | [H | [H | [H | [H | [H | [H | []]]]]]]]; discriminate.
    + exists None. reflexivity.
  - rewrite (switchPlayer_active st1 eq_refl). cbn [fst snd map app].
    cbn [GameController.gameBoard GameController.currentPlayer
         GameController.isGameActive GameController.currentMode
         GameController.currentDifficulty st1].
    split; [reflexivity |]. split; [reflexivity |]. split; [reflexivity |].
    left. split; [reflexivity |]. split; [reflexivity |].
    split; [cbn [In]; tauto |].
    split; [| split; [| now apply includes_empty]].
    + destruct (String.eqb (GameController.currentMode st) "pvai");
        destruct (String.eqb (GameController.currentPlayer st) "X");
        reflexivity.
    + destruct (String.eqb (GameController.currentMode st) "pvai");
        destruct (String.eqb (GameController.currentPlayer st) "X");
        cbn [In];
        repeat (let H := fresh in intros [H | H]; [discriminate | revert H]);
        intros [].
Qed.

Lemma handlePlayerMove_marks_and_passes_the_turn_witness :
  (GameController.isGameActive initialState = true /\
   emptyCell (GameController.gameBoard initialState) 4) /\
  let '(st', effects) := Logic.handlePlayerMove initialState (Some 4) in
  GameController.gameBoard st' =
  assign (GameController.gameBoard initialState) 4
    (GameController.currentPlayer initialState) /\
  GameController.currentMode st' = GameController.currentMode initialState /\
  GameController.currentDifficulty st' =
  GameController.currentDifficulty initialState /\
  ((GameController.isGameActive st' = true /\
    GameController.currentPlayer st' =
    otherPlayer (GameController.currentPlayer initialState) /\
    In (Logic.saveGameStateCall (GameController.gameBoard st')
          (GameController.currentPlayer st') (GameController.currentMode st')
          (GameController.currentDifficulty st')) effects /\
    resultsRecorded effects = [] /\
    ~ In (Logic.collaborator GameController.deleteGameState) effects /\
    exists k, emptyCell (GameController.gameBoard st') k) \/
   (GameController.isGameActive st' = false /\
    GameController.currentPlayer st' =
    GameController.currentPlayer initialState /\
    In (Logic.collaborator GameController.deleteGameState) effects /\
    In (Logic.collaborator (GameController.toggleBoardInteraction false))
       effects /\
    (forall b player mode difficulty,
        ~ In (Logic.saveGameStateCall b player mode difficulty) effects) /\
    exists winner,
      resultsRecorded effects =
      [Logic.collaborator
         (GameController.recordGameResult winner
            (GameController.currentMode initialState)
            (GameController.currentDifficulty initialState))])).
Proof.
  assert (H1 : GameController.isGameActive initialState = true)
    by reflexivity.
  assert (H2 : emptyCell (GameController.gameBoard initialState) 4)
    by reflexivity.
  split; [split; assumption |].
  exact (handlePlayerMove_marks_and_passes_the_turn initialState 4 H1 H2).
Defined.

(** ** The pages of a game *)

Lemma wellFormed_assign (b : Board) (i : Z) (v : string) :
  wellFormed b -> v = "" \/ v = humanMarker \/ v = aiMarker ->
  wellFormed (assign b i v).
Proof.
  unfold wellFormed, assign. intros Hwf Hv.
  destruct (i <? 0); [assumption |].
  generalize (Z.to_nat i). clear i.
  induction Hwf as [| x rest Hx Hrest IH]; intros [| n]; simpl;
    constructor; auto.
Qed.

Lemma countMarker_assign_nat (marker v : string) (b : Board) (n : nat) :
  marker <> "" -> nth_error b n = Some "" ->
  countMarker marker (assign_nat b n v) =
  (countMarker marker b + (if String.eqb marker v then 1 else 0))%nat.
Proof.
  intros Hmarker. unfold countMarker. revert n.
  induction b as [| x rest IH]; intros [| n] Hn; simpl in *;
    try discriminate.
  - injection Hn as ->.
    destruct (String.eqb_spec marker "") as [| _]; [contradiction |].
    destruct (String.eqb marker v); simpl; lia.
  - destruct (String.eqb marker x); simpl; rewrite (IH n Hn); lia.
Qed.

Lemma countMarker_assign (marker v : string) (b : Board) (i : Z) :
  marker <> "" -> emptyCell b i ->
  countMarker marker (assign b i v) =
  (countMarker marker b + (if String.eqb marker v then 1 else 0))%nat.
Proof.
  intros Hmarker Hi. unfold emptyCell, get, assign in *.
  destruct (i <? 0); [discriminate |].
  now apply countMarker_assign_nat.
Qed.

Lemma resultsRecorded_app (xs ys : list Logic.effect) :
  resultsRecorded (xs ++ ys) = resultsRecorded xs ++ resultsRecorded ys.
Proof. apply filter_app. Qed.

(** Every tier returns an empty cell on a board that is still open. *)
Lemma getBestMove_lands (lines : list condition) (b : Board)
  (difficulty : string) (random : Q) :
  openNode lines b -> (0 <= random)%Q -> (random < 1)%Q ->
  exists i,
    AILogic.getBestMove lines b difficulty random = Ok (Some i) /\
    emptyCell b i.
Proof.
  intros Hopen Hlow Hhigh. pose proof Hopen as (_ & _ & Hspots).
  destruct (String.eqb difficulty "hard") eqn:Hhard.
  - apply String.eqb_eq in Hhard. subst difficulty.
    destruct (hard_move lines b random Hopen) as (i & _ & Hmove & Hi & _).
    exists i. auto.
  - rewrite (getBestMove_chain _ b difficulty random Hspots Hhard).
    destruct (findTwoInARowGap lines b aiMarker) as [win |] eqn:Hwin.
    { exists win. split; [reflexivity |].
      now apply findTwoInARowGap_empty in Hwin. }
    destruct (random_spot b random Hlow Hhigh Hspots) as (i & Hi & Hcell).
    destruct (String.eqb difficulty "medium").
    + destruct (findTwoInARowGap lines b humanMarker) as [block |] eqn:Hblock.
      { exists block. split; [reflexivity |].
        now apply findTwoInARowGap_empty in Hblock. }
      destruct (strict_eq (get b 4) "") eqn:Hcenter.
      * exists 4. split; [reflexivity |]. now apply strict_eq_true.
      * exists i. rewrite Hi. auto.
    + exists i. rewrite Hi. auto.
Qed.

Lemma after_nothing (p : Page.page) :
  Page.after p (Page.ctrl p, []) =
  Page.mkPage (Page.ctrl p) (Page.boardInactive p) (Page.pendingAIMoves p)
    (Page.trace p).
Proof.
  unfold Page.after. cbn. now rewrite Nat.add_0_r, app_nil_r.
Qed.

(** An accepted move keeps the invariant, whether the human or the AI
    makes it. *)
Lemma accepted_move_invariant (pending0 : nat) (st : GameController.state)
  (i : Z) (inactive0 : bool) (pending : nat) (tr : list Logic.effect) :
  let b := GameController.gameBoard st in
  List.length b = 9%nat -> wellFormed b ->
  GameController.currentPlayer st = "X" \/
  GameController.currentPlayer st = "O" ->
  GameController.isGameActive st = true ->
  countMarker "X" b =
  (countMarker "O" b +
   (if String.eqb (GameController.currentPlayer st) "O" then 1 else 0))%nat ->
  emptyCell b i ->
  (if String.eqb (GameController.currentMode st) "pvai"
   then if String.eqb (GameController.currentPlayer st) "X"
        then inactive0 = false else inactive0 = true
   else inactive0 = false) ->
  (pending <= pending0)%nat ->
  resultsRecorded tr = [] ->
  pageInvariant pending0
    (Page.after (Page.mkPage st inactive0 pending tr)
       (Logic.handlePlayerMove st (Some i))).
Proof.
  intros b Hnine Hwf Hplayer Hactive Hcount Hi Hclass Hpending Htrace.
  rewrite (handlePlayerMove_accepted st i Hactive Hi). cbv zeta.
  fold b.
  set (board := assign b i (GameController.currentPlayer st)).
  set (st1 := GameController.mkState board (GameController.currentPlayer st)
                true (GameController.currentDifficulty st)
                (GameController.currentMode st)).
  assert (Hnine' : List.length board = 9%nat)
    by (unfold board; now rewrite length_assign).
  assert (Hwf' : wellFormed board).
  { apply wellFormed_assign; [assumption |].
    destruct Hplayer as [-> | ->]; auto. }
  assert (HcountX : countMarker "X" board =
                    (countMarker "X" b +
                     (if String.eqb "X" (GameController.currentPlayer st)
                      then 1 else 0))%nat)
    by (apply countMarker_assign; [discriminate | assumption]).
  assert (HcountO : countMarker "O" board =
                    (countMarker "O" b +
                     (if String.eqb "O" (GameController.currentPlayer st)
                      then 1 else 0))%nat)
    by (apply countMarker_assign; [discriminate | assumption]).
  assert (Hbounds : (countMarker "O" board <= countMarker "X" board
                     <= countMarker "O" board + 1)%nat).
  { rewrite HcountX, HcountO, Hcount.
    destruct Hplayer as [-> | ->]; cbn; lia. }
  unfold pageInvariant.
  destruct (checkResult_cases st1)
    as [(winner & cond & Hwin & ->) | [(Hwin & Hfull & ->) | (Hwin & Hfree & ->)]];
    cbv iota; unfold Page.after, Page.dueAIMoves;
    cbn [fst snd Page.ctrl Page.boardInactive Page.pendingAIMoves Page.trace
         GameController.deactivate GameController.gameBoard
         GameController.currentPlayer GameController.isGameActive
         GameController.currentMode GameController.currentDifficulty st1].
  - (* the move completes a line *)
    split; [assumption |]. split; [assumption |]. split; [assumption |].
    split; [assumption |]. split; [discriminate |].
    split.
    + rewrite andb_false_r.
      cbn [map app fold_left Page.class_after Page.toggleBoardInteraction
           Page.scheduled list_sum].
      destruct (String.eqb (GameController.currentMode st) "pvai" && _);
        cbn [fold_left Page.class_after Page.scheduled list_sum Nat.add];
        destruct (String.eqb (GameController.currentMode st) "pvai");
        (split; [reflexivity | cbn; lia]).
    + rewrite resultsRecorded_app, Htrace. cbn [map app].
      unfold resultsRecorded. cbn [filter].
      now destruct (String.eqb (GameController.currentMode st) "pvai" && _).
  - (* the move fills the board *)
    split; [assumption |]. split; [assumption |]. split; [assumption |].
    split; [assumption |]. split; [discriminate |].
    split.
    + rewrite andb_false_r.
      cbn [map app fold_left Page.class_after Page.toggleBoardInteraction
           Page.scheduled list_sum Nat.add].
      destruct (String.eqb (GameController.currentMode st) "pvai");
        (split; [reflexivity | cbn; lia]).
    + rewrite resultsRecorded_app, Htrace. reflexivity.
  - (* the game goes on *)
    rewrite (switchPlayer_active st1 eq_refl).
    cbn [fst snd GameController.gameBoard GameController.currentPlayer
         GameController.isGameActive GameController.currentMode
         GameController.currentDifficulty st1].
    apply (find_win_hasWon board GameController.winningConditions Hwf')
      in Hwin as [HX HO].
    apply includes_empty in Hfree.
    split; [assumption |]. split; [assumption |].
    split; [unfold otherPlayer; destruct Hplayer as [-> | ->]; auto |].
    split; [assumption |].
    split.
    { intros _. split; [assumption |]. split; [assumption |].
      split; [assumption |].
      rewrite HcountX, HcountO, Hcount. unfold otherPlayer.
      destruct Hplayer as [-> | ->]; cbn; lia. }
    split.
    + unfold otherPlayer. revert Hclass.
      destruct (String.eqb (GameController.currentMode st) "pvai");
        destruct Hplayer as [-> | ->]; cbn; intros ->;
        (split; [reflexivity | cbn; lia]).
    + rewrite resultsRecorded_app, Htrace. cbn [map app].
      destruct (String.eqb (GameController.currentMode st) "pvai");
        destruct (String.eqb (GameController.currentPlayer st) "X");
        reflexivity.
Qed.

(** On an open board [performAIMove] plays the cell [getBestMove]
    returns, an empty one. *)
Lemma performAIMove_lands (st : GameController.state) (random : Q) :
  openNode GameController.winningConditions (GameController.gameBoard st) ->
  (0 <= random)%Q -> (random < 1)%Q ->
  exists i,
    emptyCell (GameController.gameBoard st) i /\
    AILogic.getBestMove GameController.winningConditions
      (GameController.gameBoard st) (GameController.currentDifficulty st)
      random = Ok (Some i) /\
    Logic.performAIMove st random = Ok (Logic.handlePlayerMove st (Some i)).
Proof.
  intros Hopen Hlow Hhigh.
  destruct (getBestMove_lands _ _ (GameController.currentDifficulty st)
              random Hopen Hlow Hhigh) as (i & Hmove & Hi).
  exists i. split; [assumption |]. split; [assumption |].
  unfold Logic.performAIMove. rewrite Hmove. cbn [bind].
  apply emptyCell_index in Hi.
  destruct i as [| q | q]; try reflexivity. exfalso. lia.
Qed.

(** Once the game is over [performAIMove] changes nothing. *)
Lemma performAIMove_idle (st : GameController.state) (random : Q) :
  GameController.isGameActive st = false ->
  Logic.performAIMove st random = Ok (st, []).
Proof.
  intros Hover. unfold Logic.performAIMove.
  destruct (getBestMove_total GameController.winningConditions
              (GameController.gameBoard st)
              (GameController.currentDifficulty st) random) as [v ->].
  cbn [bind]. unfold Logic.handlePlayerMove. rewrite Hover. cbn [negb].
  destruct v as [[| q | q] |]; try reflexivity.
  destruct q; reflexivity.
Qed.

Lemma reset_invariant :
  List.length GameBoard.reset = 9%nat /\ wellFormed GameBoard.reset /\
  ~ hasWon GameController.winningConditions GameBoard.reset humanMarker /\
  ~ hasWon GameController.winningConditions GameBoard.reset aiMarker /\
  emptyCell GameBoard.reset 0.
Proof.
  split; [reflexivity |]. split.
  { unfold wellFormed, GameBoard.reset.
    repeat (apply Forall_cons; [now left |]). apply Forall_nil. }
  split; [apply checkBoardWin_false; reflexivity |].
  split; [apply checkBoardWin_false; reflexivity | reflexivity].
Qed.

(** A new game: the state, and what the effects come to. *)
Lemma startGame_new (dom : Logic.document) (stats : StatsManager.statistics)
  (st0 : GameController.state) :
  exists effects,
    Logic.startGame dom stats false st0 =
    (GameController.mkState GameBoard.reset "X" true
       (Logic.checked_or (Logic.checkedDifficulty dom)
          (GameController.currentDifficulty st0))
       (Logic.checked_or (Logic.checkedMode dom)
          (GameController.currentMode st0)),
     Logic.collaborator GameController.deleteGameState
     :: Logic.resetUI :: effects) /\
    fold_left Page.class_after effects false = false /\
    list_sum (map Page.scheduled effects) = 0%nat /\
    resultsRecorded effects = [] /\
    forall saved, savedGame_from saved effects = saved.
Proof.
  unfold Logic.startGame.
  cbn [negb GameController.currentPlayer GameController.currentMode
       GameController.currentDifficulty Logic.getCurrentSettings
       Logic.mode Logic.difficulty].
  rewrite andb_false_r.
  destruct (snd (StatsManager.updateStatsUI _ _ _ _));
    eexists; (split; [reflexivity |]); repeat split.
Qed.

Lemma startGame_page (dom : Logic.document)
  (stats : StatsManager.statistics) (st0 : GameController.state)
  (inactive0 : bool) (pending0 : nat) :
  let p := Page.after (Page.mkPage st0 inactive0 pending0 [])
             (Logic.startGame dom stats false st0) in
  Page.ctrl p =
  GameController.mkState GameBoard.reset "X" true
    (Logic.checked_or (Logic.checkedDifficulty dom)
       (GameController.currentDifficulty st0))
    (Logic.checked_or (Logic.checkedMode dom)
       (GameController.currentMode st0)) /\
  Page.boardInactive p = false /\
  Page.pendingAIMoves p = pending0 /\
  resultsRecorded (Page.trace p) = [] /\
  forall saved, savedGame_from saved (Page.trace p) = None.
Proof.
  cbv zeta.
  destruct (startGame_new dom stats st0)
    as (effects & -> & Hclass & Hnone & Hrec & Hsaved).
  unfold Page.after.
  cbn [fst snd Page.ctrl Page.boardInactive Page.pendingAIMoves Page.trace
       fold_left Page.class_after app resultsRecorded filter].
  split; [reflexivity |]. split; [assumption |].
  split; [replace (list_sum _)
            with (list_sum (map Page.scheduled effects)) by reflexivity;
          lia |].
  split; [assumption |].
  intros saved. unfold savedGame_from. cbn [fold_left].
  apply Hsaved.
Qed.

(** The state of a page, by the class of its board. *)
Lemma page_class (pending0 : nat) (p : Page.page) :
  pageInvariant pending0 p ->
  (Page.boardInactive p = false <->
   GameController.isGameActive (Page.ctrl p) = true /\
   (GameController.currentMode (Page.ctrl p) = "pvai" ->
    GameController.currentPlayer (Page.ctrl p) = "X")) /\
  (GameController.isGameActive (Page.ctrl p) = true ->
   if String.eqb (GameController.currentMode (Page.ctrl p)) "pvai"
   then if String.eqb (GameController.currentPlayer (Page.ctrl p)) "X"
        then Page.boardInactive p = false
        else Page.boardInactive p = true
   else Page.boardInactive p = false).
Proof.
  intros (_ & _ & Hplayer & _ & _ & [Hclass _] & _).
  destruct (String.eqb_spec (GameController.currentMode (Page.ctrl p))
              "pvai") as [Hmode | Hmode];
    destruct (GameController.isGameActive (Page.ctrl p)).
  - destruct Hplayer as [Hp | Hp]; rewrite Hp in *; cbn in Hclass;
      rewrite Hclass.
    + repeat split; auto.
    + split; [| intros _; reflexivity].
      split; [discriminate |]. intros [_ H]. now specialize (H Hmode).
  - rewrite Hclass. split; [| discriminate].
    split; [discriminate | intros [H _]; discriminate].
  - cbn in Hclass. rewrite Hclass. split; [| intros _; reflexivity].
    split; [| reflexivity].
    intros _. split; [reflexivity |]. intros H. contradiction.
  - cbn in Hclass. rewrite Hclass. split; [| discriminate].
    split; [discriminate | intros [H _]; discriminate].
Qed.

(** A click either changes nothing or is a move on an empty cell. *)
Lemma click_cases (b : Board) (index : option Z) :
  (exists i, index = Some i /\ emptyCell b i) \/
  (forall i, index = Some i -> ~ emptyCell b i).
Proof.
  destruct index as [i |]; [| right; intros ? H; discriminate].
  unfold emptyCell.
  destruct (get b i) as [s |] eqn:Hget;
    [| right; intros ? [= <-] H; congruence].
  destruct (string_dec s "") as [-> | Hs]; [left; eauto |].
  right. intros ? [= <-] H. congruence.
Qed.

(** The calls that are pending when a handler moves are not more than
    those that were when the game started: the one the game scheduled for
    O has just run. *)
Lemma pending_before_move (pending0 : nat) (p : Page.page) :
  pageInvariant pending0 p ->
  (Page.boardInactive p = false ->
   Page.pendingAIMoves p <= pending0)%nat /\
  (Page.pendingAIMoves p - 1 <= pending0)%nat.
Proof.
  intros Hinv. pose proof (page_class pending0 p Hinv) as [Hclick _].
  destruct Hinv as (_ & _ & _ & _ & _ & [_ Hbounds] & _).
  unfold Page.dueAIMoves in Hbounds. split.
  - intros Hclass. apply Hclick in Hclass as [Hactive Hturn].
    destruct (String.eqb_spec (GameController.currentMode (Page.ctrl p))
                "pvai") as [Hmode | Hmode]; cbn [andb] in Hbounds; [| lia].
    rewrite (Hturn Hmode) in Hbounds. cbn in Hbounds. lia.
  - destruct (_ && _ && _); lia.
Qed.

Lemma game_invariant (dom : Logic.document) (pending0 : nat)
  (p : Page.page) :
  Page.Game dom pending0 p -> pageInvariant pending0 p.
Proof.
  induction 1 as [stats st0 inactive0
                 | p index Hgame IH Hclass
                 | p random r Hgame IH Hpending Hlow Hhigh Hrun].
  - destruct reset_invariant as (Hnine & Hwf & HX & HO & Hfree).
    destruct (startGame_page dom stats st0 inactive0 pending0)
      as (Hctrl & Hclass & Hnone & Hrec & _).
    cbv zeta in Hctrl, Hclass, Hnone, Hrec.
    unfold pageInvariant, Page.dueAIMoves.
    rewrite Hctrl, Hclass, Hnone, Hrec.
    cbn [GameController.gameBoard GameController.currentPlayer
         GameController.isGameActive GameController.currentMode
         GameController.currentDifficulty].
    split; [assumption |]. split; [assumption |]. split; [now left |].
    split; [cbn; lia |].
    split; [intros _; repeat split; try assumption; now exists 0 |].
    split; [| reflexivity].
    change (String.eqb "X" "O") with false. rewrite andb_false_r.
    cbn. split; [now destruct (String.eqb _ "pvai") | lia].
  - pose proof IH as Hinv.
    destruct (page_class pending0 p Hinv) as [Hclick Hturn].
    destruct (pending_before_move pending0 p Hinv) as [Hpending _].
    specialize (Hpending Hclass).
    destruct (proj1 Hclick Hclass) as [Hactive _].
    specialize (Hturn Hactive). rewrite Hclass in Hturn.
    destruct IH as (Hnine & Hwf & Hplayer & Hbounds & Hopen & Hpage & Htrace).
    rewrite Hactive in Htrace.
    destruct (Hopen Hactive) as (HX & HO & Hfree & Hcount).
    destruct (click_cases (GameController.gameBoard (Page.ctrl p)) index)
      as [(i & -> & Hi) | Htaken].
    + destruct p as [st inactive pending tr].
      cbn [Page.ctrl Page.boardInactive Page.pendingAIMoves Page.trace] in *.
      subst inactive.
      apply accepted_move_invariant; auto.
      now apply length_zero_iff_nil.
    + unfold Logic.handlePlayerMove.
      rewrite Hactive, (markCell_at_taken _ _ _ Htaken). cbn [negb].
      rewrite after_nothing. now destruct p.
  - pose proof IH as Hinv.
    destruct (page_class pending0 p Hinv) as [_ Hturn].
    destruct (pending_before_move pending0 p Hinv) as [_ Hless].
    destruct (GameController.isGameActive (Page.ctrl p)) eqn:Hactive.
    + specialize (Hturn eq_refl).
      destruct IH
        as (Hnine & Hwf & Hplayer & Hbounds & Hopen & Hpage & Htrace).
      rewrite Hactive in Htrace.
      destruct (Hopen Hactive) as (HX & HO & Hfree & Hcount).
      destruct (performAIMove_lands (Page.ctrl p) random)
        as (i & Hi & _ & Hplay); try assumption.
      { split; [assumption |]. split; [assumption |].
        now apply has_empty_cell. }
      rewrite Hplay in Hrun. injection Hrun as <-.
      apply accepted_move_invariant; auto.
      now apply length_zero_iff_nil.
    + rewrite (performAIMove_idle _ random Hactive) in Hrun.
      injection Hrun as <-.
      change (Page.ctrl p, @nil Logic.effect)
        with (Page.ctrl (Page.mkPage (Page.ctrl p) (Page.boardInactive p)
                           (Page.pendingAIMoves p - 1) (Page.trace p)),
              @nil Logic.effect).
      rewrite after_nothing.
      cbn [Page.ctrl Page.boardInactive Page.pendingAIMoves Page.trace].
      destruct IH
        as (Hnine & Hwf & Hplayer & Hbounds & Hopen & [Hpage Hcalls]
            & Htrace).
      unfold pageInvariant, Page.dueAIMoves in *.
      cbn [Page.ctrl Page.boardInactive Page.pendingAIMoves Page.trace].
      rewrite Hactive in *. rewrite andb_false_r in *.
      repeat (split; [assumption |]).
      split; [| assumption]. split; [assumption | lia].
Qed.

(** *** What an accepted move records *)

Lemma accepted_move_state (st : GameController.state) (i : Z) :
  GameController.isGameActive st = true ->
  emptyCell (GameController.gameBoard st) i ->
  let st' := fst (Logic.handlePlayerMove st (Some i)) in
  GameController.gameBoard st' =
  assign (GameController.gameBoard st) i (GameController.currentPlayer st) /\
  GameController.currentMode st' = GameController.currentMode st /\
  GameController.currentDifficulty st' = GameController.currentDifficulty st /\
  (GameController.isGameActive st' = true ->
   GameController.currentPlayer st' =
   otherPlayer (GameController.currentPlayer st)).
Proof.
  intros Hactive Hi.
  rewrite (handlePlayerMove_accepted st i Hactive Hi). cbv zeta.
  match goal with
  | |- context [GameController.checkResult ?s] =>
      destruct (checkResult_cases s)
        as [(winner & cond & Hwin & ->) | [(Hwin & Hfull & ->)
                                          | (Hwin & Hfree & ->)]]
  end; cbv iota; cbn [fst];
    try (repeat split; [discriminate]).
  rewrite switchPlayer_active by reflexivity. cbn [fst].
  repeat split.
Qed.

Lemma accepted_move_record (st : GameController.state) (i : Z)
  (winner mode difficulty : string) :
  GameController.isGameActive st = true ->
  emptyCell (GameController.gameBoard st) i ->
  In (Logic.collaborator
        (GameController.recordGameResult (Some winner) mode difficulty))
     (snd (Logic.handlePlayerMove st (Some i))) ->
  hasWon GameController.winningConditions
    (assign (GameController.gameBoard st) i (GameController.currentPlayer st))
    winner.
Proof.
  intros Hactive Hi.
  rewrite (handlePlayerMove_accepted st i Hactive Hi). cbv zeta.
  match goal with
  | |- context [GameController.checkResult ?s] =>
      destruct (checkResult_cases s)
        as [(w & cond & Hwin & ->) | [(Hwin & Hfull & ->)
                                     | (Hwin & Hfree & ->)]]
  end; cbv iota; cbn [snd map app In].
  - intros [H | [H | [H | [H | [H | [H | [H | []]]]]]]]; try discriminate.
    + injection H as <- _ _.
      apply find_win_Some in Hwin as (Hin & _ & x & y & z & -> & Hcells).
      exists x, y, z. auto.
    + destruct (String.eqb _ "pvai" && String.eqb w "O"); discriminate.
  - intros [H | [H | [H | [H | [H | [H | [H | []]]]]]]]; discriminate.
  - rewrite switchPlayer_active by reflexivity. cbn [snd app In].
    intros [H | [H | [H | [H | [H | H]]]]]; try discriminate.
    destruct (String.eqb _ "pvai"); [| destruct H].
    destruct (String.eqb _ "X"); cbn [In] in H;
      repeat (destruct H as [H | H]; [discriminate |]); destruct H.
Qed.

Lemma no_record_in (effects : list Logic.effect) :
  resultsRecorded effects = [] ->
  forall winner mode difficulty,
    ~ In (Logic.collaborator
            (GameController.recordGameResult winner mode difficulty)) effects.
Proof.
  intros Hnone winner mode difficulty Hin.
  assert (Hrec : In (Logic.collaborator
                       (GameController.recordGameResult winner mode
                          difficulty)) (resultsRecorded effects))
    by (apply filter_In; split; [assumption | reflexivity]).
  rewrite Hnone in Hrec. destruct Hrec.
Qed.

(** *** Induction on the moves of a game *)

Lemma after_same (p : Page.page) : Page.after p (Page.ctrl p, []) = p.
Proof.
  rewrite after_nothing. now destruct p.
Qed.

Lemma open_page (pending0 : nat) (p : Page.page) :
  pageInvariant pending0 p ->
  GameController.isGameActive (Page.ctrl p) = true ->
  openNode GameController.winningConditions
    (GameController.gameBoard (Page.ctrl p)).
Proof.
  intros (_ & _ & _ & _ & Hopen & _) Hactive.
  destruct (Hopen Hactive) as (HX & HO & Hfree & _).
  split; [assumption |]. split; [assumption |]. now apply has_empty_cell.
Qed.

(** What holds of the state and of the trace when a game starts, and is
    kept by a move on an empty cell, the one of [getBestMove] when the AI
    is to move, holds of every page of the game. *)
Lemma game_moves_ind (dom : Logic.document) (pending0 : nat)
  (P : GameController.state -> list Logic.effect -> Prop) :
  (forall stats st0,
      P (fst (Logic.startGame dom stats false st0))
        (snd (Logic.startGame dom stats false st0))) ->
  (forall p i,
      Page.Game dom pending0 p -> P (Page.ctrl p) (Page.trace p) ->
      GameController.isGameActive (Page.ctrl p) = true ->
      emptyCell (GameController.gameBoard (Page.ctrl p)) i ->
      (GameController.currentMode (Page.ctrl p) = "pvai" ->
       GameController.currentPlayer (Page.ctrl p) = "O" ->
       exists random,
         (0 <= random)%Q /\ (random < 1)%Q /\
         AILogic.getBestMove GameController.winningConditions
           (GameController.gameBoard (Page.ctrl p))
           (GameController.currentDifficulty (Page.ctrl p)) random
         = Ok (Some i)) ->
      P (fst (Logic.handlePlayerMove (Page.ctrl p) (Some i)))
        (Page.trace p ++ snd (Logic.handlePlayerMove (Page.ctrl p) (Some i))))
  ->
  forall p, Page.Game dom pending0 p -> P (Page.ctrl p) (Page.trace p).
Proof.
  intros Hstart Hmove p Hgame.
  induction Hgame as [stats st0 inactive0
                     | p index Hgame IH Hclass
                     | p random r Hgame IH Hpending Hlow Hhigh Hrun].
  - apply Hstart.
  - pose proof (game_invariant dom pending0 p Hgame) as Hinv.
    destruct (proj1 (proj1 (page_class pending0 p Hinv)) Hclass)
      as [Hactive Hturn].
    destruct (click_cases (GameController.gameBoard (Page.ctrl p)) index)
      as [(i & -> & Hi) | Htaken].
    + apply (Hmove p i); try assumption.
      intros Hmode HO. rewrite (Hturn Hmode) in HO. discriminate.
    + replace (Logic.handlePlayerMove (Page.ctrl p) index)
        with (Page.ctrl p, @nil Logic.effect).
      * now rewrite after_same.
      * symmetry. unfold Logic.handlePlayerMove. rewrite Hactive.
        now rewrite (markCell_at_taken _ _ _ Htaken).
  - pose proof (game_invariant dom pending0 p Hgame) as Hinv.
    destruct (GameController.isGameActive (Page.ctrl p)) eqn:Hactive.
    + destruct (performAIMove_lands (Page.ctrl p) random
                  (open_page pending0 p Hinv Hactive) Hlow Hhigh)
        as (j & Hj & Hbest & Hperform).
      rewrite Hperform in Hrun. injection Hrun as <-.
      apply (Hmove p j); try assumption.
      intros _ _. exists random. auto.
    + rewrite (performAIMove_idle _ random Hactive) in Hrun.
      injection Hrun as <-. unfold Page.after.
      cbn [fst snd Page.ctrl Page.trace]. now rewrite app_nil_r.
Qed.

(** The three ways an accepted move ends, with the effects of each. *)
Lemma accepted_move_effects (st : GameController.state) (i : Z) :
  GameController.isGameActive st = true ->
  emptyCell (GameController.gameBoard st) i ->
  let player := GameController.currentPlayer st in
  let mode := GameController.currentMode st in
  let difficulty := GameController.currentDifficulty st in
  let board := assign (GameController.gameBoard st) i player in
  (exists winner cond,
      GameController.find_win board GameController.winningConditions
      = Some (winner, cond) /\
      Logic.handlePlayerMove st (Some i) =
      (GameController.mkState board player false difficulty mode,
       [Logic.render board; Logic.playMoveSound;
        Logic.collaborator
          (GameController.recordGameResult (Some winner) mode difficulty);
        Logic.collaborator
          (GameController.showResult ("Player " ++ winner ++ " WINS!")%string
             (Some winner) (Some cond));
        Logic.collaborator (GameController.toggleBoardInteraction false);
        Logic.collaborator GameController.deleteGameState;
        Logic.collaborator
          (if String.eqb mode "pvai" && String.eqb winner "O"
           then GameController.playLossSound
           else GameController.playWinSound)])) \/
  (GameController.find_win board GameController.winningConditions = None /\
   GameController.includes board "" = false /\
   Logic.handlePlayerMove st (Some i) =
   (GameController.mkState board player false difficulty mode,
    [Logic.render board; Logic.playMoveSound;
     Logic.collaborator
       (GameController.recordGameResult None mode difficulty);
     Logic.collaborator
       (GameController.showResult "It's a DRAW!" None None);
     Logic.collaborator (GameController.toggleBoardInteraction false);
     Logic.collaborator GameController.deleteGameState;
     Logic.collaborator GameController.playDrawSound])) \/
  (GameController.find_win board GameController.winningConditions = None /\
   GameController.includes board "" = true /\
   Logic.handlePlayerMove st (Some i) =
   (GameController.mkState board (otherPlayer player) true difficulty mode,
    [Logic.render board; Logic.playMoveSound;
     Logic.updateMessage
       ("Player " ++ otherPlayer player ++ "'s turn")%string
       (otherPlayer player);
     Logic.updatePlayerIndicator (otherPlayer player) mode;
     Logic.saveGameStateCall board (otherPlayer player) mode difficulty]
    ++ (if String.eqb mode "pvai"
        then if String.eqb player "X"
             then [Logic.collaborator
                     (GameController.toggleBoardInteraction false);
                   Logic.playAISound;
                   Logic.setTimeout_performAIMove 700]
             else [Logic.collaborator
                     (GameController.toggleBoardInteraction true)]
        else []))).
Proof.
  intros Hactive Hi. cbv zeta.
  rewrite (handlePlayerMove_accepted st i Hactive Hi). cbv zeta.
  match goal with
  | |- context [GameController.checkResult ?s] =>
      destruct (checkResult_cases s)
        as [(winner & cond & Hwin & ->) | [(Hwin & Hfull & ->)
                                          | (Hwin & Hfree & ->)]]
  end; cbv iota.
  - left. exists winner, cond. split; [exact Hwin |].
    cbn [map app GameController.currentMode]. unfold GameController.deactivate.
    cbn [GameController.gameBoard GameController.currentPlayer
         GameController.currentMode GameController.currentDifficulty].
    now destruct (String.eqb _ "pvai" && String.eqb winner "O").
  - right. left. split; [exact Hwin |]. split; [exact Hfull |]. reflexivity.
  - right. right. split; [exact Hwin |]. split; [exact Hfree |].
    rewrite switchPlayer_active by reflexivity. reflexivity.
Qed.

Lemma savedGame_from_app (saved : option StatsManager.savedState)
  (xs ys : list Logic.effect) :
  savedGame_from saved (xs ++ ys)
  = savedGame_from (savedGame_from saved xs) ys.
Proof. apply fold_left_app. Qed.

Lemma player_marker (player : string) :
  player = "X" \/ player = "O" ->
  player <> "" /\ otherPlayer player <> player /\
  (player = "" \/ player = humanMarker \/ player = aiMarker) /\
  (otherPlayer player = humanMarker \/ otherPlayer player = aiMarker).
Proof.
  intros [-> | ->]; cbn; repeat split; auto; discriminate.
Qed.

(** The move that ends a game with a line gives it to the player who
    moved, and to nobody else. *)
Lemma winning_move (b : Board) (i : Z) (player winner : string)
  (cond : condition) :
  wellFormed b -> player = "X" \/ player = "O" ->
  ~ hasWon GameController.winningConditions b humanMarker ->
  ~ hasWon GameController.winningConditions b aiMarker ->
  GameController.find_win (assign b i player) GameController.winningConditions
  = Some (winner, cond) ->
  winner = player /\
  hasWon GameController.winningConditions (assign b i player) winner /\
  ~ hasWon GameController.winningConditions (assign b i player)
      (otherPlayer winner).
Proof.
  intros Hwf Hplayer HX HO Hwin.
  destruct (player_marker player Hplayer) as (Hp & Hother & Hcell & Hmarker).
  apply find_win_Some in Hwin
    as (Hin & Hw & x & y & z & -> & Hx & Hy & Hz).
  assert (Hline : hasWon GameController.winningConditions (assign b i player)
                    winner) by (exists x, y, z; auto).
  assert (Hwf' : wellFormed (assign b i player))
    by now apply wellFormed_assign.
  assert (Hsame : winner = player).
  { destruct (string_dec winner player) as [Heq | Hne]; [assumption |].
    exfalso.
    assert (Hbefore : hasWon GameController.winningConditions b winner)
      by (apply (hasWon_assign_other _ _ i player); auto).
    destruct (wellFormed_cell _ _ _ Hwf' Hx) as [-> | [-> | ->]];
      [now apply Hw | now apply HX | now apply HO]. }
  subst winner. split; [reflexivity |]. split; [assumption |].
  intros Hboth.
  apply (hasWon_assign_other _ _ i player) in Hboth; [| congruence].
  destruct Hmarker as [Hm | Hm]; rewrite Hm in Hboth;
    [now apply HX | now apply HO].
Qed.

Lemma game_outcome (dom : Logic.document) (pending0 : nat) (p : Page.page) :
  Page.Game dom pending0 p ->
  outcomeInvariant (Page.ctrl p) (Page.trace p).
Proof.
  revert p. apply game_moves_ind.
  - intros stats st0.
    destruct (startGame_new dom stats st0)
      as (effects & -> & _ & _ & Hrec & Hsaved).
    unfold outcomeInvariant. cbn [fst snd GameController.gameBoard
                                   GameController.isGameActive].
    split; [| discriminate].
    intros saved.
    change (savedGame_from saved
              (Logic.collaborator GameController.deleteGameState
               :: Logic.resetUI :: effects))
      with (savedGame_from None effects).
    rewrite Hsaved. now right.
  - intros p i Hgame _ Hactive Hi _.
    pose proof (game_invariant dom pending0 p Hgame)
      as (Hnine & Hwf & Hplayer & _ & Hopen & _ & Htrace).
    rewrite Hactive in Htrace. apply length_zero_iff_nil in Htrace.
    destruct (Hopen Hactive) as (HX & HO & _ & _).
    destruct (player_marker _ Hplayer) as (Hp & _ & Hcell & _).
    pose proof (wellFormed_assign _ i _ Hwf Hcell) as Hwf'.
    destruct (accepted_move_effects (Page.ctrl p) i Hactive Hi)
      as [(winner & cond & Hwin & ->) | [(Hwin & Hfull & ->)
                                        | (Hwin & Hfree & ->)]];
      unfold outcomeInvariant;
      cbn [fst snd GameController.gameBoard GameController.currentPlayer
           GameController.isGameActive GameController.currentMode
           GameController.currentDifficulty].
    + split.
      * intros saved. rewrite savedGame_from_app. unfold savedGame_from at 1.
        cbn [fold_left].
        destruct (String.eqb _ "pvai" && String.eqb winner "O"); now left.
      * intros _. exists (Some winner). split.
        -- rewrite resultsRecorded_app, Htrace. cbn [app resultsRecorded filter].
           now destruct (String.eqb _ "pvai" && String.eqb winner "O").
        -- now apply (winning_move _ _ _ _ cond).
    + split.
      * intros saved. rewrite savedGame_from_app. unfold savedGame_from at 1.
        cbn [fold_left]. now left.
      * intros _. exists None. split.
        -- now rewrite resultsRecorded_app, Htrace.
        -- apply (find_win_hasWon _ _ Hwf') in Hwin as [HX' HO'].
           split; [assumption |]. split; [assumption |].
           intros k Hk.
           assert (GameController.includes
                     (assign (GameController.gameBoard (Page.ctrl p)) i
                        (GameController.currentPlayer (Page.ctrl p))) ""
                   = true) by (apply includes_empty; eauto).
           congruence.
    + split; [| discriminate].
      intros saved. rewrite savedGame_from_app. unfold savedGame_from at 1.
      cbn [fold_left app].
      assert (Hmarked : exists k s,
                 get (assign (GameController.gameBoard (Page.ctrl p)) i
                        (GameController.currentPlayer (Page.ctrl p))) k
                 = Some s /\ s <> "").
      { exists i, (GameController.currentPlayer (Page.ctrl p)).
        split; [| assumption]. now apply (get_assign_same _ _ ""). }
      destruct (String.eqb _ "pvai");
        [destruct (String.eqb _ "X") |];
        cbn [fold_left StatsManager.saveGameState]; auto.
Qed.

(** *** A game against the hard tier, on the page *)

Lemma hard_game_invariant (dom : Logic.document) (pending0 : nat)
  (p : Page.page) :
  Logic.checkedMode dom = Some "pvai" ->
  Logic.checkedDifficulty dom = Some "hard" ->
  Page.Game dom pending0 p -> hardInvariant (Page.ctrl p) (Page.trace p).
Proof.
  intros Hmode Hhard. revert p. apply game_moves_ind.
  - intros stats st0.
    destruct (startGame_page dom stats st0 false 0)
      as (Hctrl & _ & _ & Htrace & _).
    cbv zeta in Hctrl, Htrace. unfold Page.after in Hctrl, Htrace.
    cbn [Page.ctrl Page.trace app] in Hctrl, Htrace.
    unfold hardInvariant. rewrite Hctrl. rewrite Hmode, Hhard.
    cbn [GameController.gameBoard GameController.currentPlayer
         GameController.isGameActive GameController.currentMode
         GameController.currentDifficulty Logic.checked_or String.eqb
         Ascii.eqb Bool.eqb].
    split; [reflexivity |]. split; [reflexivity |].
    split; [intros m d; now apply no_record_in |].
    intros _. split; [intros _; apply HardPlay_start | discriminate].
  - intros p i Hgame (Hpvai & Hdiff & Hnox & Hplay) Hactive Hi Hai.
    pose proof (game_invariant dom pending0 p Hgame)
      as (Hnine & Hwf & Hplayer & Hbounds & Hopen & Hpage & Htrace).
    destruct (Hopen Hactive) as (HX & HO & Hfree & Hcount).
    destruct (accepted_move_state (Page.ctrl p) i Hactive Hi)
      as (Hboard & Hmode' & Hdiff' & Hturn).
    cbv zeta in Hboard, Hmode', Hdiff', Hturn.
    unfold hardInvariant. rewrite Hboard, Hmode', Hdiff'.
    split; [assumption |]. split; [assumption |].
    destruct Hplayer as [Hp | Hp].
    + (* X moves, by a click or by a call left from before *)
      destruct (Hplay Hactive) as [Hhuman _]. specialize (Hhuman Hp).
      split.
      * intros m d Hin. apply in_app_or in Hin as [Hin | Hin];
          [now apply Hnox in Hin |].
        apply (accepted_move_record (Page.ctrl p) i "X" m d Hactive Hi)
          in Hin.
        rewrite Hp in Hin.
        now apply (proj2 (hard_play_human_never_wins _ i Hhuman) HO Hi).
      * intros Hstill. specialize (Hturn Hstill). rewrite Hp in Hturn.
        split; [rewrite Hturn; discriminate |]. intros _.
        exists (GameController.gameBoard (Page.ctrl p)), i.
        rewrite Hp. auto.
    + (* O moves, where [getBestMove] says *)
      destruct (Hplay Hactive) as [_ Hprev].
      destruct (Hprev Hp) as (b0 & i0 & Hplay0 & HX0 & HO0 & Hi0 & Hb).
      destruct (Hai Hpvai Hp) as (random & Hlow & Hhigh & Hbest).
      rewrite Hdiff in Hbest.
      assert (Hnext : HardPlay
                        (assign (GameController.gameBoard (Page.ctrl p)) i
                           "O")).
      { rewrite Hb in *.
        apply (HardPlay_round b0 i0 i random); assumption. }
      rewrite Hp.
      split.
      * intros m d Hin. apply in_app_or in Hin as [Hin | Hin];
          [now apply Hnox in Hin |].
        apply (accepted_move_record (Page.ctrl p) i "X" m d Hactive Hi)
          in Hin.
        rewrite Hp in Hin.
        now apply (proj1 (hard_play_human_never_wins _ 0 Hnext)).
      * intros Hstill. specialize (Hturn Hstill). rewrite Hp in Hturn.
        split; [intros _; assumption |].
        rewrite Hturn. discriminate.
Qed.

(** *** What a game keeps *)

(** The first pages of a game. *)
Lemma openingPage_game (dom : Logic.document) :
  Page.Game dom 0 (openingPage dom).
Proof. apply Page.Game_start. Qed.

Lemma centrePage_game (mode difficulty : string) :
  Page.Game (pageOf mode difficulty) 0
    (centrePage (pageOf mode difficulty)).
Proof.
  apply Page.Game_click; [apply openingPage_game |].
  destruct (startGame_page (pageOf mode difficulty) StatsManager.stats0
              initialState false 0) as (_ & Hclass & _).
  exact Hclass.
Qed.

Lemma restartedPage_game (dom : Logic.document) :
  Page.Game dom 1 (restartedPage dom).
Proof. apply Page.Game_start. Qed.

Lemma restartedCentrePage_game (mode difficulty : string) :
  Page.Game (pageOf mode difficulty) 1
    (restartedCentrePage (pageOf mode difficulty)).
Proof.
  apply Page.Game_click; [apply restartedPage_game |].
  destruct (startGame_page (pageOf mode difficulty) StatsManager.stats0
              initialState true 1) as (_ & Hclass & _).
  exact Hclass.
Qed.

(** X10: on every page of a game begun by [startGame(false)], whatever calls
    of [performAIMove] were pending when it began and whenever they run,
    the board has nine cells, each empty, X or O, and X holds as many cells
    as O or one more; while the game is active the counts are equal when X
    is to move and X has one more when O is. *)
Theorem game_turns_alternate (dom : Logic.document) (pending0 : nat)
  (p : Page.page) :
  Page.Game dom pending0 p ->
  let st := Page.ctrl p in
  let b := GameController.gameBoard st in
  List.length b = 9%nat /\ wellFormed b /\
  (countMarker "O" b <= countMarker "X" b <= countMarker "O" b + 1)%nat /\
  (GameController.isGameActive st = true ->
   (GameController.currentPlayer st = "X" /\
    countMarker "X" b = countMarker "O" b) \/
   (GameController.currentPlayer st = "O" /\
    countMarker "X" b = (countMarker "O" b + 1)%nat)).
Proof.
  intros Hgame. cbv zeta.
  destruct (game_invariant dom pending0 p Hgame)
    as (Hnine & Hwf & Hplayer & Hbounds & Hopen & _).
  split; [assumption |]. split; [assumption |]. split; [assumption |].
  intros Hactive. destruct (Hopen Hactive) as (_ & _ & _ & Hcount).
  destruct Hplayer as [Hp | Hp]; rewrite Hp in Hcount; cbn in Hcount;
    [left | right]; split; try assumption; lia.
Qed.

Lemma game_turns_alternate_witness :
  Page.Game (pageOf "pvai" "hard") 1
    (restartedCentrePage (pageOf "pvai" "hard")) /\
  let st := Page.ctrl (restartedCentrePage (pageOf "pvai" "hard")) in
  let b := GameController.gameBoard st in
  List.length b = 9%nat /\ wellFormed b /\
  (countMarker "O" b <= countMarker "X" b <= countMarker "O" b + 1)%nat /\
  (GameController.isGameActive st = true ->
   (GameController.currentPlayer st = "X" /\
    countMarker "X" b = countMarker "O" b) \/
   (GameController.currentPlayer st = "O" /\
    countMarker "X" b = (countMarker "O" b + 1)%nat)).
Proof.
  pose proof (restartedCentrePage_game "pvai" "hard") as H1.
  split; [assumption |].
  exact (game_turns_alternate _ _ _ H1).
Defined.

(** X11: on every page of a game begun by [startGame(false)], whatever calls
    of [performAIMove] were pending when it began, the game is active
    exactly when neither marker has a line and a cell is empty. While it is
    active no result is recorded. Once it is over exactly one is, with the
    mode and the difficulty of the game: the current player, who moved
    last, when that player has a line, and then the other player has none;
    nobody when neither has a line and the board is full. *)
Theorem game_records_its_result (dom : Logic.document) (pending0 : nat)
  (p : Page.page) :
  Page.Game dom pending0 p ->
  let st := Page.ctrl p in
  let b := GameController.gameBoard st in
  (GameController.isGameActive st = true <->
   ~ hasWon GameController.winningConditions b humanMarker /\
   ~ hasWon GameController.winningConditions b aiMarker /\
   exists k, emptyCell b k) /\
  (GameController.isGameActive st = true ->
   resultsRecorded (Page.trace p) = []) /\
  (GameController.isGameActive st = false ->
   exists winner,
     resultsRecorded (Page.trace p) =
     [Logic.collaborator
        (GameController.recordGameResult winner
           (GameController.currentMode st)
           (GameController.currentDifficulty st))] /\
     match winner with
     | Some w =>
         w = GameController.currentPlayer st /\
         hasWon GameController.winningConditions b w /\
         ~ hasWon GameController.winningConditions b (otherPlayer w)
     | None =>
         ~ hasWon GameController.winningConditions b humanMarker /\
         ~ hasWon GameController.winningConditions b aiMarker /\
         forall k, ~ emptyCell b k
     end).
Proof.
  intros Hgame. cbv zeta.
  destruct (game_invariant dom pending0 p Hgame)
    as (_ & _ & Hplayer & _ & Hopen & _ & Htrace).
  destruct (game_outcome dom pending0 p Hgame) as [_ Hover].
  split; [| split; [| exact Hover]].
  - split.
    + intros Hactive. destruct (Hopen Hactive) as (HX & HO & Hfree & _).
      auto.
    + intros (HX & HO & k & Hk).
      destruct (GameController.isGameActive (Page.ctrl p)) eqn:Hactive;
        [reflexivity |].
      exfalso. destruct (Hover eq_refl) as ([w |] & _ & Hresult).
      * destruct Hresult as (Hw & Hline & _). rewrite Hw in Hline.
        destruct Hplayer as [Hp | Hp]; rewrite Hp in Hline;
          [now apply HX | now apply HO].
      * destruct Hresult as (_ & _ & Hfull). now apply (Hfull k).
  - intros Hactive. rewrite Hactive in Htrace.
    now apply length_zero_iff_nil.
Qed.

Lemma game_records_its_result_witness :
  Page.Game (pageOf "pvp" "hard") 1
    (restartedCentrePage (pageOf "pvp" "hard")) /\
  let p := restartedCentrePage (pageOf "pvp" "hard") in
  let st := Page.ctrl p in
  let b := GameController.gameBoard st in
  (GameController.isGameActive st = true <->
   ~ hasWon GameController.winningConditions b humanMarker /\
   ~ hasWon GameController.winningConditions b aiMarker /\
   exists k, emptyCell b k) /\
  (GameController.isGameActive st = true ->
   resultsRecorded (Page.trace p) = []) /\
  (GameController.isGameActive st = false ->
   exists winner,
     resultsRecorded (Page.trace p) =
     [Logic.collaborator
        (GameController.recordGameResult winner
           (GameController.currentMode st)
           (GameController.currentDifficulty st))] /\
     match winner with
     | Some w =>
         w = GameController.currentPlayer st /\
         hasWon GameController.winningConditions b w /\
         ~ hasWon GameController.winningConditions b (otherPlayer w)
     | None =>
         ~ hasWon GameController.winningConditions b humanMarker /\
         ~ hasWon GameController.winningConditions b aiMarker /\
         forall k, ~ emptyCell b k
     end).
Proof.
  pose proof (restartedCentrePage_game "pvp" "hard") as H1.
  split; [assumption |].
  exact (game_records_its_result _ _ _ H1).
Defined.

(** X12: on every page of a game begun by [startGame(false)] while
    [pending0] calls of [performAIMove] were pending, the board takes
    clicks exactly when the game is active and, against the AI, X is to
    move. While the game is active against the AI and O is to move, one
    call is pending and at most [pending0] more; otherwise at most
    [pending0] calls are. So when none was pending at the start, a call is
    pending exactly when the game is active against the AI and O is to
    move, and never more than one. *)
Theorem board_takes_clicks_on_the_turn_of_the_human (dom : Logic.document)
  (pending0 : nat) (p : Page.page) :
  Page.Game dom pending0 p ->
  let st := Page.ctrl p in
  (Page.boardInactive p = false <->
   GameController.isGameActive st = true /\
   (GameController.currentMode st = "pvai" ->
    GameController.currentPlayer st = "X")) /\
  (GameController.isGameActive st = true /\
   GameController.currentMode st = "pvai" /\
   GameController.currentPlayer st = "O" ->
   (1 <= Page.pendingAIMoves p <= pending0 + 1)%nat) /\
  (~ (GameController.isGameActive st = true /\
      GameController.currentMode st = "pvai" /\
      GameController.currentPlayer st = "O") ->
   (Page.pendingAIMoves p <= pending0)%nat) /\
  (pending0 = 0%nat ->
   ((0 < Page.pendingAIMoves p)%nat <->
    GameController.isGameActive st = true /\
    GameController.currentMode st = "pvai" /\
    GameController.currentPlayer st = "O") /\
   (Page.pendingAIMoves p <= 1)%nat).
Proof.
  intros Hgame. cbv zeta.
  pose proof (game_invariant dom pending0 p Hgame) as Hinv.
  destruct (page_class pending0 p Hinv) as [Hclick _].
  destruct Hinv as (_ & _ & _ & _ & _ & [_ Hcalls] & _).
  unfold Page.dueAIMoves in Hcalls.
  split; [exact Hclick |].
  destruct (String.eqb_spec (GameController.currentMode (Page.ctrl p))
              "pvai") as [Hmode | Hmode];
    destruct (String.eqb_spec (GameController.currentPlayer (Page.ctrl p))
                "O") as [Hturn | Hturn];
    destruct (GameController.isGameActive (Page.ctrl p));
    cbn [andb] in Hcalls;
    (split; [intros (? & ? & ?); (congruence || lia) |]);
    (split; [intros Hnot; try lia; exfalso; apply Hnot; auto |]);
    intros ->; (split; [| lia]);
    (split; [intros ?; try lia; auto | intros (? & ? & ?)]);
    (congruence || lia).
Qed.

Lemma board_takes_clicks_on_the_turn_of_the_human_witness :
  (Page.Game (pageOf "pvai" "easy") 1
     (restartedCentrePage (pageOf "pvai" "easy")) /\
   Page.Game (pageOf "pvai" "easy") 0 (centrePage (pageOf "pvai" "easy"))) /\
  (let p := restartedCentrePage (pageOf "pvai" "easy") in
   let st := Page.ctrl p in
   (Page.boardInactive p = false <->
    GameController.isGameActive st = true /\
    (GameController.currentMode st = "pvai" ->
     GameController.currentPlayer st = "X")) /\
   (GameController.isGameActive st = true /\
    GameController.currentMode st = "pvai" /\
    GameController.currentPlayer st = "O" ->
    (1 <= Page.pendingAIMoves p <= 1 + 1)%nat) /\
   (~ (GameController.isGameActive st = true /\
       GameController.currentMode st = "pvai" /\
       GameController.currentPlayer st = "O") ->
    (Page.pendingAIMoves p <= 1)%nat)) /\
  (let p := centrePage (pageOf "pvai" "easy") in
   let st := Page.ctrl p in
   ((0 < Page.pendingAIMoves p)%nat <->
    GameController.isGameActive st = true /\
    GameController.currentMode st = "pvai" /\
    GameController.currentPlayer st = "O") /\
   (Page.pendingAIMoves p <= 1)%nat).
Proof.
  pose proof (restartedCentrePage_game "pvai" "easy") as H1.
  pose proof (centrePage_game "pvai" "easy") as H0.
  split; [split; assumption |].
  destruct (board_takes_clicks_on_the_turn_of_the_human _ _ _ H1)
    as (Hclass & Hdue & Hrest & _).
  destruct (board_takes_clicks_on_the_turn_of_the_human _ _ _ H0)
    as (_ & _ & _ & Hnone).
  split; [exact (conj Hclass (conj Hdue Hrest)) |].
  exact (Hnone eq_refl).
Defined.

(** X13: a call of [performAIMove] on a page of a game begun by
    [startGame(false)] raises nothing, whatever calls were pending when the
    game began and whatever [Math.random()] gives: while the game is active
    it marks an empty cell with the marker of the player to move, and once
    the game is over it changes nothing. In a game begun with no call
    pending, a pending call marks an empty cell with O. *)
Theorem pending_AI_move_is_played (dom : Logic.document) (pending0 : nat)
  (p : Page.page) (random : Q) :
  Page.Game dom pending0 p -> (0 <= random)%Q -> (random < 1)%Q ->
  let st := Page.ctrl p in
  (GameController.isGameActive st = true ->
   exists i,
     emptyCell (GameController.gameBoard st) i /\
     Logic.performAIMove st random
     = Ok (Logic.handlePlayerMove st (Some i)) /\
     GameController.gameBoard (fst (Logic.handlePlayerMove st (Some i)))
     = assign (GameController.gameBoard st) i
         (GameController.currentPlayer st)) /\
  (GameController.isGameActive st = false ->
   Logic.performAIMove st random = Ok (st, [])) /\
  (pending0 = 0%nat -> (0 < Page.pendingAIMoves p)%nat ->
   exists i,
     emptyCell (GameController.gameBoard st) i /\
     Logic.performAIMove st random
     = Ok (Logic.handlePlayerMove st (Some i)) /\
     GameController.gameBoard (fst (Logic.handlePlayerMove st (Some i)))
     = assign (GameController.gameBoard st) i aiMarker).
Proof.
  intros Hgame Hlow Hhigh. cbv zeta.
  pose proof (game_invariant dom pending0 p Hgame) as Hinv.
  assert (Hplay : GameController.isGameActive (Page.ctrl p) = true ->
            exists i,
              emptyCell (GameController.gameBoard (Page.ctrl p)) i /\
              Logic.performAIMove (Page.ctrl p) random
              = Ok (Logic.handlePlayerMove (Page.ctrl p) (Some i)) /\
              GameController.gameBoard
                (fst (Logic.handlePlayerMove (Page.ctrl p) (Some i)))
              = assign (GameController.gameBoard (Page.ctrl p)) i
                  (GameController.currentPlayer (Page.ctrl p))).
  { intros Hactive.
    destruct (performAIMove_lands (Page.ctrl p) random
                (open_page pending0 p Hinv Hactive) Hlow Hhigh)
      as (i & Hi & _ & Hperform).
    exists i. split; [assumption |]. split; [assumption |].
    now destruct (accepted_move_state (Page.ctrl p) i Hactive Hi)
      as (Hboard & _). }
  split; [exact Hplay |].
  split; [now apply performAIMove_idle |].
  intros -> Hpending.
  destruct Hinv as (_ & _ & _ & _ & _ & [_ Hcalls] & _).
  unfold Page.dueAIMoves in Hcalls.
  destruct (String.eqb (GameController.currentMode (Page.ctrl p)) "pvai");
    [| cbn in Hcalls; lia].
  destruct (String.eqb_spec (GameController.currentPlayer (Page.ctrl p))
              "O") as [Hturn | Hturn]; [| cbn in Hcalls; lia].
  destruct (GameController.isGameActive (Page.ctrl p));
    [| cbn in Hcalls; lia].
  destruct (Hplay eq_refl) as (i & Hi & Hperform & Hboard).
  exists i. rewrite Hturn in Hboard. auto.
Qed.

Lemma pending_AI_move_is_played_witness :
  ((Page.Game (pageOf "pvai" "easy") 1
      (restartedPage (pageOf "pvai" "easy")) /\
    Page.Game (pageOf "pvai" "easy") 0
      (centrePage (pageOf "pvai" "easy"))) /\
   (0 <= 1 # 2)%Q /\ (1 # 2 < 1)%Q) /\
  (let st := Page.ctrl (restartedPage (pageOf "pvai" "easy")) in
   exists i,
     emptyCell (GameController.gameBoard st) i /\
     Logic.performAIMove st (1 # 2)
     = Ok (Logic.handlePlayerMove st (Some i)) /\
     GameController.gameBoard (fst (Logic.handlePlayerMove st (Some i)))
     = assign (GameController.gameBoard st) i humanMarker) /\
  (let st := Page.ctrl (centrePage (pageOf "pvai" "easy")) in
   exists i,
     emptyCell (GameController.gameBoard st) i /\
     Logic.performAIMove st (1 # 2)
     = Ok (Logic.handlePlayerMove st (Some i)) /\
     GameController.gameBoard (fst (Logic.handlePlayerMove st (Some i)))
     = assign (GameController.gameBoard st) i aiMarker).
Proof.
  pose proof (restartedPage_game (pageOf "pvai" "easy")) as H1.
  pose proof (centrePage_game "pvai" "easy") as H0.
  assert (H2 : (0 <= 1 # 2)%Q) by (vm_compute; discriminate).
  assert (H3 : (1 # 2 < 1)%Q) by reflexivity.
  split; [repeat split; assumption |].
  destruct (pending_AI_move_is_played _ _ _ (1 # 2) H1 H2 H3)
    as (Hactive & _ & _).
  destruct (pending_AI_move_is_played _ _ _ (1 # 2) H0 H2 H3)
    as (_ & _ & Hpending).
  split; [exact (Hactive eq_refl) |].
  apply (Hpending eq_refl). vm_compute. lia.
Defined.

(** X15: in a game begun by [startGame(false)] with the radios on "pvai" and
    "hard", whatever calls of [performAIMove] were pending when it began,
    whatever cells the human clicks and whatever [Math.random()] gives, no
    call of [recordGameResult] names X the winner. *)
Theorem hard_game_never_records_a_win_of_the_human (dom : Logic.document)
  (pending0 : nat) (p : Page.page) (mode difficulty : string) :
  Logic.checkedMode dom = Some "pvai" ->
  Logic.checkedDifficulty dom = Some "hard" ->
  Page.Game dom pending0 p ->
  ~ In (Logic.collaborator
          (GameController.recordGameResult (Some humanMarker) mode
             difficulty))
       (Page.trace p).
Proof.
  intros Hmode Hhard Hgame.
  destruct (hard_game_invariant dom pending0 p Hmode Hhard Hgame)
    as (_ & _ & Hnone & _).
  apply Hnone.
Qed.

Lemma hard_game_never_records_a_win_of_the_human_witness :
  (Logic.checkedMode (pageOf "pvai" "hard") = Some "pvai" /\
   Logic.checkedDifficulty (pageOf "pvai" "hard") = Some "hard" /\
   Page.Game (pageOf "pvai" "hard") 1
     (restartedCentrePage (pageOf "pvai" "hard"))) /\
  ~ In (Logic.collaborator
          (GameController.recordGameResult (Some humanMarker) "pvai" "hard"))
       (Page.trace (restartedCentrePage (pageOf "pvai" "hard"))).
Proof.
  assert (H1 : Logic.checkedMode (pageOf "pvai" "hard") = Some "pvai")
    by reflexivity.
  assert (H2 : Logic.checkedDifficulty (pageOf "pvai" "hard") = Some "hard")
    by reflexivity.
  pose proof (restartedCentrePage_game "pvai" "hard") as H3.
  split; [repeat split; assumption |].
  exact (hard_game_never_records_a_win_of_the_human _ _ _ "pvai" "hard"
           H1 H2 H3).
Defined.

(** *** The panel of the statistics and the start of a game *)

Lemma updateStatsUI_outcome (stats : StatsManager.statistics)
  (ui : StatsManager.panel) (mode difficulty : string) :
  snd (StatsManager.updateStatsUI stats ui mode difficulty) =
  if String.eqb mode "pvai" then Ok tt
  else match StatsManager.pvp_oWins ui with
       | Some _ => TypeError
       | None => Ok tt
       end.
Proof.
  unfold StatsManager.updateStatsUI.
  destruct (String.eqb mode "pvai"); [reflexivity |].
  now destruct (StatsManager.pvp_oWins ui).
Qed.

(** X9: [updateStatsUI] raises a TypeError exactly when the mode is not
    "pvai" and the page has the element [pvp-o-wins], and returns
    otherwise. The text of [pvp-o-wins] is never written; in a mode other
    than "pvai" the wins of X are written first, and the text of
    [pvp-draws] stays as it was when the call fails. *)
Theorem updateStatsUI_fails_on_the_panel_of_two_players
  (stats : StatsManager.statistics) (ui : StatsManager.panel)
  (mode difficulty : string) :
  let '(ui', outcome) :=
    StatsManager.updateStatsUI stats ui mode difficulty in
  (outcome = TypeError <->
   mode <> "pvai" /\ StatsManager.pvp_oWins ui <> None) /\
  (outcome = TypeError \/ outcome = Ok tt) /\
  StatsManager.pvp_oWins ui' = StatsManager.pvp_oWins ui /\
  (mode <> "pvai" ->
   StatsManager.pvp_xWins ui' =
   StatsManager.set_text (StatsManager.pvp_xWins ui)
     (StatsManager.digits
        (StatsManager.wins (StatsManager.X (StatsManager.pvp stats)))) /\
   (outcome = TypeError ->
    StatsManager.pvp_draws ui' = StatsManager.pvp_draws ui)).
Proof.
  unfold StatsManager.updateStatsUI.
  destruct (String.eqb_spec mode "pvai") as [Hmode | Hmode].
  - cbn [StatsManager.pvp_oWins StatsManager.pvp_xWins
         StatsManager.pvp_draws].
    split; [split; [discriminate | intros [H _]; contradiction] |].
    split; [now right |]. split; [reflexivity |]. contradiction.
  - destruct (StatsManager.pvp_oWins ui) as [text |] eqn:HoWins;
      cbn [StatsManager.pvp_oWins StatsManager.pvp_xWins
           StatsManager.pvp_draws].
    + split; [split; [intros _; split; [assumption | discriminate]
                     | reflexivity] |].
      split; [now left |]. split; [reflexivity |]. intros _.
      split; reflexivity.
    + split; [split; [discriminate | intros [_ H]; contradiction] |].
      split; [now right |]. split; [reflexivity |]. intros _.
      split; [reflexivity | discriminate].
Qed.

(** X8: [startGame(false)] leaves the empty board with X to move in an
    active game, in the mode and the difficulty of the checked radios, the
    current ones where none is checked; the board takes clicks, no result
    is recorded and no game state is left saved. The calls of
    [performAIMove] that are pending stay pending. The call ends by a
    TypeError exactly when the mode is not "pvai" and the page has the
    element [pvp-o-wins]. *)
Theorem startGame_starts_a_fresh_game (dom : Logic.document)
  (stats : StatsManager.statistics) (p : Page.page) :
  let r := Logic.startGame dom stats false (Page.ctrl p) in
  let q := Page.after p r in
  Page.ctrl q =
  GameController.mkState GameBoard.reset "X" true
    (Logic.checked_or (Logic.checkedDifficulty dom)
       (GameController.currentDifficulty (Page.ctrl p)))
    (Logic.checked_or (Logic.checkedMode dom)
       (GameController.currentMode (Page.ctrl p))) /\
  Page.boardInactive q = false /\
  Page.pendingAIMoves q = Page.pendingAIMoves p /\
  resultsRecorded (snd r) = [] /\
  (forall saved, savedGame_from saved (snd r) = None) /\
  (In Logic.uncaught_TypeError (snd r) <->
   GameController.currentMode (Page.ctrl q) <> "pvai" /\
   StatsManager.pvp_oWins (Logic.statsPanel dom) <> None).
Proof.
  cbv zeta. unfold Page.after, Logic.startGame.
  rewrite updateStatsUI_outcome.
  cbn [negb GameController.currentPlayer GameController.currentMode
       GameController.currentDifficulty Logic.getCurrentSettings
       Logic.mode Logic.difficulty].
  rewrite andb_false_r.
  set (mode := Logic.checked_or (Logic.checkedMode dom)
                 (GameController.currentMode (Page.ctrl p))).
  assert (Hcases :
            (String.eqb mode "pvai" = true /\ mode = "pvai") \/
            (String.eqb mode "pvai" = false /\ mode <> "pvai")).
  { destruct (String.eqb_spec mode "pvai"); auto. }
  destruct Hcases as [[-> Hmode] | [-> Hmode]];
    [| destruct (StatsManager.pvp_oWins (Logic.statsPanel dom)) eqn:HoWins];
    cbn [fst snd Page.ctrl Page.boardInactive Page.pendingAIMoves Page.trace
         app fold_left Page.class_after Page.toggleBoardInteraction
         GameController.currentMode];
    (split; [reflexivity |]); (split; [reflexivity |]);
    (split; [cbn; lia |]); (split; [reflexivity |]);
    (split; [reflexivity |]).
  - split; [| intros [H _]; contradiction].
    cbn [In]. intros H.
    repeat (destruct H as [H | H]; [discriminate |]). destruct H.
  - split; [intros _; split; [assumption | discriminate] |].
    intros _. cbn [In]. tauto.
  - split; [| intros [_ H]; contradiction].
    cbn [In]. intros H.
    repeat (destruct H as [H | H]; [discriminate |]). destruct H.
Qed.

(** X14: [startGame] does not cancel a pending call of [performAIMove]:
    on a page with such a call the call is still pending after
    [startGame(false)], the board takes clicks, and when the call runs next
    it marks a cell of the empty board with X, the first move of the
    human. *)
Theorem restart_leaves_the_AI_move_pending (dom : Logic.document)
  (stats : StatsManager.statistics) (p : Page.page) (random : Q) :
  (0 < Page.pendingAIMoves p)%nat -> (0 <= random)%Q -> (random < 1)%Q ->
  let q := Page.after p (Logic.startGame dom stats false (Page.ctrl p)) in
  (0 < Page.pendingAIMoves q)%nat /\
  Page.boardInactive q = false /\
  exists i,
    emptyCell GameBoard.reset i /\
    Logic.performAIMove (Page.ctrl q) random
    = Ok (Logic.handlePlayerMove (Page.ctrl q) (Some i)) /\
    GameController.gameBoard
      (fst (Logic.handlePlayerMove (Page.ctrl q) (Some i)))
    = assign GameBoard.reset i humanMarker.
Proof.
  intros Hpending Hlow Hhigh. cbv zeta.
  destruct (startGame_new dom stats (Page.ctrl p))
    as (effects & -> & Hclass & Hnone & _).
  unfold Page.after.
  cbn [fst snd Page.ctrl Page.boardInactive Page.pendingAIMoves
       fold_left Page.class_after].
  split; [lia |]. split; [assumption |].
  destruct reset_invariant as (_ & _ & HX & HO & Hfree).
  match goal with
  | |- context [Logic.performAIMove ?s _] => set (st := s)
  end.
  assert (Hopen : openNode GameController.winningConditions
                    (GameController.gameBoard st)).
  { split; [assumption |]. split; [assumption |].
    apply has_empty_cell. now exists 0. }
  destruct (performAIMove_lands st random Hopen Hlow Hhigh)
    as (i & Hi & _ & Hperform).
  exists i. split; [assumption |]. split; [assumption |].
  now destruct (accepted_move_state st i eq_refl Hi) as (Hboard & _).
Qed.

Lemma restart_leaves_the_AI_move_pending_witness :
  ((0 < Page.pendingAIMoves (centrePage (pageOf "pvai" "easy")))%nat /\
   (0 <= 1 # 2)%Q /\ (1 # 2 < 1)%Q) /\
  let q := Page.after (centrePage (pageOf "pvai" "easy"))
             (Logic.startGame (pageOf "pvai" "easy") StatsManager.stats0
                false (Page.ctrl (centrePage (pageOf "pvai" "easy")))) in
  (0 < Page.pendingAIMoves q)%nat /\
  Page.boardInactive q = false /\
  exists i,
    emptyCell GameBoard.reset i /\
    Logic.performAIMove (Page.ctrl q) (1 # 2)
    = Ok (Logic.handlePlayerMove (Page.ctrl q) (Some i)) /\
    GameController.gameBoard
      (fst (Logic.handlePlayerMove (Page.ctrl q) (Some i)))
    = assign GameBoard.reset i humanMarker.
Proof.
  assert (H1 : (0 < Page.pendingAIMoves
                      (centrePage (pageOf "pvai" "easy")))%nat)
    by (vm_compute; lia).
  assert (H2 : (0 <= 1 # 2)%Q) by (vm_compute; discriminate).
  assert (H3 : (1 # 2 < 1)%Q) by reflexivity.
  split; [repeat split; assumption |].
  exact (restart_leaves_the_AI_move_pending (pageOf "pvai" "easy")
           StatsManager.stats0 (centrePage (pageOf "pvai" "easy")) (1 # 2)
           H1 H2 H3).
Defined.

(** *** The saved game *)

Lemma resumeGame_page (dom : Logic.document)
  (stats : StatsManager.statistics) (data : StatsManager.savedState)
  (st0 : GameController.state) (inactive0 : bool) (pending1 : nat)
  (tr0 : list Logic.effect) :
  let q := Page.after (Page.mkPage st0 inactive0 pending1 tr0)
             (Logic.resumeGame dom stats data) in
  Page.ctrl q =
  GameController.mkState (StatsManager.board data)
    (StatsManager.currentPlayer data) true (StatsManager.difficulty data)
    (StatsManager.mode data) /\
  (if String.eqb (StatsManager.mode data) "pvai"
      && String.eqb (StatsManager.currentPlayer data) "O"
   then Page.boardInactive q = true /\
        Page.pendingAIMoves q = (pending1 + 1)%nat
   else Page.boardInactive q = false /\ Page.pendingAIMoves q = pending1).
Proof.
  cbv zeta. unfold Page.after, Logic.resumeGame.
  rewrite updateStatsUI_outcome.
  cbn [GameController.currentPlayer GameController.currentMode
       GameController.currentDifficulty GameController.gameBoard].
  destruct (String.eqb (StatsManager.mode data) "pvai");
    [destruct (String.eqb (StatsManager.currentPlayer data) "O")
    | destruct (StatsManager.pvp_oWins (Logic.statsPanel dom))];
    cbn; auto using Nat.add_0_r.
Qed.

(** X16: when the calls of a game leave a game state saved, the state has
    a marked cell, so that [loadGameState] keeps the controller as it is
    and shows the prompt, and [resumeGame] on that state gives the
    position the game was in: the same board, player, mode and difficulty,
    an active game and the same class of the board. To the calls of
    [performAIMove] pending where the game is resumed it adds the one for
    the move of O, when O is to move; the page of the game has that call
    pending and at most as many others as were pending when the game
    began. With no call pending when the game began and none where it is
    resumed, the pending calls are the same. *)
Theorem saved_game_resumes_the_position (dom : Logic.document)
  (pending0 : nat) (p : Page.page)
  (saved : option StatsManager.savedState)
  (data : StatsManager.savedState) :
  Page.Game dom pending0 p ->
  savedGame_from saved (Page.trace p) = Some data ->
  forall (dom' : Logic.document) (stats : StatsManager.statistics)
         (found : option StatsManager.statistics)
         (st0 : GameController.state) (inactive0 : bool)
         (pending1 : nat) (tr0 : list Logic.effect),
    (fst (Logic.loadGameState dom' stats found (Some data) st0) = st0 /\
     In (Logic.showResumePrompt data)
        (snd (Logic.loadGameState dom' stats found (Some data) st0))) /\
    let q := Page.after (Page.mkPage st0 inactive0 pending1 tr0)
               (Logic.resumeGame dom' stats data) in
    Page.ctrl q = Page.ctrl p /\
    Page.boardInactive q = Page.boardInactive p /\
    Page.pendingAIMoves q = (pending1 + Page.dueAIMoves (Page.ctrl p))%nat /\
    (Page.dueAIMoves (Page.ctrl p) <= Page.pendingAIMoves p
     <= pending0 + Page.dueAIMoves (Page.ctrl p))%nat /\
    (pending0 = 0%nat -> pending1 = 0%nat ->
     Page.pendingAIMoves q = Page.pendingAIMoves p).
Proof.
  intros Hgame Hsaved dom' stats found st0 inactive0 pending1 tr0.
  destruct (game_outcome dom pending0 p Hgame) as [Hstate _].
  specialize (Hstate saved). rewrite Hsaved in Hstate.
  destruct Hstate as (Hactive & -> & k & s & Hk & Hs).
  split.
  - unfold Logic.loadGameState. cbn [StatsManager.board].
    assert (Hsome : existsb (fun cell => negb (String.eqb cell ""))
                      (GameController.gameBoard (Page.ctrl p)) = true).
    { apply existsb_exists. exists s. split.
      - unfold get in Hk. destruct (k <? 0); [discriminate |].
        now apply nth_error_In in Hk.
      - now destruct (String.eqb_spec s ""). }
    rewrite Hsome. cbn [fst snd]. split; [reflexivity |].
    apply in_or_app. right. apply in_or_app. left. now left.
  - pose proof (game_invariant dom pending0 p Hgame) as Hinv.
    destruct (page_class pending0 p Hinv) as [_ Hclass].
    specialize (Hclass Hactive).
    destruct Hinv as (_ & _ & Hplayer & _ & _ & [_ Hcalls] & _).
    destruct (resumeGame_page dom' stats
                (StatsManager.mkSavedState
                   (GameController.gameBoard (Page.ctrl p))
                   (GameController.currentPlayer (Page.ctrl p))
                   (GameController.currentMode (Page.ctrl p))
                   (GameController.currentDifficulty (Page.ctrl p)))
                st0 inactive0 pending1 tr0) as [Hctrl Hflags].
    cbv zeta in Hctrl, Hflags. cbv zeta.
    cbn [StatsManager.board StatsManager.currentPlayer StatsManager.mode
         StatsManager.difficulty] in Hctrl, Hflags.
    split; [rewrite Hctrl; destruct (Page.ctrl p); cbn in Hactive;
            now subst |].
    unfold Page.dueAIMoves in *. rewrite Hactive in *.
    rewrite andb_true_r in *.
    destruct (String.eqb (GameController.currentMode (Page.ctrl p))
                "pvai"); cbn [andb] in Hflags, Hcalls |- *.
    + destruct Hplayer as [Hp | Hp]; rewrite Hp in *.
      * change (String.eqb "X" "O") with false in *.
        change (String.eqb "X" "X") with true in *.
        cbv beta iota in Hcalls |- *.
        destruct Hflags as [-> ->]. rewrite Hclass.
        repeat split; lia.
      * change (String.eqb "O" "O") with true in *.
        change (String.eqb "O" "X") with false in *.
        cbv beta iota in Hcalls |- *.
        destruct Hflags as [-> ->]. rewrite Hclass.
        repeat split; lia.
    + cbv beta iota in Hcalls |- *.
      destruct Hflags as [-> ->]. rewrite Hclass. repeat split; lia.
Qed.

Lemma saved_game_resumes_the_position_witness :
  ((Page.Game (pageOf "pvai" "hard") 1
      (restartedCentrePage (pageOf "pvai" "hard")) /\
    savedGame_from None
      (Page.trace (restartedCentrePage (pageOf "pvai" "hard")))
    = Some (StatsManager.mkSavedState ["";"";"";"";"X";"";"";"";""] "O"
              "pvai" "hard")) /\
   (Page.Game (pageOf "pvai" "hard") 0 (centrePage (pageOf "pvai" "hard")) /\
    savedGame_from None (Page.trace (centrePage (pageOf "pvai" "hard")))
    = Some (StatsManager.mkSavedState ["";"";"";"";"X";"";"";"";""] "O"
              "pvai" "hard"))) /\
  (fst (Logic.loadGameState (pageOf "pvai" "medium") StatsManager.stats0 None
          (Some (StatsManager.mkSavedState ["";"";"";"";"X";"";"";"";""] "O"
                   "pvai" "hard")) initialState) = initialState /\
   In (Logic.showResumePrompt
         (StatsManager.mkSavedState ["";"";"";"";"X";"";"";"";""] "O"
            "pvai" "hard"))
      (snd (Logic.loadGameState (pageOf "pvai" "medium") StatsManager.stats0
              None
              (Some (StatsManager.mkSavedState
                       ["";"";"";"";"X";"";"";"";""] "O" "pvai" "hard"))
              initialState))) /\
  let q := Page.after (Page.mkPage initialState false 0 [])
             (Logic.resumeGame (pageOf "pvai" "medium") StatsManager.stats0
                (StatsManager.mkSavedState ["";"";"";"";"X";"";"";"";""] "O"
                   "pvai" "hard")) in
  (let p := restartedCentrePage (pageOf "pvai" "hard") in
   Page.ctrl q = Page.ctrl p /\
   Page.boardInactive q = Page.boardInactive p /\
   Page.pendingAIMoves q = (0 + Page.dueAIMoves (Page.ctrl p))%nat /\
   (Page.dueAIMoves (Page.ctrl p) <= Page.pendingAIMoves p
    <= 1 + Page.dueAIMoves (Page.ctrl p))%nat) /\
  (let p := centrePage (pageOf "pvai" "hard") in
   Page.ctrl q = Page.ctrl p /\
   Page.boardInactive q = Page.boardInactive p /\
   Page.pendingAIMoves q = Page.pendingAIMoves p).
Proof.
  pose proof (restartedCentrePage_game "pvai" "hard") as H1.
  assert (H2 : savedGame_from None
                 (Page.trace (restartedCentrePage (pageOf "pvai" "hard")))
               = Some (StatsManager.mkSavedState
                         ["";"";"";"";"X";"";"";"";""] "O" "pvai" "hard"))
    by reflexivity.
  pose proof (centrePage_game "pvai" "hard") as H3.
  assert (H4 : savedGame_from None
                 (Page.trace (centrePage (pageOf "pvai" "hard")))
               = Some (StatsManager.mkSavedState
                         ["";"";"";"";"X";"";"";"";""] "O" "pvai" "hard"))
    by reflexivity.
  split; [repeat split; assumption |].
  destruct (saved_game_resumes_the_position _ _ _ None _ H1 H2
              (pageOf "pvai" "medium") StatsManager.stats0 None initialState
              false 0%nat [])
    as (Hprompt & Hctrl & Hclass & Hcalls & Hbounds & _).
  destruct (saved_game_resumes_the_position _ _ _ None _ H3 H4
              (pageOf "pvai" "medium") StatsManager.stats0 None initialState
              false 0%nat [])
    as (_ & Hctrl0 & Hclass0 & _ & _ & Hsame).
  split; [exact Hprompt |].
  split; [exact (conj Hctrl (conj Hclass (conj Hcalls Hbounds))) |].
  split; [exact Hctrl0 |]. split; [exact Hclass0 |].
  exact (Hsame eq_refl eq_refl).
Defined.

(** ** The statistics *)











(** *** The statistics of a game against the hard tier *)




(** ** The preferences *)

Lemma getItem_removeItem_same (items : LocalStore.localStorage)
  (key : string) :
  LocalStore.getItem (LocalStore.removeItem items key) key = None.
Proof.
  induction items as [| [k v] rest IH]; [reflexivity |].
  unfold LocalStore.removeItem in *. cbn [filter fst].
  destruct (String.eqb k key) eqn:Hk; cbn [negb]; [assumption |].
  cbn [LocalStore.getItem]. now rewrite Hk.
Qed.

Lemma getItem_removeItem_other (items : LocalStore.localStorage)
  (key k : string) :
  k <> key ->
  LocalStore.getItem (LocalStore.removeItem items key) k
  = LocalStore.getItem items k.
Proof.
  intros Hk. induction items as [| [k' v] rest IH]; [reflexivity |].
  unfold LocalStore.removeItem in *. cbn [filter fst LocalStore.getItem].
  destruct (String.eqb_spec k' key) as [-> | Hne]; cbn [negb].
  - rewrite IH. destruct (String.eqb_spec key k) as [Heq | _];
      [congruence | reflexivity].
  - cbn [LocalStore.getItem]. now rewrite IH.
Qed.

Section Browser.

Variable object : Type.
Variable JSON_parse : string -> option (LocalStore.value object).
Variable JSON_stringify : LocalStore.value object -> option string.
Variable String_other : object -> option string.

(** What [load] finds after [save] stored a string under a key of plain
    strings. *)
Lemma load_save_simple (room : bool) (items : LocalStore.localStorage)
  (key s : string) (defaultData : LocalStore.value object) :
  In key LocalStore.simpleValueKeys ->
  LocalStore.load object JSON_parse
    (LocalStore.save object JSON_stringify String_other room items key
       (LocalStore.text s)) key defaultData =
  if room
  then if String.eqb s "" then defaultData else LocalStore.text s
  else LocalStore.load object JSON_parse items key defaultData.
Proof.
  intros Hkey. unfold LocalStore.load, LocalStore.save.
  assert (Hsimple : existsb (String.eqb key) LocalStore.simpleValueKeys
                    = true).
  { apply existsb_exists. exists key. split; [assumption |].
    apply String.eqb_refl. }
  rewrite Hsimple. cbn [LocalStore.String_of].
  destruct room; cbn [LocalStore.setItem]; [| reflexivity].
  cbn [LocalStore.getItem]. rewrite String.eqb_refl. reflexivity.
Qed.

Lemma load_save_other (room : bool) (items : LocalStore.localStorage)
  (key k : string) (data defaultData : LocalStore.value object) :
  k <> key ->
  LocalStore.load object JSON_parse
    (LocalStore.save object JSON_stringify String_other room items key data)
    k defaultData
  = LocalStore.load object JSON_parse items k defaultData.
Proof.
  intros Hk. unfold LocalStore.load, LocalStore.save.
  destruct (if existsb (String.eqb key) LocalStore.simpleValueKeys
            then LocalStore.String_of object String_other data
            else JSON_stringify data) as [s |]; [| reflexivity].
  destruct room; cbn [LocalStore.setItem]; [| reflexivity].
  cbn [LocalStore.getItem].
  destruct (String.eqb_spec key k) as [Heq | _]; [congruence |].
  now rewrite getItem_removeItem_other.
Qed.

(** X20: under a key of plain strings [load] returns the string [save]
    stored, the default when that string is empty, and what it returned
    before when [setItem] raised, which [save] does not pass on; [save]
    changes nothing of what [load] returns under another key, and after
    [removeItem] [load] returns the default. *)
Theorem LocalStore_returns_the_string_it_saved (room : bool)
  (items : LocalStore.localStorage) (key s : string)
  (data defaultData : LocalStore.value object) :
  In key LocalStore.simpleValueKeys ->
  (LocalStore.load object JSON_parse
     (LocalStore.save object JSON_stringify String_other room items key
        (LocalStore.text s)) key defaultData =
   if room
   then if String.eqb s "" then defaultData else LocalStore.text s
   else LocalStore.load object JSON_parse items key defaultData) /\
  (forall k, k <> key ->
     LocalStore.load object JSON_parse
       (LocalStore.save object JSON_stringify String_other room items key
          data) k defaultData =
     LocalStore.load object JSON_parse items k defaultData) /\
  LocalStore.load object JSON_parse (LocalStore.removeItem items key) key
    defaultData = defaultData.
Proof.
  intros Hkey. split; [now apply load_save_simple |].
  split; [intros k Hk; now apply load_save_other |].
  unfold LocalStore.load. now rewrite getItem_removeItem_same.
Qed.

(** X21: [loadTheme] after [toggleTheme] gives the class [light-theme]
    and the icon that [toggleTheme] left, whatever the page showed before
    [loadTheme]; when [setItem] raised it gives what it would have given
    before the toggle. *)
Theorem theme_survives_a_reload (room : bool) (page reloaded : ThemeController.theme)
  (items : LocalStore.localStorage) :
  let '(page', items') :=
    ThemeController.toggleTheme object JSON_stringify String_other room page
      items in
  ThemeController.loadTheme object JSON_parse items' reloaded =
  if room then page'
  else ThemeController.loadTheme object JSON_parse items reloaded.
Proof.
  unfold ThemeController.toggleTheme, ThemeController.loadTheme.
  rewrite load_save_simple by (cbn; auto).
  destruct room; [| reflexivity].
  now destruct (ThemeController.lightTheme page).
Qed.

(** X22: the [isMuted] the module starts with after [toggleMute] is the one
    [toggleMute] left, and [loadMuteSetting] then shows its icon; when
    [setItem] raised it is the one the module would have started with
    before. While [isMuted] holds [playSound] plays nothing. *)
Theorem mute_survives_a_reload (room : bool) (page : SoundController.sound)
  (icon : SoundController.icon) (items : LocalStore.localStorage) :
  let '(page', items') :=
    SoundController.toggleMute object JSON_stringify String_other room page
      items in
  let reloaded := SoundController.isMuted0 object JSON_parse items' in
  reloaded =
  (if room then SoundController.isMuted page'
   else SoundController.isMuted0 object JSON_parse items) /\
  (room = true ->
   SoundController.loadMuteSetting (SoundController.mkSound reloaded icon) = page') /\
  (SoundController.isMuted page' = true ->
   forall audioElement, SoundController.playSound page' audioElement = false).
Proof.
  unfold SoundController.toggleMute, SoundController.isMuted0.
  rewrite load_save_simple by (cbn; auto).
  assert (Hsilent : forall muted icon' audioElement,
             muted = true ->
             SoundController.playSound (SoundController.mkSound muted icon')
               audioElement = false).
  { intros muted icon' audioElement ->. reflexivity. }
  destruct room; cbn [SoundController.isMuted].
  - destruct (SoundController.isMuted page); cbn [negb];
      (split; [reflexivity |]); (split; [reflexivity |]);
      intros Hmuted audioElement; now apply Hsilent.
  - split; [reflexivity |]. split; [discriminate |].
    intros Hmuted audioElement. now apply Hsilent.
Qed.

End Browser.

Lemma LocalStore_returns_the_string_it_saved_witness :
  In LocalStore.THEME_KEY LocalStore.simpleValueKeys /\
  (LocalStore.load unit (fun _ => None)
     (LocalStore.save unit (fun _ => None) (fun _ => None) true
        [(LocalStore.THEME_KEY, "dark")] LocalStore.THEME_KEY
        (LocalStore.text "light")) LocalStore.THEME_KEY
     (LocalStore.text "dark") =
   if true
   then if String.eqb "light" "" then LocalStore.text "dark"
        else LocalStore.text "light"
   else LocalStore.load unit (fun _ => None)
          [(LocalStore.THEME_KEY, "dark")] LocalStore.THEME_KEY
          (LocalStore.text "dark")) /\
  (forall k, k <> LocalStore.THEME_KEY ->
     LocalStore.load unit (fun _ => None)
       (LocalStore.save unit (fun _ => None) (fun _ => None) true
          [(LocalStore.THEME_KEY, "dark")] LocalStore.THEME_KEY
          (LocalStore.text "light")) k (LocalStore.text "dark") =
     LocalStore.load unit (fun _ => None) [(LocalStore.THEME_KEY, "dark")] k
       (LocalStore.text "dark")) /\
  LocalStore.load unit (fun _ => None)
    (LocalStore.removeItem [(LocalStore.THEME_KEY, "dark")]
       LocalStore.THEME_KEY) LocalStore.THEME_KEY (LocalStore.text "dark")
  = LocalStore.text "dark".
Proof.
  assert (H1 : In LocalStore.THEME_KEY LocalStore.simpleValueKeys)
    by (cbn; auto).
  split; [assumption |].
  exact (LocalStore_returns_the_string_it_saved unit (fun _ => None)
           (fun _ => None) (fun _ => None) true
           [(LocalStore.THEME_KEY, "dark")] LocalStore.THEME_KEY "light"
           (LocalStore.text "light") (LocalStore.text "dark") H1).
Defined.
